(** * react-pivotgrid: the pivot computation engine

    A shallow embedding of the engine's four source files

      - [src/components/pivot/utils/aggregations.ts]
      - [src/components/pivot/utils/pivot-data.ts]
      - [src/components/pivot/utils/pivot-data-async.ts]
      - [src/components/pivot/types/index.ts] (the data shapes)

    and of the pure computations of the code around the engine

      - [src/components/pivot/renderers/table-renderer.tsx] (the helpers of
        the table renderer)
      - [src/components/pivot/components/available-field-item.tsx],
        [src/components/pivot/drag-drop-fields.tsx] and
        [src/components/pivot/index.tsx] (what the grid computes from its
        state for the engine, and from the engine's errors)
      - [src/components/pivot/utils/chart-data.ts]
      - [src/components/pivot/utils/dnd-helpers.ts]

    together with the part of the ECMAScript runtime these files call
    ([String(...)], [parseInt], [parseFloat], [Array.prototype.sort], [Set]),
    followed by the properties of the engine.

    Conventions.
    - A JavaScript [number] is a binary64 float: Rocq's primitive [float].
    - A JavaScript string is a Rocq [string]; the examples use ASCII text.
    - A record ([DataItem]) is a finite map from field names to values;
      reading an absent field yields [undefined].
    - [String.prototype.localeCompare] and [Number.prototype.toLocaleString]
      depend on the host's default locale: they are the two operations of the
      class [Intl], over which the engine is parametric.
    - Field values are the primitive values of [FieldValue]; [Date] objects
      (whose coercion depends on the host's time zone) are outside the model.
    - A call that spreads an array ([Math.min(...nums)]) passes every element
      as an argument; the number of arguments an engine accepts before it
      throws a [RangeError] is outside the model. *)

From Stdlib Require Import ZArith QArith Qpower Qabs Floats.
From Stdlib Require Import String Ascii List Bool Lia.
From Stdlib Require Import Permutation Sorted DecimalString.
From Equations Require Import Equations.
From stdpp Require Import gmap strings.

Import ListNotations.
Local Open Scope string_scope.
Local Open Scope list_scope.

(** ** The ECMAScript runtime used by the engine *)

Module JS.

(** The primitive values a field of a record may hold. *)
Inductive Value : Type :=
| Undefined
| Null
| Boolean (b : bool)
| Number (x : float)
| Str (s : string).

(** [v === undefined], [v === null]. *)
Definition isUndefined (v : Value) : bool :=
  match v with Undefined => true | _ => false end.

Definition isNull (v : Value) : bool :=
  match v with Null => true | _ => false end.

(** [a ?? b]: [b] when [a] is [null] or [undefined]. *)
Definition nullish (a b : Value) : Value :=
  match a with
  | Undefined | Null => b
  | _ => a
  end.

(** *** Numbers *)

(** The Number value of a mathematical integer (round to nearest, ties to
    even). *)
Definition ofZ (z : Z) : float :=
  SF2Prim (binary_normalize prec emax z 0 false).

Definition ofNat (n : nat) : float := ofZ (Z.of_nat n).

(** The Number value of the rational [n / d], correctly rounded. *)
Definition ofRatio (n d : positive) : float :=
  SF2Prim (SFdiv prec emax (S754_finite false n 0) (S754_finite false d 0)).

(** The Number value of [m * 10 ^ e] for a decimal literal with digits [m]. *)
Definition ofDecimal (m : N) (e : Z) : float :=
  match m with
  | N0 => PrimFloat.zero
  | Npos p =>
      match e with
      | Zneg k => ofRatio p (10 ^ k)
      | _ => ofZ (Zpos p * 10 ^ e)
      end
  end.

Definition isNaN (x : float) : bool := PrimFloat.is_nan x.

(** [x === y] on numbers. *)
Definition strictEquals (x y : float) : bool := PrimFloat.eqb x y.

(** SameValueZero, the equality of [Set] members. *)
Definition sameValueZero (a b : Value) : bool :=
  match a, b with
  | Undefined, Undefined => true
  | Null, Null => true
  | Boolean x, Boolean y => Bool.eqb x y
  | Number x, Number y => PrimFloat.eqb x y || (isNaN x && isNaN y)
  | Str x, Str y => String.eqb x y
  | _, _ => false
  end.

(** *** Scanning strings *)

Definition isDigit (c : ascii) : bool :=
  let n := nat_of_ascii c in (48 <=? n)%nat && (n <=? 57)%nat.

Definition digitValue (c : ascii) : N := N.of_nat (nat_of_ascii c - 48).

(** The white space and line terminators of the ASCII range. *)
Definition isWhiteSpace (c : ascii) : bool :=
  let n := nat_of_ascii c in
  ((9 <=? n)%nat && (n <=? 13)%nat) || (n =? 32)%nat.

Fixpoint trimStart (s : string) : string :=
  match s with
  | String c rest => if isWhiteSpace c then trimStart rest else s
  | EmptyString => s
  end.

(** The longest prefix of decimal digits, read as [(value, count, rest)]. *)
Fixpoint scanDigits (acc : N) (count : nat) (s : string) : N * nat * string :=
  match s with
  | String c rest =>
      if isDigit c then scanDigits (10 * acc + digitValue c) (S count) rest
      else (acc, count, s)
  | EmptyString => (acc, count, s)
  end.

(** An optional sign: [(negative, rest)]. *)
Definition scanSign (s : string) : bool * string :=
  match s with
  | String "-" rest => (true, rest)
  | String "+" rest => (false, rest)
  | _ => (false, s)
  end.

Definition applySign (negative : bool) (x : float) : float :=
  if negative then PrimFloat.opp x else x.

(** [parseInt(s, 10)]: leading white space, an optional sign, then the
    longest run of decimal digits; [NaN] when there is no digit. *)
Definition parseInt (s : string) : float :=
  let '(negative, body) := scanSign (trimStart s) in
  let '(value, count, _) := scanDigits 0 0 body in
  match count with
  | O => PrimFloat.nan
  | S _ => applySign negative (ofZ (Z.of_N value))
  end.

(** The exponent part of a decimal literal, [e], [e+] or [e-] followed by at
    least one digit; [0] when the text does not continue with one. *)
Definition scanExponent (s : string) : Z :=
  match s with
  | String c rest =>
      if (Ascii.eqb c "e" || Ascii.eqb c "E")%bool then
        let '(negative, digits) := scanSign rest in
        let '(value, count, _) := scanDigits 0 0 digits in
        match count with
        | O => 0%Z
        | S _ => if negative then (- Z.of_N value)%Z else Z.of_N value
        end
      else 0%Z
  | EmptyString => 0%Z
  end.

(** [parseFloat(s)]: leading white space, then the longest prefix that is a
    [StrDecimalLiteral]; [NaN] when there is none. *)
Definition parseFloat (s : string) : float :=
  let '(negative, body) := scanSign (trimStart s) in
  if String.prefix "Infinity" body then applySign negative PrimFloat.infinity
  else
    let '(intValue, intCount, afterInt) := scanDigits 0 0 body in
    let '(mantissa, fracCount, afterFrac) :=
      match afterInt with
      | String "." rest =>
          let '(value, count, afterDigits) := scanDigits intValue 0 rest in
          match intCount, count with
          | O, O => (intValue, O, afterInt)
          | _, _ => (value, count, afterDigits)
          end
      | _ => (intValue, O, afterInt)
      end in
    match intCount, fracCount with
    | O, O => PrimFloat.nan
    | _, _ =>
        applySign negative
          (ofDecimal mantissa (scanExponent afterFrac - Z.of_nat fracCount))
    end.

(** *** Number::toString *)

Definition digitsOf (n : N) : string := NilZero.string_of_uint (N.to_uint n).

Definition zeros (n : nat) : string :=
  String.concat EmptyString (repeat "0" n).

(** The decimal exponent [n] of a positive rational: [10^(n-1) <= p/q < 10^n]. *)
Fixpoint decimalExponentBelow (fuel : nat) (p q : positive) : Z :=
  match fuel with
  | O => 0%Z
  | S fuel' =>
      if (q <=? p)%positive then 1%Z
      else (decimalExponentBelow fuel' (10 * p) q - 1)%Z
  end.

Definition decimalExponent (p q : positive) : Z :=
  if (q <=? p)%positive
  then Z.of_nat (String.length (digitsOf (Npos p / Npos q)))
  else (decimalExponentBelow 400 (10 * p) q - 1)%Z.

(** The integers nearest to [p / q * 10 ^ (- scale)], below and above. *)
Definition scaledCandidates (p q : positive) (scale : Z) : list N :=
  let '(num, den) :=
    match scale with
    | Zneg k => (Npos (p * 10 ^ k), Npos q)
    | Zpos k => (Npos p, Npos (q * 10 ^ k))
    | Z0 => (Npos p, Npos q)
    end in
  let low := (num / den)%N in
  [low; (low + 1)%N].

(** The candidates [(s, n)] with [k] digits whose Number value is [x]. *)
Definition shortestCandidates (x : float) (p q : positive) (k : nat) :
  list (N * Z) :=
  let n0 := decimalExponent p q in
  flat_map
    (fun n =>
       let scale := (n - Z.of_nat k)%Z in
       List.map (fun s => (s, n))
         (List.filter
            (fun s =>
               (10 ^ N.of_nat (k - 1) <=? s)%N && (s <? 10 ^ N.of_nat k)%N
               && PrimFloat.eqb (ofDecimal s scale) x)
            (scaledCandidates p q scale)))
    [n0; (n0 + 1)%Z].

(** The distance between [s * 10 ^ (n - k)] and [p / q]. *)
Definition distanceTo (p q : positive) (k : nat) (candidate : N * Z) : Q :=
  let '(s, n) := candidate in
  Qabs (inject_Z (Z.of_N s) * Qpower 10 (n - Z.of_nat k) - (Zpos p # q))%Q.

(** Among candidates of one length: the closest to the value, the even
    one on a tie. *)
Definition closer (p q : positive) (k : nat) (a b : N * Z) : N * Z :=
  match Qcompare (distanceTo p q k a) (distanceTo p q k b) with
  | Lt => a
  | Gt => b
  | Eq => if N.even (fst a) then a else b
  end.

Fixpoint shortestDigits (x : float) (p q : positive) (fuel k : nat) :
  option (N * Z * nat) :=
  match fuel with
  | O => None
  | S fuel' =>
      match shortestCandidates x p q k with
      | c :: cs => Some (fold_left (closer p q k) cs c, k)
      | [] => shortestDigits x p q fuel' (S k)
      end
  end.

(** The text of a positive finite Number with shortest digits [s] ([k] of
    them) and decimal exponent [n]. *)
Definition formatDigits (s : N) (k : nat) (n : Z) : string :=
  let digits := digitsOf s in
  if ((Z.of_nat k <=? n) && (n <=? 21))%Z then
    digits +:+ zeros (Z.to_nat n - k)
  else if ((0 <? n) && (n <=? 21))%Z then
    substring 0 (Z.to_nat n) digits +:+ "." +:+
    substring (Z.to_nat n) (k - Z.to_nat n) digits
  else if ((-6 <? n) && (n <=? 0))%Z then
    "0." +:+ zeros (Z.to_nat (- n)) +:+ digits
  else
    let e := (n - 1)%Z in
    let exponent :=
      (if (e <? 0)%Z then "-" else "+") +:+ digitsOf (Z.abs_N e) in
    match k with
    | 1%nat => digits +:+ "e" +:+ exponent
    | _ => substring 0 1 digits +:+ "." +:+ substring 1 (k - 1) digits
           +:+ "e" +:+ exponent
    end.

Definition Number_toString (x : float) : string :=
  match Prim2SF x with
  | S754_nan => "NaN"
  | S754_zero _ => "0"
  | S754_infinity negative => if negative then "-Infinity" else "Infinity"
  | S754_finite negative m e =>
      let '(p, q) :=
        match e with
        | Zneg k => (m, (2 ^ k)%positive)
        | Zpos k => ((m * 2 ^ k)%positive, 1%positive)
        | Z0 => (m, 1%positive)
        end in
      let text :=
        match shortestDigits (PrimFloat.abs x) p q 17 1 with
        | Some (s, n, k) => formatDigits s k n
        | None => "NaN"
        end in
      if negative then "-" +:+ text else text
  end.

(** [String(v)]. *)
Definition ToString (v : Value) : string :=
  match v with
  | Undefined => "undefined"
  | Null => "null"
  | Boolean b => if b then "true" else "false"
  | Number x => Number_toString x
  | Str s => s
  end.

(** *** Arrays and sets *)

(** [Array.prototype.sort(comparefn)]: a stable sort; an element moves
    ahead of another only if the comparator returns a value above zero for
    the pair (a [NaN] result counts as zero). *)
Fixpoint sortInsert {A} (comparefn : A -> A -> float) (x : A) (l : list A) :
  list A :=
  match l with
  | [] => [x]
  | y :: rest =>
      if PrimFloat.ltb 0 (comparefn x y) then y :: sortInsert comparefn x rest
      else x :: l
  end.

Definition sort {A} (comparefn : A -> A -> float) (l : list A) : list A :=
  fold_right (sortInsert comparefn) [] l.

(** [Set<string>], in insertion order: [add] keeps the first occurrence. *)
Definition setHas (values : list string) (v : string) : bool :=
  existsb (String.eqb v) values.

Definition setAdd (values : list string) (v : string) : list string :=
  if setHas values v then values else values ++ [v].

(** [new Set(values)] over any values, members compared by SameValueZero. *)
Definition valueSetAdd (members : list Value) (v : Value) : list Value :=
  if existsb (sameValueZero v) members then members else members ++ [v].

Definition valueSet (values : list Value) : list Value :=
  fold_left valueSetAdd values [].

End JS.

(** The two locale-dependent operations of the host. *)
Class Intl : Type := {
  (** [a.localeCompare(b, undefined, { numeric: true, sensitivity: 'base' })] *)
  localeCompare : string -> string -> float;
  (** [n.toLocaleString()] for an array or set size [n] *)
  toLocaleString : nat -> string
}.

(** ** types/index.ts *)

(** [DataItem]: a record; [item[field]] is [undefined] for an absent field. *)
Abbreviation DataItem := (gmap string JS.Value).

Definition get (item : DataItem) (field : string) : JS.Value :=
  default JS.Undefined (item !! field).

(** [array[index]] for an array of field names used as a property key: an
    index out of range yields [undefined], read as the key ["undefined"]. *)
Definition fieldAt (fields : list string) (index : nat) : string :=
  default "undefined" (fields !! index).

(** [String(item[field] ?? 'null')], the coercion of a grouping or filter
    value. *)
Definition coerced (item : DataItem) (field : string) : string :=
  JS.ToString (JS.nullish (get item field) (JS.Str "null")).

(** ** utils/aggregations.ts *)

Inductive AggregationFunction : Type :=
| Count
| CountUnique
| ListUnique
| Sum
| IntegerSum
| Average
| Median
| SampleVariance
| SampleStandardDeviation
| Minimum
| Maximum
| First
| Last.

(** The string literal of each member of the union type. *)
Definition aggregationName (fn : AggregationFunction) : string :=
  match fn with
  | Count => "count"
  | CountUnique => "countUnique"
  | ListUnique => "listUnique"
  | Sum => "sum"
  | IntegerSum => "integerSum"
  | Average => "average"
  | Median => "median"
  | SampleVariance => "sampleVariance"
  | SampleStandardDeviation => "sampleStandardDeviation"
  | Minimum => "minimum"
  | Maximum => "maximum"
  | First => "first"
  | Last => "last"
  end.

Definition getAggregationLabel (fn : AggregationFunction) : string :=
  match fn with
  | Count => "Count"
  | CountUnique => "Count Unique Values"
  | ListUnique => "List Unique Values"
  | Sum => "Sum"
  | IntegerSum => "Integer Sum"
  | Average => "Average"
  | Median => "Median"
  | SampleVariance => "Sample Variance"
  | SampleStandardDeviation => "Sample Standard Deviation"
  | Minimum => "Minimum"
  | Maximum => "Maximum"
  | First => "First"
  | Last => "Last"
  end.

(** The result of an aggregation: [number | string | string[]]. *)
Inductive AggregatedValue : Type :=
| NumberValue (x : float)
| StringValue (s : string)
| ListValue (l : list string).

(** [values[index]] for a possibly negative or out-of-range index. *)
Definition valueAt (values : list JS.Value) (index : Z) : JS.Value :=
  if (index <? 0)%Z then JS.Undefined
  else default JS.Undefined (values !! Z.to_nat index).

Definition numberAt (nums : list float) (index : nat) : float :=
  default PrimFloat.nan (nums !! index).

(** [values.map(val => parse(String(val))).filter(n => !isNaN(n))] *)
Definition numericValues (parse : string -> float) (values : list JS.Value) :
  list float :=
  List.filter (fun n => negb (JS.isNaN n))
    (List.map (fun val => parse (JS.ToString val)) values).

(** [nums.reduce((acc, val) => acc + val, 0)] *)
Definition total (nums : list float) : float :=
  fold_left PrimFloat.add nums 0%float.

(** [Math.min(...nums)] and [Math.max(...nums)]: the value of a call that
    returns. The spread passes every number as an argument of the call, and
    an engine throws a [RangeError] when a call has more arguments than it
    accepts (some hundred thousand in the engines in use): lists that long
    are outside the model. *)
Definition isNegativeZero (x : float) : bool :=
  PrimFloat.is_zero x && PrimFloat.get_sign x.

Definition isPositiveZero (x : float) : bool :=
  PrimFloat.is_zero x && negb (PrimFloat.get_sign x).

Definition Math_min (nums : list float) : float :=
  if existsb JS.isNaN nums then PrimFloat.nan
  else
    fold_left
      (fun lowest x =>
         if (isNegativeZero x && isPositiveZero lowest)
            || PrimFloat.ltb x lowest
         then x else lowest)
      nums PrimFloat.infinity.

Definition Math_max (nums : list float) : float :=
  if existsb JS.isNaN nums then PrimFloat.nan
  else
    fold_left
      (fun highest x =>
         if (isPositiveZero x && isNegativeZero highest)
            || PrimFloat.ltb highest x
         then x else highest)
      nums PrimFloat.neg_infinity.

(** The variance of the two sample statistics; [Math.pow(d, 2)] is the
    product [d * d]. *)
Definition variance (nums : list float) : float :=
  let mean := (total nums / JS.ofNat (length nums))%float in
  (fold_left
     (fun acc val => (acc + (val - mean) * (val - mean))%float) nums 0%float
   / JS.ofNat (length nums - 1))%float.

(** [aggregate(data, field, fn)]. The [default] branch of the [switch] is not
    reached by a member of the union type. *)
Definition aggregate (data : list DataItem) (field : string)
  (fn : AggregationFunction) : AggregatedValue :=
  match data with
  | [] => NumberValue 0%float
  | _ :: _ =>
      let values :=
        List.filter (fun v => negb (JS.isUndefined v) && negb (JS.isNull v))
          (List.map (fun item => get item field) data) in
      match fn with
      | Count => NumberValue (JS.ofNat (length data))
      | CountUnique => NumberValue (JS.ofNat (length (JS.valueSet values)))
      | ListUnique => ListValue (List.map JS.ToString (JS.valueSet values))
      | Sum => NumberValue (total (numericValues JS.parseFloat values))
      | IntegerSum => NumberValue (total (numericValues JS.parseInt values))
      | Average =>
          let nums := numericValues JS.parseFloat values in
          NumberValue
            (if (0 <? length nums)%nat
             then (total nums / JS.ofNat (length nums))%float
             else 0%float)
      | Median =>
          let nums :=
            JS.sort (fun a b => (a - b)%float)
              (numericValues JS.parseFloat values) in
          match length nums with
          | O => NumberValue 0%float
          | S _ =>
              let mid := (length nums / 2)%nat in
              NumberValue
                (if negb (length nums mod 2 =? 0)%nat
                 then numberAt nums mid
                 else ((numberAt nums (mid - 1) + numberAt nums mid) / 2)%float)
          end
      | SampleVariance =>
          let nums := numericValues JS.parseFloat values in
          NumberValue
            (if (length nums <=? 1)%nat then 0%float else variance nums)
      | SampleStandardDeviation =>
          let nums := numericValues JS.parseFloat values in
          NumberValue
            (if (length nums <=? 1)%nat then 0%float
             else PrimFloat.sqrt (variance nums))
      | Minimum =>
          let nums := numericValues JS.parseFloat values in
          NumberValue (if (0 <? length nums)%nat then Math_min nums else 0%float)
      | Maximum =>
          let nums := numericValues JS.parseFloat values in
          NumberValue (if (0 <? length nums)%nat then Math_max nums else 0%float)
      | First =>
          StringValue
            (JS.ToString (JS.nullish (valueAt values 0) (JS.Str EmptyString)))
      | Last =>
          StringValue
            (JS.ToString
               (JS.nullish (valueAt values (Z.of_nat (length values) - 1))
                  (JS.Str EmptyString)))
      end
  end.

(** ** The configuration and the result (types/index.ts) *)

Record ValueFieldConfig : Type := {
  field : string;
  aggregation : AggregationFunction
}.

Record FilterConfig : Type := {
  filterField : string;
  filterValues : list string
}.

Record PivotConfig : Type := {
  rows : list string;
  columns : list string;
  values : list ValueFieldConfig;
  filters : list FilterConfig
}.

(** [AggregatedValues]: an object from labels to aggregation results. *)
Abbreviation AggregatedValues := (gmap string AggregatedValue).

Record PivotCell : Type := {
  value : AggregatedValues;
  rowKeys : list string;
  columnKeys : list string;
  data : list DataItem
}.

Record PivotTable : Type := {
  rowHeaders : list (list string);
  columnHeaders : list (list string);
  cells : list (list PivotCell);
  rowTotals : list AggregatedValues;
  columnTotals : list AggregatedValues;
  grandTotal : AggregatedValues
}.

(** ** utils/pivot-data.ts *)

Section PivotData.

Context `{Intl}.

(** The comparator of the key deriver: numeric when both strings parse as
    floats, the locale's comparison otherwise. *)
Definition smartSort (a b : string) : float :=
  let numA := JS.parseFloat a in
  let numB := JS.parseFloat b in
  if negb (JS.isNaN numA) && negb (JS.isNaN numB) then (numA - numB)%float
  else localeCompare a b.

(** The [Set] of one field's coerced values, in first-occurrence order. *)
Definition collectValues (data : list DataItem) (field : string) :
  list string :=
  fold_left
    (fun values item =>
       let value := JS.nullish (get item field) (JS.Str "null") in
       JS.setAdd values (JS.ToString value))
    data [].

Equations? generateCombinations (fields : list string)
  (uniqueValues : gmap string (list string)) (fieldIndex : nat) :
  list (list string) by wf (length fields - fieldIndex) lt :=
  generateCombinations fields uniqueValues fieldIndex
    with le_lt_dec (length fields) fieldIndex => {
    | left _ => [[]]
    | right _ =>
        let field := fieldAt fields fieldIndex in
        let values :=
          JS.sort smartSort (default [] (uniqueValues !! field)) in
        let subCombinations :=
          generateCombinations fields uniqueValues (fieldIndex + 1) in
        flat_map
          (fun value =>
             List.map (fun subCombo => value :: subCombo) subCombinations)
          values }.
Proof. lia. Qed.

Definition getNestedKeys (data : list DataItem) (fields : list string) :
  list (list string) :=
  if (length fields =? 0)%nat then [[]]
  else
    let uniqueValues :=
      fold_left
        (fun uniqueValues field =>
           <[field := collectValues data field]> uniqueValues)
        fields (∅ : gmap string (list string)) in
    generateCombinations fields uniqueValues 0.

(** [values.includes(v)] *)
Definition includes (values : list string) (v : string) : bool :=
  existsb (String.eqb v) values.

Definition filterData (data : list DataItem) (filters : list FilterConfig) :
  list DataItem :=
  List.filter
    (fun item =>
       forallb
         (fun filter =>
            if (length (filterValues filter) =? 0)%nat then true
            else includes (filterValues filter)
                   (coerced item (filterField filter)))
         filters)
    data.

(** [keys.every((key, index) => String(item[fields[index]] ?? 'null') === key)] *)
Fixpoint everyKey (item : DataItem) (fields : list string) (index : nat)
  (keys : list string) : bool :=
  match keys with
  | [] => true
  | key :: rest =>
      String.eqb (coerced item (fieldAt fields index)) key
      && everyKey item fields (S index) rest
  end.

Definition getSubsetData (data : list DataItem)
  (rowKeys columnKeys rowFields columnFields : list string) :
  list DataItem :=
  List.filter
    (fun item =>
       let rowMatch := everyKey item rowFields 0 rowKeys in
       let columnMatch := everyKey item columnFields 0 columnKeys in
       rowMatch && columnMatch)
    data.

(** The label of a value field: [`${field} (${aggregation})`]. *)
Definition valueKey (valueConfig : ValueFieldConfig) : string :=
  field valueConfig +:+ " (" +:+ aggregationName (aggregation valueConfig)
  +:+ ")".

(** The aggregated-value object of one record subset: the block the two
    builders repeat for cells, row totals, column totals and the grand
    total. *)
Definition aggregatedValues (config : PivotConfig) (subset : list DataItem) :
  AggregatedValues :=
  if (length (values config) =? 0)%nat then
    <["Count" := NumberValue (JS.ofNat (length subset))]> ∅
  else
    fold_left
      (fun result valueConfig =>
         <[valueKey valueConfig :=
             aggregate subset (field valueConfig) (aggregation valueConfig)]>
           result)
      (values config) ∅.

Definition generatePivotTable (data : list DataItem) (config : PivotConfig) :
  PivotTable :=
  let filteredData := filterData data (filters config) in
  let rowKeys := getNestedKeys filteredData (rows config) in
  let columnKeys := getNestedKeys filteredData (columns config) in
  let '(cells, rowTotals) :=
    fold_left
      (fun '(cells, rowTotals) rowKey =>
         let row :=
           fold_left
             (fun row colKey =>
                let subsetData :=
                  getSubsetData filteredData rowKey colKey
                    (rows config) (columns config) in
                row ++ [{| value := aggregatedValues config subsetData;
                           rowKeys := rowKey;
                           columnKeys := colKey;
                           data := subsetData |}])
             columnKeys [] in
         let rowData :=
           getSubsetData filteredData rowKey [] (rows config) [] in
         (cells ++ [row], rowTotals ++ [aggregatedValues config rowData]))
      rowKeys ([], []) in
  let columnTotals :=
    fold_left
      (fun columnTotals colKey =>
         let colData :=
           getSubsetData filteredData [] colKey [] (columns config) in
         columnTotals ++ [aggregatedValues config colData])
      columnKeys [] in
  {| rowHeaders := rowKeys;
     columnHeaders := columnKeys;
     cells := cells;
     rowTotals := rowTotals;
     columnTotals := columnTotals;
     grandTotal := aggregatedValues config filteredData |}.

End PivotData.

(** ** utils/pivot-data-async.ts *)

Inductive FieldType : Type := RowField | ColumnField.

(** What a rejected computation carries: a plain [Error] or a
    [PivotValidationError] with its three public fields. *)
Inductive Failure : Type :=
| Error (message : string)
| PivotValidationError (message fieldName : string) (fieldType : FieldType)
    (distinctCount : nat).

Inductive Settled (A : Type) : Type :=
| Fulfilled (result : A)
| Rejected (reason : Failure).

Arguments Fulfilled {A} result.
Arguments Rejected {A} reason.

(** An [async] computation. The state is the number of suspensions ([await])
    passed so far: other tasks of the event loop run during a suspension, so
    this is the only thing the computation can observe of them. *)
Definition Async (A : Type) : Type := nat -> Settled (A * nat).

#[export] Instance Async_ret : MRet Async :=
  fun A (a : A) now => Fulfilled (a, now).

#[export] Instance Async_bind : MBind Async :=
  fun A B (f : A -> Async B) (c : Async A) now =>
    match c now with
    | Fulfilled (a, later) => f a later
    | Rejected e => Rejected e
    end.

Definition throw {A} (e : Failure) : Async A := fun _ => Rejected e.

(** [await promise]: the caller is suspended once, then resumes with the
    promise's outcome. *)
Definition await {A} (promise : Async A) : Async A :=
  fun now =>
    match promise now with
    | Fulfilled (a, later) => Fulfilled (a, S later)
    | Rejected e => Rejected e
    end.

(** An [AbortSignal]: whether [aborted] reads [true] after the given number
    of suspensions. *)
Abbreviation AbortSignal := (nat -> bool).

(** [signal?.aborted] *)
Definition aborted (signal : option AbortSignal) (now : nat) : bool :=
  match signal with
  | Some s => s now
  | None => false
  end.

(** [if (signal?.aborted) throw new Error('Aborted')] *)
Definition throwIfAborted (signal : option AbortSignal) : Async unit :=
  fun now =>
    if aborted signal now then Rejected (Error "Aborted")
    else Fulfilled (tt, now).

(** [for (let index = 0; index < count; index++) body], threading the
    arrays the body pushes to. *)
Fixpoint forRange {St} (count index : nat) (body : nat -> St -> Async St)
  (st : St) : Async St :=
  match count with
  | O => mret st
  | S count' => st' ← body index st; forRange count' (S index) body st'
  end.

(** The outcome of a computation started with no suspension behind it. *)
Definition settle {A} (c : Async A) : Settled A :=
  match c 0%nat with
  | Fulfilled (a, _) => Fulfilled a
  | Rejected e => Rejected e
  end.

Section PivotDataAsync.

Context `{Intl}.

Definition quote : string := String (ascii_of_nat 34) EmptyString.

Definition CHUNK_SIZE : nat := 100.

(** [new Promise(resolve => setTimeout(resolve, 0))] *)
Definition yieldControl : Async unit := mret tt.

(** The first loop of [getNestedKeysAsync]: collect each field's values
    and validate the count, [values.size > pivotItemThreshold && fieldType].
    The threshold is taken to be an integer. *)
Fixpoint collectAndValidate (data : list DataItem)
  (fieldType : option FieldType) (pivotItemThreshold : Z)
  (fields : list string) (uniqueValues : gmap string (list string)) :
  Async (gmap string (list string)) :=
  match fields with
  | [] => mret uniqueValues
  | field :: rest =>
      let values := collectValues data field in
      let uniqueValues := <[field := values]> uniqueValues in
      match fieldType with
      | Some axis =>
          if (pivotItemThreshold <? Z.of_nat (length values))%Z then
            throw
              (PivotValidationError
                 ("Field " +:+ quote +:+ field +:+ quote
                  +:+ " has too many unique values ("
                  +:+ toLocaleString (length values) +:+ ")")
                 field axis (length values))
          else
            collectAndValidate data fieldType pivotItemThreshold rest
              uniqueValues
      | None =>
          collectAndValidate data fieldType pivotItemThreshold rest
            uniqueValues
      end
  end.

Definition getNestedKeysAsync (data : list DataItem) (fields : list string)
  (signal : option AbortSignal) (fieldType : option FieldType)
  (pivotItemThreshold : Z) : Async (list (list string)) :=
  if (length fields =? 0)%nat then mret [[]]
  else
    uniqueValues ←
      collectAndValidate data fieldType pivotItemThreshold fields ∅;
    mret (generateCombinations fields uniqueValues 0).

(** [generatePivotTableAsync(data, config, signal?, pivotItemThreshold = 1000)];
    an argument left out is [None]. *)
Definition generatePivotTableAsync (data : list DataItem)
  (config : PivotConfig) (signal : option AbortSignal)
  (pivotItemThreshold : option Z) : Async PivotTable :=
  let pivotItemThreshold := default 1000%Z pivotItemThreshold in
  let filteredData := filterData data (filters config) in
  throwIfAborted signal;;
  rowKeys ←
    await (getNestedKeysAsync filteredData (rows config) signal
             (Some RowField) pivotItemThreshold);
  await yieldControl;;
  columnKeys ←
    await (getNestedKeysAsync filteredData (columns config) signal
             (Some ColumnField) pivotItemThreshold);
  await yieldControl;;
  throwIfAborted signal;;
  '(cells, rowTotals) ←
    forRange (length rowKeys) 0
      (fun rowIndex '(cells, rowTotals) =>
         (if (rowIndex mod CHUNK_SIZE =? 0)%nat
          then await yieldControl;; throwIfAborted signal
          else mret tt);;
         let rowKey := default [] (rowKeys !! rowIndex) in
         let row :=
           fold_left
             (fun row colKey =>
                let subsetData :=
                  getSubsetData filteredData rowKey colKey
                    (rows config) (columns config) in
                row ++ [{| value := aggregatedValues config subsetData;
                           rowKeys := rowKey;
                           columnKeys := colKey;
                           data := subsetData |}])
             columnKeys [] in
         let rowData :=
           getSubsetData filteredData rowKey [] (rows config) [] in
         mret (cells ++ [row], rowTotals ++ [aggregatedValues config rowData]))
      ([], []);
  throwIfAborted signal;;
  columnTotals ←
    forRange (length columnKeys) 0
      (fun colIndex columnTotals =>
         (if (colIndex mod CHUNK_SIZE =? 0)%nat
          then await yieldControl;; throwIfAborted signal
          else mret tt);;
         let colKey := default [] (columnKeys !! colIndex) in
         let colData :=
           getSubsetData filteredData [] colKey [] (columns config) in
         mret (columnTotals ++ [aggregatedValues config colData]))
      [];
  mret {| rowHeaders := rowKeys;
          columnHeaders := columnKeys;
          cells := cells;
          rowTotals := rowTotals;
          columnTotals := columnTotals;
          grandTotal := aggregatedValues config filteredData |}.

End PivotDataAsync.

(** ** A reference host

    The instance of [Intl] used by the examples: a collation that ignores
    the case of ASCII letters and compares runs of digits by value (the root
    locale's order on ASCII letters and digits, with [numeric: true] and
    [sensitivity: 'base']), and [toLocaleString] with groups of three digits
    separated by commas. *)

Module Reference.

Definition foldCase (c : ascii) : nat :=
  let n := nat_of_ascii c in
  if ((65 <=? n) && (n <=? 90))%nat then (n + 32)%nat else n.

Fixpoint collate (fuel : nat) (a b : string) : comparison :=
  match fuel with
  | O => Eq
  | S fuel' =>
      match a, b with
      | EmptyString, EmptyString => Eq
      | EmptyString, String _ _ => Lt
      | String _ _, EmptyString => Gt
      | String x a', String y b' =>
          if JS.isDigit x && JS.isDigit y then
            let '(valueA, _, restA) := JS.scanDigits 0 0 a in
            let '(valueB, _, restB) := JS.scanDigits 0 0 b in
            match N.compare valueA valueB with
            | Eq => collate fuel' restA restB
            | c => c
            end
          else
            match Nat.compare (foldCase x) (foldCase y) with
            | Eq => collate fuel' a' b'
            | c => c
            end
      end
  end.

Definition compareStrings (a b : string) : float :=
  match collate (S (String.length a)) a b with
  | Lt => (-1)%float
  | Eq => 0%float
  | Gt => 1%float
  end.

Fixpoint group (digits : list ascii) : list ascii :=
  match digits with
  | a :: b :: c :: (_ :: _) as rest =>
      a :: b :: c :: ascii_of_nat 44 :: group rest
  | _ => digits
  end.

Definition groupedDigits (n : nat) : string :=
  string_of_list_ascii
    (rev (group (rev (list_ascii_of_string (JS.digitsOf (N.of_nat n)))))).

#[export] Instance host : Intl :=
  {| localeCompare := compareStrings;
     toLocaleString := groupedDigits |}.

End Reference.

(** ** renderers/table-renderer.tsx: the helpers of the table renderer *)

Module TableRenderer.

(** The truthiness of [header[i]]: [undefined] (an index out of range) and
    the empty string are falsy. *)
Definition truthy (key : option string) : bool :=
  match key with
  | Some (String _ _) => true
  | _ => false
  end.

(** [a === b] for two values that are strings or [undefined]. *)
Definition sameKey (a b : option string) : bool :=
  match a, b with
  | Some x, Some y => String.eqb x y
  | None, None => true
  | _, _ => false
  end.

(** The loop of [shouldShowRowHeader] over [i = 0 .. fieldIndex]: some key
    of the previous row is falsy or differs from the row's key. *)
Definition differsFromPrevious (previous : option (list string))
  (current : list string) (fieldIndex : nat) : bool :=
  existsb
    (fun i =>
       match previous with
       | None => true
       | Some previous =>
           negb (truthy (previous !! i))
           || negb (sameKey (current !! i) (previous !! i))
       end)
    (seq 0 (S fieldIndex)).

Definition shouldShowRowHeader (rowHeaders : list (list string))
  (rowIndex fieldIndex : nat) (isLastRow : bool) : bool :=
  if isLastRow then true
  else if (rowIndex =? 0)%nat then true
  else
    match rowHeaders !! rowIndex with
    | None => true
    | Some current =>
        differsFromPrevious (rowHeaders !! (rowIndex - 1)) current fieldIndex
    end.

(** The inner loop of [calculateRowSpan]: every key of the next row up to
    [fieldIndex] is truthy and is the key of the row at [rowIndex]. *)
Definition matchesRow (current next : list string) (fieldIndex : nat) : bool :=
  forallb
    (fun i => truthy (next !! i) && sameKey (next !! i) (current !! i))
    (seq 0 (S fieldIndex)).

(** The outer loop of [calculateRowSpan] over the rows after [rowIndex]: the
    span grows until a row does not match. *)
Fixpoint spanOver (current : list string) (following : list (list string))
  (fieldIndex : nat) (span : nat) : nat :=
  match following with
  | [] => span
  | next :: rest =>
      if matchesRow current next fieldIndex
      then spanOver current rest fieldIndex (S span)
      else span
  end.

Definition calculateRowSpan (rowHeaders : list (list string))
  (rowIndex fieldIndex : nat) (isLastRow : bool) : nat :=
  if isLastRow then 1%nat
  else
    match rowHeaders !! rowIndex with
    | None => 1%nat
    | Some current =>
        spanOver current (drop (S rowIndex) rowHeaders) fieldIndex 1
    end.

(** [val === 0] for an aggregation result. *)
Definition isZero (val : AggregatedValue) : bool :=
  match val with
  | NumberValue x => JS.strictEquals x 0%float
  | _ => false
  end.

(** [Object.values(o).every(val => val === 0)]; the order in which the
    properties are visited does not matter to [every]. *)
Definition everyValueIsZero (o : AggregatedValues) : bool :=
  forallb (fun property => isZero property.2) (map_to_list o).

Definition isRowAllZeros (row : list PivotCell) (rowTotal : AggregatedValues) :
  bool :=
  let allCellsZero := forallb (fun cell => everyValueIsZero (value cell)) row in
  let totalZero := everyValueIsZero rowTotal in
  allCellsZero && totalZero.

Definition isColumnAllZeros (columnIndex : nat) (cells : list (list PivotCell))
  (columnTotal : AggregatedValues) : bool :=
  let allCellsZero :=
    forallb
      (fun row =>
         match row !! columnIndex with
         | None => true
         | Some cell => everyValueIsZero (value cell)
         end)
      cells in
  let totalZero := everyValueIsZero columnTotal in
  allCellsZero && totalZero.

End TableRenderer.

(** ** The components around the engine

    The pure computations of the components that feed the engine and read
    its errors: the bodies of their [useMemo] and [useCallback] hooks, as
    functions of the values the hooks depend on. *)

(** [PivotFieldState] (types/index.ts). *)
Module FieldState.

Record PivotFieldState : Type := {
  availableFields : list string;
  rows : list string;
  columns : list string;
  values : list string
}.

End FieldState.

Section Components.

Context `{Intl}.

(** [a.localeCompare(b, undefined, { numeric: true })] *)
Variable localeCompareNumeric : string -> string -> float.

(** components/available-field-item.tsx, components/draggable-field-item.tsx:
    the values a field's filter menu offers. *)
Definition uniqueValues (data : list DataItem) (field : string) : list string :=
  JS.sort
    (fun a b =>
       let numA := JS.parseFloat a in
       let numB := JS.parseFloat b in
       if negb (JS.isNaN numA) && negb (JS.isNaN numB) then (numA - numB)%float
       else localeCompareNumeric a b)
    (fold_left JS.setAdd (List.map (fun item => coerced item field) data) []).

(** drag-drop-fields.tsx: the distinct count of every available field over
    the records that pass the active filters. [activeFilters] is given by
    its entries ([Object.entries]). *)
Definition fieldDistinctCounts (data : list DataItem)
  (availableFields : list string)
  (activeFilters : list (string * list string)) : gmap string nat :=
  let filteredData :=
    List.filter
      (fun item =>
         forallb
           (fun '(field, values) =>
              if (length values =? 0)%nat then true
              else includes values (coerced item field))
           activeFilters)
      data in
  fold_left
    (fun counts field =>
       let uniqueValues :=
         fold_left
           (fun uniqueValues item => JS.setAdd uniqueValues (coerced item field))
           filteredData [] in
       <[field := length uniqueValues]> counts)
    availableFields ∅.

(** drag-drop-fields.tsx: [(fieldDistinctCounts[field] || 0) >
    pivotItemThreshold], the condition under which a field cannot be
    dragged. *)
Definition isDisabled (counts : gmap string nat) (pivotItemThreshold : Z)
  (field : string) : bool :=
  let distinctCount := default 0%nat (counts !! field) in
  (pivotItemThreshold <? Z.of_nat distinctCount)%Z.

(** index.tsx: the configuration handed to the engine. A value field that
    is the empty string is falsy. *)
Definition pivotConfig (fieldState : FieldState.PivotFieldState)
  (aggregationType : AggregationFunction)
  (activeFilters : list (string * list string)) (valueField : string) :
  PivotConfig :=
  let filters :=
    List.map
      (fun '(field, values) =>
         {| filterField := field; filterValues := values |})
      (List.filter (fun '(_, values) => (0 <? length values)%nat) activeFilters) in
  let values :=
    match aggregationType with
    | Count => []
    | _ =>
        match valueField with
        | EmptyString => []
        | _ => [{| field := valueField; aggregation := aggregationType |}]
        end
    end in
  {| rows := FieldState.rows fieldState;
     columns := FieldState.columns fieldState;
     values := values;
     filters := filters |}.

(** index.tsx: the field named by a [PivotValidationError] is ejected from
    its axis. *)
Definition handleValidationError (fieldState : FieldState.PivotFieldState)
  (fieldName : string) (fieldType : FieldType) : FieldState.PivotFieldState :=
  match fieldType with
  | RowField =>
      {| FieldState.availableFields := FieldState.availableFields fieldState;
         FieldState.rows :=
           List.filter (fun f => negb (String.eqb f fieldName))
             (FieldState.rows fieldState);
         FieldState.columns := FieldState.columns fieldState;
         FieldState.values := FieldState.values fieldState |}
  | ColumnField =>
      {| FieldState.availableFields := FieldState.availableFields fieldState;
         FieldState.rows := FieldState.rows fieldState;
         FieldState.columns :=
           List.filter (fun f => negb (String.eqb f fieldName))
             (FieldState.columns fieldState);
         FieldState.values := FieldState.values fieldState |}
  end.

End Components.

(** ** utils/chart-data.ts

    The chart functions enumerate the properties of [cell.value]
    ([Object.entries], [Object.values]), so here an [AggregatedValues] object
    is the list of its properties in property order, and a table is given by
    the three fields the functions read. *)

(** [parts.join(separator)] *)
Definition join (separator : string) (parts : list string) : string :=
  String.concat separator parts.

Module ChartData.

(** [string | number], the values of a [ChartDataPoint]. *)
Inductive ChartValue : Type :=
| Text (s : string)
| Num (x : float).

Abbreviation ChartDataPoint := (gmap string ChartValue).

Record ChartSeries : Type := {
  key : string;
  name : string;
  color : option string
}.

Record TransformedChartData : Type := {
  data : list ChartDataPoint;
  series : list ChartSeries;
  categoryKey : string
}.

(** The properties of an object, in property order. *)
Abbreviation Properties := (list (string * AggregatedValue)).

Record PivotCell : Type := {
  value : Properties
}.

Record PivotTable : Type := {
  rowHeaders : list (list string);
  columnHeaders : list (list string);
  cells : list (list PivotCell)
}.

(** [rowHeader.length === 1 ? rowHeader[0] : rowHeader.join(' - ')] *)
Definition createCategoryName (rowHeader rowFields : list string) : string :=
  match rowHeader with
  | [only] => only
  | _ => join " - " rowHeader
  end.

Definition createSeriesKey (columnHeader columnFields : list string) : string :=
  match columnHeader with
  | [only] => only
  | _ => join " - " columnHeader
  end.

(** The numbers among the values of an object:
    [Object.values(o).filter(value => typeof value === 'number')]. *)
Definition numbersAmong (aggregatedValues : Properties) : list float :=
  omap
    (fun property =>
       match property.2 with
       | NumberValue x => Some x
       | _ => None
       end)
    aggregatedValues.

Definition getCellDisplayValue (aggregatedValues : Properties)
  (valueFields : list string) : float :=
  let numericValues := numbersAmong aggregatedValues in
  match numericValues with
  | [] => 0%float
  | [only] => only
  | _ => fold_left PrimFloat.add numericValues 0%float
  end.

(** [dataPoint[key] = value] for a value that is a string or a number; a
    [ChartDataPoint] holds the own properties of the object. On an object
    written as a literal the key [__proto__] names the accessor inherited
    from [Object.prototype]: assigning a string or a number to it creates no
    property and changes nothing. *)
Definition assign (dataPoint : ChartDataPoint) (key : string)
  (value : ChartValue) : ChartDataPoint :=
  if String.eqb key "__proto__" then dataPoint
  else <[key := value]> dataPoint.

(** [`var(--chart-${(index % 5) + 1})`] *)
Definition chartColor (index : nat) : string :=
  "var(--chart-" +:+ JS.Number_toString (JS.ofNat (index mod 5 + 1)) +:+ ")".

(** [transformPivotToChartData]; the two loops over the row headers carry
    the points pushed so far and the set of series keys. The [orientation]
    argument is not read. In the simple bar chart the keys assigned are the
    labels [Object.entries] lists for an aggregated-values object, [Count]
    or [field (aggregation)] in the tables of the builders: a label
    [__proto__], which no builder forms, is outside the model there. In the
    chart of columns the keys are made of the column headers, that is of
    the data. *)
Definition transformPivotToChartData (pivotData : PivotTable)
  (rowFields columnFields valueFields : list string) : TransformedChartData :=
  let rowHeaders := rowHeaders pivotData in
  let columnHeaders := columnHeaders pivotData in
  let cells := cells pivotData in
  if (length cells =? 0)%nat
     || (length (default [] (cells !! 0%nat)) =? 0)%nat
  then {| data := []; series := []; categoryKey := "category" |}
  else
    let '(chartData, seriesKeys) :=
      if (length columnHeaders =? 0)%nat
         || (length (default [] (columnHeaders !! 0%nat)) =? 0)%nat
      then
        fold_left
          (fun '(chartData, seriesKeys) '(rowIndex, rowHeader) =>
             let categoryName := createCategoryName rowHeader rowFields in
             let dataPoint : ChartDataPoint :=
               {[ "category" := Text categoryName ]} in
             let cell := row ← cells !! rowIndex; row !! 0%nat in
             let '(dataPoint, seriesKeys) :=
               match cell with
               | Some cell =>
                   fold_left
                     (fun '(dataPoint, seriesKeys) '(valueKey, value) =>
                        let seriesKey := valueKey in
                        (<[seriesKey :=
                             Num match value with
                                 | NumberValue x => x
                                 | _ => 0%float
                                 end]> dataPoint,
                         JS.setAdd seriesKeys seriesKey))
                     (value cell) (dataPoint, seriesKeys)
               | None => (dataPoint, seriesKeys)
               end in
             (chartData ++ [dataPoint], seriesKeys))
          (imap (fun rowIndex rowHeader => (rowIndex, rowHeader)) rowHeaders)
          ([], [])
      else
        fold_left
          (fun '(chartData, seriesKeys) '(rowIndex, rowHeader) =>
             let categoryName := createCategoryName rowHeader rowFields in
             let dataPoint : ChartDataPoint :=
               {[ "category" := Text categoryName ]} in
             let '(dataPoint, seriesKeys) :=
               fold_left
                 (fun '(dataPoint, seriesKeys) '(columnIndex, columnHeader) =>
                    let seriesKey := createSeriesKey columnHeader columnFields in
                    let seriesKeys := JS.setAdd seriesKeys seriesKey in
                    let cell := row ← cells !! rowIndex; row !! columnIndex in
                    match cell with
                    | Some cell =>
                        let cellValue :=
                          getCellDisplayValue (value cell) valueFields in
                        (assign dataPoint seriesKey (Num cellValue), seriesKeys)
                    | None =>
                        (assign dataPoint seriesKey (Num 0%float), seriesKeys)
                    end)
                 (imap (fun columnIndex columnHeader => (columnIndex, columnHeader))
                    columnHeaders)
                 (dataPoint, seriesKeys) in
             (chartData ++ [dataPoint], seriesKeys))
          (imap (fun rowIndex rowHeader => (rowIndex, rowHeader)) rowHeaders)
          ([], []) in
    let series :=
      imap
        (fun index key =>
           {| key := key; name := key; color := Some (chartColor index) |})
        seriesKeys in
    {| data := chartData; series := series; categoryKey := "category" |}.

Definition transformForHorizontalChart (transformedData : TransformedChartData) :
  TransformedChartData :=
  transformedData.

(** The entries of the configuration object of [generateChartConfig]. *)
Record SeriesConfig : Type := {
  label : string;
  configColor : string
}.

(** [seriesItem.color || fallback]: an absent or empty colour is falsy. *)
Definition colorOr (color : option string) (fallback : string) : string :=
  match color with
  | Some (String _ _ as given) => given
  | _ => fallback
  end.

Definition generateChartConfig (series : list ChartSeries) :
  gmap string SeriesConfig :=
  fold_left
    (fun config '(index, seriesItem) =>
       <[key seriesItem :=
           {| label := name seriesItem;
              configColor := colorOr (color seriesItem) (chartColor index) |}]>
         config)
    (imap (fun index seriesItem => (index, seriesItem)) series) ∅.

(** [cells[rowIndex]?.[columnIndex]] *)
Definition cellAt (pivotData : PivotTable) (rowIndex columnIndex : nat) :
  option PivotCell :=
  row ← cells pivotData !! rowIndex; row !! columnIndex.

(** The table has no cell: the condition of the early return. *)
Definition noCells (pivotData : PivotTable) : bool :=
  (length (cells pivotData) =? 0)%nat
  || (length (default [] (cells pivotData !! 0%nat)) =? 0)%nat.

(** The table has no column field: the condition of the simple bar chart. *)
Definition noColumns (pivotData : PivotTable) : bool :=
  (length (columnHeaders pivotData) =? 0)%nat
  || (length (default [] (columnHeaders pivotData !! 0%nat)) =? 0)%nat.

(** The number a chart of columns shows for the cell of a row and a column. *)
Definition displayAt (pivotData : PivotTable) (valueFields : list string)
  (rowIndex columnIndex : nat) : float :=
  match cellAt pivotData rowIndex columnIndex with
  | Some cell => getCellDisplayValue (value cell) valueFields
  | None => 0%float
  end.

(** The number a bar chart shows for a value: [typeof value === 'number' ?
    value : 0]. *)
Definition numberOrZero (value : AggregatedValue) : float :=
  match value with
  | NumberValue x => x
  | _ => 0%float
  end.

(** The five colours of the chart theme. *)
Definition palette : list string :=
  ["var(--chart-1)"; "var(--chart-2)"; "var(--chart-3)"; "var(--chart-4)";
   "var(--chart-5)"].

(** The rows of the table with their indices, as [forEach] visits them. *)
Definition indexedRows (pivotData : PivotTable) : list (nat * list string) :=
  imap (fun rowIndex rowHeader => (rowIndex, rowHeader)) (rowHeaders pivotData).

(** The series keys of the column headers, header by header. *)
Definition columnKeys (pivotData : PivotTable) (columnFields : list string) :
  list string :=
  List.map (fun columnHeader => createSeriesKey columnHeader columnFields)
    (columnHeaders pivotData).

(** The point of a row in a chart of columns. *)
Definition stackedPoint (pivotData : PivotTable)
  (rowFields columnFields valueFields : list string)
  (indexed : nat * list string) : ChartDataPoint :=
  fold_left
    (fun dataPoint (column : nat * list string) =>
       assign dataPoint (createSeriesKey column.2 columnFields)
         (Num (displayAt pivotData valueFields indexed.1 column.1)))
    (imap (fun columnIndex columnHeader => (columnIndex, columnHeader))
       (columnHeaders pivotData))
    {[ "category" := Text (createCategoryName indexed.2 rowFields) ]}.

(** The point of a row in a simple bar chart. *)
Definition barPoint (pivotData : PivotTable) (rowFields : list string)
  (indexed : nat * list string) : ChartDataPoint :=
  fold_left
    (fun dataPoint (property : string * AggregatedValue) =>
       <[property.1 := Num (numberOrZero property.2)]> dataPoint)
    (from_option value [] (cellAt pivotData indexed.1 0))
    {[ "category" := Text (createCategoryName indexed.2 rowFields) ]}.

(** The series of a list of series keys. *)
Definition seriesOf (seriesKeys : list string) : list ChartSeries :=
  imap
    (fun index key =>
       {| key := key; name := key; color := Some (chartColor index) |})
    seriesKeys.

End ChartData.

(** ** utils/dnd-helpers.ts *)

Module DndHelpers.

(** [s.split(separator)] for a separator of one character. *)
Fixpoint split (separator : ascii) (s : string) : list string :=
  match s with
  | EmptyString => [EmptyString]
  | String c rest =>
      if Ascii.eqb c separator then EmptyString :: split separator rest
      else
        match split separator rest with
        | part :: parts => String c part :: parts
        | [] => [String c EmptyString]
        end
  end.

(** [parts.slice(start)] and [parts.slice(start, -1)]. *)
Definition sliceFrom {A} (start : nat) (parts : list A) : list A :=
  drop start parts.

Definition sliceButLast {A} (start : nat) (parts : list A) : list A :=
  take (length parts - 1 - start) (drop start parts).

(** The value of a hexadecimal digit. *)
Definition hexDigitValue (c : ascii) : option N :=
  let n := nat_of_ascii c in
  if ((48 <=? n) && (n <=? 57))%nat then Some (N.of_nat (n - 48))
  else if ((97 <=? n) && (n <=? 102))%nat then Some (N.of_nat (n - 87))
  else if ((65 <=? n) && (n <=? 70))%nat then Some (N.of_nat (n - 55))
  else None.

Fixpoint scanHexDigits (acc : N) (count : nat) (s : string) : N * nat :=
  match s with
  | String c rest =>
      match hexDigitValue c with
      | Some d => scanHexDigits (16 * acc + d) (S count) rest
      | None => (acc, count)
      end
  | EmptyString => (acc, count)
  end.

(** [parseInt(s)] without a radix: leading white space, an optional sign,
    then hexadecimal digits after a [0x] or [0X] prefix, decimal digits
    otherwise; [NaN] when there is no digit. *)
Definition parseInt (s : string) : float :=
  let '(negative, body) := JS.scanSign (JS.trimStart s) in
  let hexadecimal :=
    match body with
    | String "0" (String x rest) =>
        if (Ascii.eqb x "x" || Ascii.eqb x "X")%bool then Some rest else None
    | _ => None
    end in
  match hexadecimal with
  | Some digits =>
      let '(value, count) := scanHexDigits 0 0 digits in
      match count with
      | O => PrimFloat.nan
      | S _ => JS.applySign negative (JS.ofZ (Z.of_N value))
      end
  | None =>
      let '(value, count, _) := JS.scanDigits 0 0 body in
      match count with
      | O => PrimFloat.nan
      | S _ => JS.applySign negative (JS.ofZ (Z.of_N value))
      end
  end.

(** [DraggedField & { index: number }] *)
Record DraggedFieldAt : Type := {
  zone : string;
  field : string;
  index : float
}.

Definition getZoneAndField (id : string) : DraggedFieldAt :=
  let parts := split "-" id in
  if (length parts =? 1)%nat
     && includes ["rows"; "columns"; "values"] (default EmptyString (parts !! 0%nat))
  then
    {| zone := default EmptyString (parts !! 0%nat);
       field := EmptyString;
       index := (-1)%float |}
  else if (2 <=? length parts)%nat then
    let zone := default EmptyString (parts !! 0%nat) in
    let index :=
      parseInt (default EmptyString (parts !! (length parts - 1)%nat)) in
    if negb (JS.isNaN index) then
      {| zone := zone; field := join "-" (sliceButLast 1 parts); index := index |}
    else
      {| zone := zone; field := join "-" (sliceFrom 1 parts); index := 0%float |}
  else
    {| zone := id; field := EmptyString; index := 0%float |}.

(** A text without the character. *)
Fixpoint without (c : ascii) (s : string) : bool :=
  match s with
  | EmptyString => true
  | String x rest => negb (Ascii.eqb x c) && without c rest
  end.

End DndHelpers.

(** ** The specification's vocabulary

    The definitions below follow the words of the specification (distinct
    values, cartesian product, cardinality, ...); the properties relate them
    to the code above. *)

Section Specification.

Context `{Intl}.

(** *** Key derivation *)

(** The distinct members of a list, each at its first occurrence. *)
Fixpoint distinct (l : list string) : list string :=
  match l with
  | [] => []
  | x :: rest => x :: List.filter (fun y => negb (String.eqb y x)) (distinct rest)
  end.

(** The coerced values one field takes over the records. *)
Definition coercedValues (data : list DataItem) (field : string) : list string :=
  List.map (fun item => coerced item field) data.

(** The cardinality of a field: how many distinct coerced values it takes. *)
Definition distinctCount (data : list DataItem) (field : string) : nat :=
  size (list_to_set (coercedValues data field) : gset string).

(** A field's sorted distinct coerced values. *)
Definition sortedValues (data : list DataItem) (field : string) : list string :=
  JS.sort smartSort (distinct (coercedValues data field)).

(** [a] is not placed after [b] by the comparator: the comparison is not
    above zero. *)
Definition notAfter {A} (comparefn : A -> A -> float) (a b : A) : Prop :=
  PrimFloat.ltb 0 (comparefn a b) = false.

(** The comparator orders the members of [l] consistently: when it places
    [a] after [b] it does not place [b] after [a], and it is transitive. *)
Definition consistentOn {A} (comparefn : A -> A -> float) (l : list A) : Prop :=
  (forall a b, In a l -> In b l ->
     ~ notAfter comparefn a b -> notAfter comparefn b a)
  /\ (forall a b c, In a l -> In b l -> In c l ->
        notAfter comparefn a b -> notAfter comparefn b c ->
        notAfter comparefn a c).

(** The cartesian product of the axes, the first axis varying slowest. *)
Fixpoint cartesian (axes : list (list string)) : list (list string) :=
  match axes with
  | [] => [[]]
  | axis :: rest =>
      flat_map (fun v => List.map (fun combo => v :: combo) (cartesian rest)) axis
  end.

(** The key tuple of a record under an ordered list of grouping fields. *)
Definition keyTuple (item : DataItem) (fields : list string) : list string :=
  List.map (coerced item) fields.

(** *** Aggregation *)

(** What one record adds to an integer sum: nothing when its field is
    [null] or [undefined] or when the field's text does not parse as an
    integer, else the integer parsed from that text alone. *)
Definition integerContribution (item : DataItem) (field : string) :
  option float :=
  match get item field with
  | JS.Undefined | JS.Null => None
  | v =>
      let n := JS.parseInt (JS.ToString v) in
      if JS.isNaN n then None else Some n
  end.

(** The field of a record is [null] or [undefined]. *)
Definition missing (item : DataItem) (field : string) : Prop :=
  get item field = JS.Undefined \/ get item field = JS.Null.

(** The numbers a [sum] or an [integerSum] adds up over a record subset. *)
Definition summands (fn : AggregationFunction) (subset : list DataItem)
  (field : string) : list float :=
  numericValues
    (match fn with IntegerSum => JS.parseInt | _ => JS.parseFloat end)
    (List.filter (fun v => negb (JS.isUndefined v) && negb (JS.isNull v))
       (List.map (fun item => get item field) subset)).

(** The characters of a label read backwards, up to the first opening
    parenthesis: the closing parenthesis and the aggregation's name. *)
Fixpoint untilParenthesis (l : list ascii) : list ascii :=
  match l with
  | [] => []
  | c :: rest => if Ascii.eqb c "(" then [] else c :: untilParenthesis rest
  end.

(** The aggregated values of an empty subset: [{ Count: 0 }] when no value
    field is configured, else [0] under every configured label. *)
Definition emptyDefaults (config : PivotConfig) : AggregatedValues :=
  match values config with
  | [] => {[ "Count" := NumberValue 0%float ]}
  | _ :: _ =>
      gset_to_gmap (NumberValue 0%float)
        (list_to_set (List.map valueKey (values config)))
  end.

(** *** The table *)

(** The cell of one row key and one column key. *)
Definition cellFor (config : PivotConfig) (filteredData : list DataItem)
  (rowKey colKey : list string) : PivotCell :=
  let subsetData :=
    getSubsetData filteredData rowKey colKey (rows config) (columns config) in
  {| value := aggregatedValues config subsetData;
     rowKeys := rowKey;
     columnKeys := colKey;
     data := subsetData |}.

(** The records of one row, whatever their column. *)
Definition rowData (config : PivotConfig) (filteredData : list DataItem)
  (rowKey : list string) : list DataItem :=
  getSubsetData filteredData rowKey [] (rows config) [].

(** The records of one column, whatever their row. *)
Definition columnData (config : PivotConfig) (filteredData : list DataItem)
  (colKey : list string) : list DataItem :=
  getSubsetData filteredData [] colKey [] (columns config).

(** A record is an element of [cells[r][c].data]. *)
Definition inCell (table : PivotTable) (r c : nat) (item : DataItem) : Prop :=
  exists row cell,
    cells table !! r = Some row /\ row !! c = Some cell /\ In item (data cell).

(** The empty-input boundary as the specification words it. *)
Definition EmptyInputBoundary (config : PivotConfig) : Prop :=
  let table := generatePivotTable [] config in
  rowHeaders table = match rows config with [] => [[]] | _ :: _ => [] end
  /\ columnHeaders table
     = match columns config with [] => [[]] | _ :: _ => [] end
  /\ cells table = []
  /\ grandTotal table = emptyDefaults config.

(** *** Row totals against the cells of the row *)

(** The number under a label of an aggregated-value object. *)
Definition numberUnder (aggregated : AggregatedValues) (key : string) : float :=
  match aggregated !! key with
  | Some (NumberValue x) => x
  | _ => PrimFloat.nan
  end.

(** The sum over all columns [c] of [cells[r][c].value[key]], added from
    left to right. *)
Definition sumAcross (row : list PivotCell) (key : string) : float :=
  total (List.map (fun cell => numberUnder (value cell) key) row).

(** The aggregations whose row total the specification derives from the
    cells. *)
Definition additive (fn : AggregationFunction) : bool :=
  match fn with
  | Sum | Count | IntegerSum => true
  | _ => false
  end.

(** Row-total consistency as the specification words it. *)
Definition RowTotalConsistency (records : list DataItem) (config : PivotConfig) :
  Prop :=
  Forall (fun valueConfig => additive (aggregation valueConfig) = true)
    (values config) ->
  let table := generatePivotTable records config in
  forall r row totals valueConfig,
    cells table !! r = Some row ->
    rowTotals table !! r = Some totals ->
    In valueConfig (values config) ->
    JS.strictEquals (numberUnder totals (valueKey valueConfig))
      (sumAcross row (valueKey valueConfig))
    = true.

(** The rational number a finite float stands for. *)
Definition rational (x : float) : option Q :=
  match Prim2SF x with
  | S754_zero _ => Some 0%Q
  | S754_finite negative m e =>
      Some (inject_Z (if negative then Zneg m else Zpos m) * Qpower 2 e)%Q
  | S754_infinity _ | S754_nan => None
  end.

(** The float addition [a + b] does not round. *)
Definition exactAdd (a b : float) : bool :=
  match rational a, rational b, rational (a + b)%float with
  | Some p, Some q, Some s => Qeq_bool (p + q) s
  | _, _, _ => false
  end.

(** No addition of the left-to-right sum of [nums] from [acc] rounds. *)
Fixpoint exactFrom (acc : float) (nums : list float) : bool :=
  match nums with
  | [] => true
  | x :: rest => exactAdd acc x && exactFrom (acc + x)%float rest
  end.

Definition exactTotal (nums : list float) : bool := exactFrom 0%float nums.

(** The exact sum of the numbers of a list. *)
Definition rationalSum (nums : list float) : Q :=
  fold_right (fun x acc => (default 0 (rational x) + acc)%Q) 0%Q nums.

(** *** Cancellation and cardinality *)

(** Cancellation is never requested. *)
Definition neverAborted (signal : option AbortSignal) : Prop :=
  forall now, aborted signal now = false.

(** A field takes strictly more distinct values than the limit. *)
Definition exceedsLimit (data : list DataItem) (limit : Z) (field : string) :
  bool :=
  (limit <? Z.of_nat (distinctCount data field))%Z.

(** The cardinality-exceeded condition for a field, its axis and its
    observed distinct count. *)
Definition tooManyValues (field : string) (axis : FieldType) (count : nat) :
  Failure :=
  PivotValidationError
    ("Field " +:+ quote +:+ field +:+ quote
     +:+ " has too many unique values (" +:+ toLocaleString count +:+ ")")
    field axis count.

(** The cancelled condition. *)
Definition cancelled : Failure := Error "Aborted".

Definition cardinalityExceeded {A} (outcome : Settled A) : Prop :=
  match outcome with
  | Rejected (PivotValidationError _ _ _ _) => True
  | _ => False
  end.

(** A computation that, started at any time, fulfils with a given value. *)
Definition fulfils {A} (c : Async A) (a : A) : Prop :=
  forall now, exists later, c now = Fulfilled (a, later).

(** A computation that never rejects with a cardinality violation. *)
Definition unexceptional {A} (c : Async A) : Prop :=
  forall now, ~ cardinalityExceeded (c now).

End Specification.

(** ** More vocabulary

    Further notions in which the properties of the engine and of the
    code around it are stated. *)

(** The configuration with the two axes exchanged. *)
Definition transposed (config : PivotConfig) : PivotConfig :=
  {| rows := columns config;
     columns := rows config;
     values := values config;
     filters := filters config |}.

(** The configuration without its filters. *)
Definition unfiltered (config : PivotConfig) : PivotConfig :=
  {| rows := rows config;
     columns := columns config;
     values := values config;
     filters := [] |}.

(** A cell read with its two key lists exchanged. *)
Definition transposedCell (cell : PivotCell) : PivotCell :=
  {| value := value cell;
     rowKeys := columnKeys cell;
     columnKeys := rowKeys cell;
     data := data cell |}.

(** [cells[r][c]] *)
Definition cellAt (table : PivotTable) (r c : nat) : option PivotCell :=
  row ← cells table !! r; row !! c.

(** The records of column [c], row after row. *)
Definition columnRecords (table : PivotTable) (c : nat) : list DataItem :=
  flat_map (fun row => from_option data [] (row !! c)) (cells table).

(** The records of every cell, row after row. *)
Definition tableRecords (table : PivotTable) : list DataItem :=
  flat_map (fun row => flat_map data row) (cells table).

(** The number of chunks of [CHUNK_SIZE] indices that [count] indices start. *)
Definition chunkCount (count : nat) : nat :=
  ((count + (CHUNK_SIZE - 1)) / CHUNK_SIZE)%nat.

(** The indices of [index, index + count) at which a chunk starts. *)
Definition chunkStarts (index count : nat) : nat :=
  length (List.filter (fun i => (i mod CHUNK_SIZE =? 0)%nat) (seq index count)).

(** The number of suspensions of a computation that fulfils. *)
Definition suspensions {A} (c : Async A) : option nat :=
  match c 0%nat with
  | Fulfilled (_, later) => Some later
  | Rejected _ => None
  end.


(** The values of a field that are neither [null] nor [undefined], in the order of the records. *)
Definition presentValues (records : list DataItem) (field : string) :
  list JS.Value :=
  List.filter (fun v => negb (JS.isUndefined v) && negb (JS.isNull v))
    (List.map (fun item => get item field) records).

(** The numbers of a field: the present values whose text parses as a
    float. *)
Definition numbersOf (records : list DataItem) (field : string) : list float :=
  numericValues JS.parseFloat (presentValues records field).

(** The aggregations computed from the numbers of a field alone. *)
Definition statistical (fn : AggregationFunction) : bool :=
  match fn with
  | Sum | Average | Median | SampleVariance | SampleStandardDeviation
  | Minimum | Maximum => true
  | _ => false
  end.

(** The first occurrences among values that come after the values
    [earlier]: the values at the positions before which no value, of
    [earlier] or of the list itself, is the same under SameValueZero. *)
Definition firstOccurrencesAfter (earlier values : list JS.Value) :
  list JS.Value :=
  concat
    (imap
       (fun position v =>
          if existsb (JS.sameValueZero v) (earlier ++ take position values)
          then []
          else [v])
       values).

(** The first occurrences in a list of values, in the order of the list. *)
Definition firstOccurrences (values : list JS.Value) : list JS.Value :=
  firstOccurrencesAfter [] values.

(** A number of arguments that a call may spread: [Math.min(...nums)] passes
    every number as an argument, and the engines in use accept this many
    before they throw a [RangeError]. *)
Definition spreadLimit : Z := 65535.

(** The labels of the aggregated values the builders produce, in the order
    in which the builders assign them. *)
Definition labels (config : PivotConfig) : list string :=
  match values config with
  | [] => ["Count"]
  | _ :: _ => distinct (List.map valueKey (values config))
  end.

(** The properties of an aggregated-values object of the builders, in
    property order. *)
Definition propertiesOf (config : PivotConfig) (o : AggregatedValues) :
  ChartData.Properties :=
  omap (fun label => pair label <$> o !! label) (labels config).

(** A table of the builders as the chart functions read it. *)
Definition chartInput (config : PivotConfig) (table : PivotTable) :
  ChartData.PivotTable :=
  {| ChartData.rowHeaders := rowHeaders table;
     ChartData.columnHeaders := columnHeaders table;
     ChartData.cells :=
       List.map
         (List.map
            (fun cell =>
               {| ChartData.value := propertiesOf config (value cell) |}))
         (cells table) |}.

(** The value a cell shows when at most one value field is configured. *)
Definition shownValue (config : PivotConfig) (subset : list DataItem) :
  AggregatedValue :=
  match values config with
  | [] => NumberValue (JS.ofNat (length subset))
  | valueConfig :: _ =>
      aggregate subset (field valueConfig) (aggregation valueConfig)
  end.

(** ** Fixtures

    The records of the test suite ([tests/unit/pivot-data-async.test.ts]) and
    a few configurations over them. *)

Module Fixture.

Definition item (region product : string) (sales quantity : float) : DataItem :=
  list_to_map
    [("region", JS.Str region);
     ("product", JS.Str product);
     ("sales", JS.Number sales);
     ("quantity", JS.Number quantity);
     ("category", JS.Str "Electronics")].

Definition sampleData : list DataItem :=
  [item "North" "A" 100 10;
   item "North" "B" 150 15;
   item "South" "A" 200 20;
   item "South" "B" 120 12;
   item "East" "A" 90 9;
   item "West" "C" 160 16].

(** rows = [region], columns = [product], values = [sales (sum)]. *)
Definition salesByRegionAndProduct : PivotConfig :=
  {| rows := ["region"];
     columns := ["product"];
     values := [{| field := "sales"; aggregation := Sum |}];
     filters := [] |}.

(** Three amounts whose sum depends on the order of the additions. *)
Definition ledger : list DataItem :=
  [ list_to_map [("account", JS.Str "A"); ("amount", JS.Number 1e16)];
    list_to_map [("account", JS.Str "B"); ("amount", JS.Number 1)];
    list_to_map [("account", JS.Str "A"); ("amount", JS.Number (-1e16))] ].

(** columns = [account], values = [amount (sum), amount (integerSum)]. *)
Definition amountByAccount : PivotConfig :=
  {| rows := [];
     columns := ["account"];
     values := [{| field := "amount"; aggregation := Sum |};
                {| field := "amount"; aggregation := IntegerSum |}];
     filters := [] |}.

(** A token that is cancelled from the start. *)
Definition cancelledSignal : option AbortSignal := Some (fun _ => true).

(** rows = [region], columns = [product], no value field: the table counts
    records. *)
Definition countByRegionAndProduct : PivotConfig :=
  {| rows := ["region"];
     columns := ["product"];
     values := [];
     filters := [] |}.


(** The field state of a grid with [region] on the rows and [product] on
    the columns. *)
Definition regionByProduct : FieldState.PivotFieldState :=
  {| FieldState.availableFields :=
       ["category"; "product"; "quantity"; "region"; "sales"];
     FieldState.rows := ["region"];
     FieldState.columns := ["product"];
     FieldState.values := [] |}.

(** Row headers over two fields, the first one repeated. *)
Definition nestedHeaders : list (list string) :=
  [["North"; "A"]; ["North"; "B"]; ["South"; "A"]].

(** A table of two rows and two columns as the chart functions read it. *)
Definition chartTable : ChartData.PivotTable :=
  {| ChartData.rowHeaders := [["North"]; ["South"]];
     ChartData.columnHeaders := [["A"]; ["B"]];
     ChartData.cells :=
       [[ {| ChartData.value := [("sales (sum)", NumberValue 100)] |};
          {| ChartData.value := [("sales (sum)", NumberValue 150)] |} ];
        [ {| ChartData.value := [("sales (sum)", NumberValue 200)] |};
          {| ChartData.value := [("sales (sum)", NumberValue 120)] |} ]] |}.

(** The same rows without column fields. *)
Definition barTable : ChartData.PivotTable :=
  {| ChartData.rowHeaders := [["North"]; ["South"]];
     ChartData.columnHeaders := [[]];
     ChartData.cells :=
       [[ {| ChartData.value :=
               [("sales (sum)", NumberValue 250);
                ("product (first)", StringValue "A")] |} ];
        [ {| ChartData.value :=
               [("sales (sum)", NumberValue 320);
                ("product (first)", StringValue "A")] |} ]] |}.

End Fixture.

(** * Properties *)

(** ** Lists, sets and sorting *)

Lemma sortInsert_Permutation {A} (comparefn : A -> A -> float) x l :
  Permutation (JS.sortInsert comparefn x l) (x :: l).
Proof.
  induction l as [|y l IH]; simpl; [reflexivity|].
  destruct (PrimFloat.ltb _ _); [|reflexivity].
  rewrite IH. apply perm_swap.
Qed.

Lemma sort_Permutation {A} (comparefn : A -> A -> float) l :
  Permutation (JS.sort comparefn l) l.
Proof.
  induction l as [|x l IH]; simpl; [reflexivity|].
  rewrite sortInsert_Permutation. now constructor.
Qed.

Lemma sort_In {A} (comparefn : A -> A -> float) l x :
  In x (JS.sort comparefn l) <-> In x l.
Proof.
  split; apply Permutation_in; [|symmetry]; apply sort_Permutation.
Qed.

Lemma sort_NoDup {A} (comparefn : A -> A -> float) (l : list A) :
  List.NoDup l -> List.NoDup (JS.sort comparefn l).
Proof.
  intros Hl. eapply Permutation_NoDup; [|exact Hl].
  symmetry. apply sort_Permutation.
Qed.

Lemma sortInsert_In {A} (comparefn : A -> A -> float) x l y :
  In y (JS.sortInsert comparefn x l) <-> y = x \/ In y l.
Proof.
  split.
  - intros Hy. apply (Permutation_in _ (sortInsert_Permutation comparefn x l)) in Hy.
    destruct Hy; auto.
  - intros Hy. apply (Permutation_in _ (Permutation_sym (sortInsert_Permutation comparefn x l))).
    destruct Hy; [left|right]; auto.
Qed.

Lemma sortInsert_StronglySorted {A} (comparefn : A -> A -> float) members x l :
  consistentOn comparefn members -> In x members -> incl l members ->
  StronglySorted (notAfter comparefn) l ->
  StronglySorted (notAfter comparefn) (JS.sortInsert comparefn x l).
Proof.
  intros [Hswap Htrans] Hx Hincl Hsorted.
  induction Hsorted as [|y l Hl IH Hy]; simpl.
  - repeat constructor.
  - assert (Hy' : In y members) by (apply Hincl; now left).
    assert (Hl' : incl l members) by (intros z Hz; apply Hincl; now right).
    destruct (PrimFloat.ltb 0 (comparefn x y)) eqn:E.
    + constructor; [now apply IH|].
      apply List.Forall_forall. intros z Hz. apply sortInsert_In in Hz as [->|Hz].
      * apply Hswap; auto. unfold notAfter. congruence.
      * now apply (proj1 (List.Forall_forall _ _) Hy).
    + constructor; [now constructor|]. constructor; [exact E|].
      apply List.Forall_forall. intros z Hz.
      apply (Htrans x y z); auto.
      now apply (proj1 (List.Forall_forall _ _) Hy).
Qed.

Lemma sort_StronglySorted {A} (comparefn : A -> A -> float) (l : list A) :
  consistentOn comparefn l ->
  StronglySorted (notAfter comparefn) (JS.sort comparefn l).
Proof.
  intros Hcons.
  assert (Hincl : incl l l) by apply incl_refl.
  revert Hincl. generalize l at 1 3 as part.
  induction part as [|x part IH]; intros Hincl; simpl; [constructor|].
  apply (sortInsert_StronglySorted comparefn l); [assumption|apply Hincl; now left| |].
  - intros z Hz. apply sort_In in Hz. apply Hincl. now right.
  - apply IH. intros z Hz. apply Hincl. now right.
Qed.

Lemma setHas_In values v : JS.setHas values v = true <-> In v values.
Proof.
  unfold JS.setHas. rewrite existsb_exists. split.
  - intros (x & Hx & Heq). apply String.eqb_eq in Heq. now subst.
  - intros Hv. exists v. split; [assumption|apply String.eqb_refl].
Qed.

Lemma setHas_false values v : JS.setHas values v = false <-> ~ In v values.
Proof.
  rewrite <- setHas_In. destruct (JS.setHas values v); split; congruence.
Qed.

Lemma filter_ext_In {A} (f g : A -> bool) (l : list A) :
  (forall x, In x l -> f x = g x) -> List.filter f l = List.filter g l.
Proof.
  induction l as [|x l IH]; intros Hfg; simpl; [reflexivity|].
  rewrite (Hfg x) by now left.
  rewrite IH; [reflexivity|]. intros y Hy. apply Hfg. now right.
Qed.

Lemma filter_filter {A} (f g : A -> bool) (l : list A) :
  List.filter f (List.filter g l) = List.filter (fun x => g x && f x) l.
Proof.
  induction l as [|x l IH]; simpl; [reflexivity|].
  destruct (g x); simpl; [destruct (f x)|]; now rewrite IH.
Qed.

Lemma NoDup_filter {A} (f : A -> bool) (l : list A) :
  List.NoDup l -> List.NoDup (List.filter f l).
Proof.
  induction 1 as [|x l Hx Hl IH]; simpl; [constructor|].
  destruct (f x); [|assumption].
  constructor; [|assumption]. rewrite filter_In. tauto.
Qed.

Lemma Permutation_filter {A} (f : A -> bool) (l l' : list A) :
  Permutation l l' -> Permutation (List.filter f l) (List.filter f l').
Proof.
  induction 1 as [|x l l' Hp IH|x y l|l l' l'' H1 IH1 H2 IH2]; simpl.
  - constructor.
  - destruct (f x); [now constructor|assumption].
  - destruct (f x), (f y); try reflexivity. apply perm_swap.
  - now transitivity (List.filter f l').
Qed.

Lemma distinct_In l x : In x (distinct l) <-> In x l.
Proof.
  induction l as [|y l IH]; simpl; [reflexivity|].
  rewrite filter_In, IH. split.
  - intros [Heq|[Hin _]]; auto.
  - intros [Heq|Hin]; [now left|].
    destruct (String.eqb x y) eqn:E.
    + apply String.eqb_eq in E. now left.
    + right. now split.
Qed.

Lemma distinct_NoDup l : List.NoDup (distinct l).
Proof.
  induction l as [|x l IH]; simpl; constructor.
  - rewrite filter_In, String.eqb_refl. intros [_ Hx]. discriminate.
  - now apply NoDup_filter.
Qed.

Lemma fold_setAdd l : forall acc,
  fold_left JS.setAdd l acc
  = acc ++ List.filter (fun y => negb (JS.setHas acc y)) (distinct l).
Proof.
  induction l as [|x l IH]; intros acc; simpl.
  - now rewrite app_nil_r.
  - rewrite IH. unfold JS.setAdd. destruct (JS.setHas acc x) eqn:Hx; simpl.
    + f_equal. rewrite filter_filter. apply filter_ext_In. intros y _.
      destruct (String.eqb y x) eqn:E; simpl; [|reflexivity].
      apply String.eqb_eq in E. subst. now rewrite Hx.
    + rewrite <- app_assoc. simpl. do 2 f_equal.
      rewrite filter_filter. apply filter_ext_In. intros y _.
      unfold JS.setHas. rewrite existsb_app. simpl.
      rewrite orb_false_r, negb_orb. apply andb_comm.
Qed.

Lemma fold_left_over_map {A B C} (f : A -> B -> A) (g : C -> B) (l : list C) :
  forall a, fold_left f (List.map g l) a = fold_left (fun a x => f a (g x)) l a.
Proof. induction l as [|x l IH]; intros a; simpl; [reflexivity|apply IH]. Qed.

Lemma flat_map_ext_in {A B} (f g : A -> list B) (l : list A) :
  (forall x, In x l -> f x = g x) -> flat_map f l = flat_map g l.
Proof.
  induction l as [|x l IH]; intros Hfg; simpl; [reflexivity|].
  rewrite (Hfg x) by now left. f_equal. apply IH. intros y Hy. apply Hfg. now right.
Qed.

Lemma map_lookup {A B} (f : A -> B) (l : list A) (i : nat) :
  List.map f l !! i = option_map f (l !! i).
Proof. exact (list_lookup_fmap f l i). Qed.

Lemma In_lookup {A} (l : list A) (x : A) :
  In x l <-> exists i, l !! i = Some x.
Proof. rewrite <- list_elem_of_In. apply list_elem_of_lookup. Qed.

Lemma NoDup_lookup_unique {A} (l : list A) (i j : nat) (x : A) :
  List.NoDup l -> l !! i = Some x -> l !! j = Some x -> i = j.
Proof. intros Hl. apply NoDup_lookup. now apply NoDup_ListNoDup. Qed.

Lemma Forall2_map_right {A B C} (P : A -> C -> Prop) (f : B -> C) l : forall k,
  Forall2 P l (List.map f k) <-> Forall2 (fun x y => P x (f y)) l k.
Proof.
  induction l as [|x l IH]; intros [|y k]; simpl; split; intros Hf;
    inversion Hf; subst; constructor; try assumption; now apply IH.
Qed.

Lemma fold_push {A B} (f : A -> B) (l : list A) : forall acc,
  fold_left (fun acc x => acc ++ [f x]) l acc = acc ++ List.map f l.
Proof.
  induction l as [|x l IH]; intros acc; simpl.
  - now rewrite app_nil_r.
  - now rewrite IH, <- app_assoc.
Qed.

Lemma fold_push2 {A B C} (f : A -> B) (g : A -> C) (l : list A) :
  forall acc1 acc2,
    fold_left (fun '(acc1, acc2) x => (acc1 ++ [f x], acc2 ++ [g x])) l
      (acc1, acc2)
    = (acc1 ++ List.map f l, acc2 ++ List.map g l).
Proof.
  induction l as [|x l IH]; intros acc1 acc2; simpl.
  - now rewrite !app_nil_r.
  - now rewrite IH, <- !app_assoc.
Qed.

Lemma fold_push_pair {A B C} (f : A -> B) (g : A -> C) (l : list A) :
  forall acc1 acc2,
    fold_left
      (fun st x => let '(acc1, acc2) := st in (acc1 ++ [f x], acc2 ++ [g x]))
      l (acc1, acc2)
    = (acc1 ++ List.map f l, acc2 ++ List.map g l).
Proof.
  induction l as [|x l IH]; intros acc1 acc2; simpl.
  - now rewrite !app_nil_r.
  - now rewrite IH, <- !app_assoc.
Qed.

(** A loop over the indices of an array that reads the element at each
    index is a loop over its elements. *)
Lemma fold_seq_lookup {A St} (d : A) (g : A -> St -> St) (l : list A) :
  forall (prefix : list A) st,
    fold_left (fun st index => g (default d ((prefix ++ l) !! index)) st)
      (seq (length prefix) (length l)) st
    = fold_left (fun st x => g x st) l st.
Proof.
  induction l as [|x l IH]; intros prefix st; simpl; [reflexivity|].
  rewrite list_lookup_middle by reflexivity. simpl.
  specialize (IH (prefix ++ [x]) (g x st)).
  rewrite <- app_assoc, length_app in IH. simpl in IH.
  rewrite Nat.add_1_r in IH. exact IH.
Qed.

(** Buckets selected by distinct keys, each record matching exactly its own
    key, split the selected records. *)
Lemma buckets_Permutation {A K} (matches : K -> A -> bool) (selected : A -> bool)
  (key : A -> K) (keys : list K) (l : list A) :
  List.NoDup keys ->
  (forall x, In x l -> selected x = true -> In (key x) keys) ->
  (forall k x, In k keys -> In x l -> matches k x = true <-> k = key x) ->
  Permutation
    (flat_map (fun k => List.filter (fun x => selected x && matches k x) l) keys)
    (List.filter selected l).
Proof.
  intros Hkeys. induction l as [|x l IH]; intros Hin Hmatch.
  - simpl. clear. induction keys; simpl; [constructor|assumption].
  - assert (IH' : Permutation
              (flat_map
                 (fun k => List.filter (fun x => selected x && matches k x) l) keys)
              (List.filter selected l)).
    { apply IH; intros; [apply Hin|apply Hmatch]; simpl; auto. }
    clear IH. simpl. destruct (selected x) eqn:Hsel; simpl.
    + rewrite <- IH'. clear IH'.
      assert (Hkey : In (key x) keys) by (apply Hin; simpl; auto).
      assert (Hx : forall k, In k keys -> matches k x = true <-> k = key x).
      { intros k Hk. apply Hmatch; simpl; auto. }
      clear Hin Hmatch. revert Hkey Hx.
      induction Hkeys as [|k keys Hk Hkeys IHk]; intros Hkey Hx; [destruct Hkey|].
      simpl. destruct (matches k x) eqn:Hm.
      * apply (Hx k) in Hm; [|now left]. subst k. simpl. constructor.
        apply Permutation_app_head.
        erewrite flat_map_ext_in; [reflexivity|]. intros k' Hk'. simpl.
        destruct (matches k' x) eqn:Hm'; [|reflexivity].
        apply (Hx k') in Hm'; [|now right]. congruence.
      * rewrite IHk.
        -- symmetry. apply Permutation_middle.
        -- destruct Hkey as [->|Hkey]; [|assumption].
           assert (matches (key x) x = true) by (apply Hx; [now left|reflexivity]).
           congruence.
        -- intros k' Hk'. apply Hx. now right.
    + rewrite <- IH'. erewrite flat_map_ext_in; [reflexivity|]. intros; reflexivity.
Qed.

(** ** Objects filled by a loop of assignments *)

Lemma fold_insert_lookup_other {V} (g : string -> V) fields :
  forall (m : gmap string V) field,
    ~ In field fields ->
    fold_left (fun m f => <[f := g f]> m) fields m !! field = m !! field.
Proof.
  induction fields as [|f fields IH]; intros m field Hnot; simpl.
  - reflexivity.
  - rewrite IH by (simpl in Hnot; tauto).
    apply lookup_insert_ne. simpl in Hnot. tauto.
Qed.

Lemma fold_insert_lookup {V} (g : string -> V) fields :
  forall (m : gmap string V) field,
    In field fields ->
    fold_left (fun m f => <[f := g f]> m) fields m !! field = Some (g field).
Proof.
  induction fields as [|f fields IH]; intros m field Hin; simpl.
  - destruct Hin.
  - destruct (in_dec string_dec field fields) as [Hrest|Hrest].
    + now apply IH.
    + destruct Hin as [->|Hin]; [|contradiction].
      rewrite fold_insert_lookup_other by assumption.
      apply lookup_insert_eq.
Qed.

Lemma fold_insert_keyed_other {A V} (key : A -> string) (g : A -> V) l :
  forall (m : gmap string V) k,
    ~ In k (List.map key l) ->
    fold_left (fun m x => <[key x := g x]> m) l m !! k = m !! k.
Proof.
  induction l as [|x l IH]; intros m k Hnot; simpl; [reflexivity|].
  simpl in Hnot. rewrite IH by tauto. apply lookup_insert_ne. tauto.
Qed.

Lemma fold_insert_keyed {A V} (key : A -> string) (g : A -> V) l :
  (forall x y, key x = key y -> x = y) ->
  forall (m : gmap string V) x,
    In x l ->
    fold_left (fun m x => <[key x := g x]> m) l m !! key x = Some (g x).
Proof.
  intros Hinj. induction l as [|y l IH]; intros m x Hin; simpl; [destruct Hin|].
  destruct (in_dec string_dec (key x) (List.map key l)) as [Hrest|Hrest].
  - apply IH. apply in_map_iff in Hrest as (z & Hz & Hin').
    now rewrite <- (Hinj _ _ Hz).
  - rewrite fold_insert_keyed_other by assumption.
    destruct Hin as [->|Hin]; [apply lookup_insert_eq|].
    exfalso. apply Hrest. now apply in_map.
Qed.

Lemma fold_insert_const {V} (key : ValueFieldConfig -> string) (v : V) l :
  forall (m : gmap string V) k,
    fold_left (fun result valueConfig => <[key valueConfig := v]> result) l m !! k
    = if bool_decide (k ∈ List.map key l) then Some v else m !! k.
Proof.
  induction l as [|x l IH]; intros m k; simpl.
  - reflexivity.
  - rewrite IH. destruct (bool_decide (k ∈ List.map key l)) eqn:E.
    + apply bool_decide_eq_true in E.
      rewrite bool_decide_eq_true_2; [reflexivity|]. now apply list_elem_of_further.
    + apply bool_decide_eq_false in E.
      destruct (decide (key x = k)) as [<-|Hne].
      * rewrite lookup_insert_eq, bool_decide_eq_true_2; [reflexivity|].
        apply list_elem_of_here.
      * rewrite lookup_insert_ne by assumption.
        rewrite bool_decide_eq_false_2; [reflexivity|].
        intros Hin. apply elem_of_cons in Hin as [Heq|Hin]; congruence.
Qed.

(** ** Floats that stand for the same number *)

Lemma digits2_log2 m : Zpos (digits2_pos m) = Z.succ (Z.log2 (Zpos m)).
Proof.
  assert (Hsize : forall p, digits2_pos p = Pos.size p)
    by (induction p; simpl; congruence).
  rewrite Hsize. destruct m; simpl; lia.
Qed.

(** A scaled integer [z * 2 ^ e] as a rational. *)
Lemma scaled_eq (z1 z2 e1 e2 : Z) :
  (e1 <= e2)%Z ->
  Qeq (inject_Z z1 * Qpower 2 e1) (inject_Z z2 * Qpower 2 e2) ->
  z1 = (z2 * 2 ^ (e2 - e1))%Z.
Proof.
  intros Hle Heq.
  assert (H2 : ~ Qeq 2 0) by discriminate.
  replace e2 with (e1 + (e2 - e1))%Z in Heq by lia.
  rewrite (Qpower_plus 2 e1 (e2 - e1) H2) in Heq.
  rewrite <- (Zpower_Qpower 2 (e2 - e1)) in Heq by lia.
  assert (Heq' : Qeq (inject_Z z1 * 2 ^ e1) (inject_Z (z2 * 2 ^ (e2 - e1)) * 2 ^ e1)).
  { rewrite Heq, inject_Z_mult. ring. }
  apply Qmult_inj_r in Heq'; [|now apply Qpower_not_0].
  now apply inject_Z_injective.
Qed.

Lemma canonical_unique (m1 m2 : positive) (e1 e2 : Z) :
  canonical_mantissa prec emax m1 e1 = true ->
  canonical_mantissa prec emax m2 e2 = true ->
  (e1 <= e2)%Z ->
  Zpos m1 = (Zpos m2 * 2 ^ (e2 - e1))%Z ->
  e1 = e2 /\ m1 = m2.
Proof.
  unfold canonical_mantissa. rewrite !digits2_log2.
  intros H1 H2 Hle Heq. apply Z.eqb_eq in H1, H2.
  rewrite Heq, Z.log2_mul_pow2 in H1 by lia.
  assert (e1 = e2).
  { unfold fexp in *. lia. }
  subst e2. split; [reflexivity|].
  rewrite Z.sub_diag in Heq. simpl in Heq. lia.
Qed.

Lemma scaled_zero (z e : Z) : Qeq (inject_Z z * Qpower 2 e) 0 -> z = 0%Z.
Proof.
  intros Heq. apply Qmult_integral in Heq as [Heq|Heq].
  - now apply (inject_Z_injective z 0).
  - exfalso. revert Heq. now apply Qpower_not_0.
Qed.

Lemma scaled_sign (z : Z) (e : Z) :
  (0 < z)%Z -> Qlt 0 (inject_Z z * Qpower 2 e).
Proof.
  intros Hz. apply Qmult_lt_0_compat.
  - change (Qlt (inject_Z 0) (inject_Z z)). now rewrite <- Zlt_Qlt.
  - now apply Qpower_0_lt.
Qed.

Lemma scaled_negative (m : positive) (e : Z) :
  Qlt (inject_Z (Zneg m) * Qpower 2 e) 0.
Proof.
  assert (Heq : Qeq (inject_Z (Zneg m) * 2 ^ e) (- (inject_Z (Zpos m) * 2 ^ e))).
  { change (Zneg m) with (- Zpos m)%Z. rewrite inject_Z_opp. ring. }
  rewrite Heq. apply (Qopp_lt_compat 0). now apply scaled_sign.
Qed.

Lemma finite_unique (s1 s2 : bool) (m1 m2 : positive) (e1 e2 : Z) :
  bounded prec emax m1 e1 = true ->
  bounded prec emax m2 e2 = true ->
  Qeq (inject_Z (if s1 then Zneg m1 else Zpos m1) * Qpower 2 e1)
      (inject_Z (if s2 then Zneg m2 else Zpos m2) * Qpower 2 e2) ->
  s1 = s2 /\ e1 = e2 /\ m1 = m2.
Proof.
  unfold bounded. rewrite !andb_true_iff. intros [H1 _] [H2 _] Heq.
  assert (Hs : s1 = s2).
  { destruct s1, s2; try reflexivity; exfalso.
    - pose proof (scaled_negative m1 e1) as Hneg.
      pose proof (scaled_sign (Zpos m2) e2 eq_refl) as Hpos.
      rewrite Heq in Hneg. exact (Qlt_irrefl _ (Qlt_trans _ _ _ Hpos Hneg)).
    - pose proof (scaled_negative m2 e2) as Hneg.
      pose proof (scaled_sign (Zpos m1) e1 eq_refl) as Hpos.
      rewrite <- Heq in Hneg. exact (Qlt_irrefl _ (Qlt_trans _ _ _ Hpos Hneg)). }
  subst s2. split; [reflexivity|].
  destruct (Z.le_ge_cases e1 e2) as [Hle|Hle].
  - apply scaled_eq in Heq; [|assumption].
    apply (canonical_unique m1 m2 e1 e2 H1 H2 Hle).
    destruct s1; lia.
  - symmetry in Heq. apply scaled_eq in Heq; [|assumption].
    destruct (canonical_unique m2 m1 e2 e1 H2 H1 Hle) as [-> ->]; [|tauto].
    destruct s1; lia.
Qed.

(** Two floats that stand for the same rational number are equal for [===]. *)
Lemma rational_strictEquals x y p q :
  rational x = Some p -> rational y = Some q -> Qeq p q ->
  JS.strictEquals x y = true.
Proof.
  unfold JS.strictEquals, rational. rewrite FloatAxioms.eqb_spec.
  pose proof (Prim2SF_valid x) as Hx. pose proof (Prim2SF_valid y) as Hy.
  destruct (Prim2SF x) as [sx|sx| |sx mx ex], (Prim2SF y) as [sy|sy| |sy my ey];
    try discriminate; intros [= <-] [= <-] Heq.
  - reflexivity.
  - symmetry in Heq. apply scaled_zero in Heq. destruct sy; discriminate Heq.
  - apply scaled_zero in Heq. destruct sx; discriminate Heq.
  - destruct (finite_unique sx sy mx my ex ey Hx Hy Heq) as (-> & -> & ->).
    unfold SFeqb, SFcompare. rewrite Z.compare_refl, Pos.compare_cont_refl.
    destruct sy; reflexivity.
Qed.

(** ** Sums that do not round *)

Lemma rationalSum_app a b :
  Qeq (rationalSum (a ++ b)) (rationalSum a + rationalSum b).
Proof.
  induction a as [|x a IH]; simpl.
  - ring.
  - rewrite IH. ring.
Qed.

Lemma rationalSum_Permutation a b :
  Permutation a b -> Qeq (rationalSum a) (rationalSum b).
Proof.
  induction 1 as [|x l l' Hp IH|x y l|l l' l'' H1 IH1 H2 IH2]; simpl.
  - reflexivity.
  - now rewrite IH.
  - ring.
  - now rewrite IH1.
Qed.

Lemma exactAdd_rational a b :
  exactAdd a b = true ->
  exists p q s,
    rational a = Some p /\ rational b = Some q
    /\ rational (a + b)%float = Some s /\ Qeq (p + q) s.
Proof.
  unfold exactAdd.
  destruct (rational a) as [p|], (rational b) as [q|],
    (rational (a + b)%float) as [s|]; try discriminate.
  intros Heq. apply Qeq_bool_iff in Heq. now exists p, q, s.
Qed.

Lemma exactFrom_rational nums : forall acc,
  exactFrom acc nums = true ->
  is_Some (rational acc) ->
  exists q,
    rational (fold_left PrimFloat.add nums acc) = Some q
    /\ Qeq q (default 0%Q (rational acc) + rationalSum nums).
Proof.
  induction nums as [|x nums IH]; intros acc Hexact [qa Hacc]; simpl.
  - exists qa. rewrite Hacc. split; [reflexivity|]. simpl. ring.
  - simpl in Hexact. apply andb_true_iff in Hexact as [Hadd Hrest].
    apply exactAdd_rational in Hadd as (p & q & s & Hp & Hq & Hs & Hsum).
    destruct (IH _ Hrest) as (total & Htotal & Heq); [now rewrite Hs|].
    exists total. split; [assumption|].
    rewrite Heq, Hs, Hp, Hq. simpl. rewrite <- Hsum. ring.
Qed.

Lemma exactTotal_rational nums :
  exactTotal nums = true ->
  exists q, rational (total nums) = Some q /\ Qeq q (rationalSum nums).
Proof.
  intros Hexact. destruct (exactFrom_rational nums 0%float Hexact) as (q & Hq & Heq).
  - now exists 0%Q.
  - exists q. split; [assumption|]. rewrite Heq.
    change (rational 0%float) with (Some 0%Q). simpl. ring.
Qed.

(** ** The aggregator *)

Lemma aggregate_nil field fn : aggregate [] field fn = NumberValue 0%float.
Proof. reflexivity. Qed.

(** C7: on an empty record subset the string-returning kinds [first], [last]
    and [listUnique] return the number [0], which is neither the empty string
    nor the empty array. *)
Theorem aggregate_empty_string_kinds (field : string) :
  aggregate [] field First = NumberValue 0%float
  /\ aggregate [] field Last = NumberValue 0%float
  /\ aggregate [] field ListUnique = NumberValue 0%float
  /\ NumberValue 0%float <> StringValue EmptyString
  /\ NumberValue 0%float <> ListValue [].
Proof. repeat split; discriminate. Qed.

Lemma presentValues_missing (records : list DataItem) field :
  Forall (fun item => missing item field) records ->
  List.filter (fun v => negb (JS.isUndefined v) && negb (JS.isNull v))
    (List.map (fun item => get item field) records)
  = [].
Proof.
  induction 1 as [|item records [Hitem|Hitem] Hrest IH]; simpl;
    [reflexivity|rewrite Hitem; exact IH..].
Qed.

Lemma integerSum_contributions (records : list DataItem) field :
  numericValues JS.parseInt
    (List.filter (fun v => negb (JS.isUndefined v) && negb (JS.isNull v))
       (List.map (fun item => get item field) records))
  = omap (fun item => integerContribution item field) records.
Proof.
  unfold numericValues.
  induction records as [|item records IH]; simpl; [reflexivity|].
  unfold integerContribution at 1.
  destruct (get item field) as [| |b|x|s]; simpl; try exact IH;
    destruct (JS.isNaN _); simpl; now rewrite IH.
Qed.

(** C8: [integerSum] adds up, record by record, the integer parsed from each
    present value on its own, leaving out the values that do not parse; so
    ["20.9"] counts for exactly 20: two of them sum to 40, where their float
    sum is 41.8. *)
Theorem integerSum_parses_each_value (records : list DataItem) field :
  aggregate records field IntegerSum
  = NumberValue (total (omap (fun item => integerContribution item field) records))
  /\ JS.parseInt "20.9" = 20%float
  /\ (forall item : DataItem,
        get item field = JS.Str "20.9" ->
        integerContribution item field = Some 20%float)
  /\ aggregate [ {[ "qty" := JS.Str "20.9" ]}; {[ "qty" := JS.Str "20.9" ]} ]
       "qty" IntegerSum
     = NumberValue 40%float
  /\ aggregate [ {[ "qty" := JS.Str "20.9" ]}; {[ "qty" := JS.Str "20.9" ]} ]
       "qty" Sum
     = NumberValue (JS.parseFloat "41.8").
Proof.
  split; [|split; [|split; [|split]]].
  - destruct records as [|item records]; [reflexivity|].
    unfold aggregate. now rewrite integerSum_contributions.
  - vm_compute. reflexivity.
  - intros item Hitem. unfold integerContribution. rewrite Hitem.
    vm_compute. reflexivity.
  - vm_compute. reflexivity.
  - vm_compute. reflexivity.
Qed.

(** C10: on a non-empty subset whose records all miss the field, [first] and
    [last] return the empty string, not the number 0; the number 0 is
    returned for these kinds only on the empty subset. *)
Theorem first_last_of_missing_values (records : list DataItem) field :
  records <> [] ->
  Forall (fun item => missing item field) records ->
  aggregate records field First = StringValue EmptyString
  /\ aggregate records field Last = StringValue EmptyString
  /\ StringValue EmptyString <> NumberValue 0%float
  /\ (forall subset : list DataItem,
        aggregate subset field First = NumberValue 0%float
        \/ aggregate subset field Last = NumberValue 0%float ->
        subset = []).
Proof.
  intros Hne Hmissing. destruct records as [|item records]; [congruence|].
  unfold aggregate. rewrite (presentValues_missing _ _ Hmissing).
  repeat split; try discriminate.
  intros [|other subset]; [reflexivity|]. intros [Hzero|Hzero]; discriminate Hzero.
Qed.

Lemma first_last_of_missing_values_witness :
  aggregate [ {[ "name" := JS.Null ]}; ∅ ] "name" First = StringValue EmptyString
  /\ aggregate [ {[ "name" := JS.Null ]}; ∅ ] "name" Last
     = StringValue EmptyString.
Proof.
  destruct (first_last_of_missing_values [ {[ "name" := JS.Null ]}; ∅ ] "name")
    as (Hfirst & Hlast & _).
  - discriminate.
  - constructor; [right; reflexivity|].
    constructor; [left; reflexivity|constructor].
  - split; assumption.
Defined.

Lemma aggregate_Count subset field :
  aggregate subset field Count = NumberValue (JS.ofNat (length subset)).
Proof. destruct subset; reflexivity. Qed.

Lemma aggregate_additive subset field fn :
  fn = Sum \/ fn = IntegerSum ->
  aggregate subset field fn = NumberValue (total (summands fn subset field)).
Proof. intros [->| ->]; destruct subset; reflexivity. Qed.

Lemma summands_app fn a b field :
  summands fn (a ++ b) field = summands fn a field ++ summands fn b field.
Proof.
  unfold summands, numericValues. now rewrite !List.map_app, !List.filter_app, !List.map_app, !List.filter_app.
Qed.

Lemma summands_flat_map fn (row : list PivotCell) field :
  summands fn (flat_map data row) field
  = flat_map (fun cell => summands fn (data cell) field) row.
Proof.
  induction row as [|cell row IH]; simpl; [reflexivity|].
  now rewrite summands_app, IH.
Qed.

Lemma summands_Permutation fn a b field :
  Permutation a b -> Permutation (summands fn a field) (summands fn b field).
Proof.
  intros Hp. unfold summands, numericValues.
  apply Permutation_filter, Permutation_map, Permutation_filter.
  now apply Permutation_map.
Qed.

(** ** The cartesian product *)

Lemma cartesian_In axes : forall combo,
  In combo (cartesian axes) <-> Forall2 (fun v axis => In v axis) combo axes.
Proof.
  induction axes as [|axis rest IH]; intros combo; simpl.
  - split.
    + intros [<-|[]]. constructor.
    + intros Hc. inversion Hc. now left.
  - rewrite in_flat_map. split.
    + intros (v & Hv & Hc). apply in_map_iff in Hc as (tail & <- & Ht).
      constructor; [assumption|]. now apply IH.
    + intros Hc. inversion Hc as [|v ? tail ? Hv Ht]; subst.
      exists v. split; [assumption|]. apply in_map_iff.
      exists tail. split; [reflexivity|]. now apply IH.
Qed.

Lemma cartesian_length axes combo :
  In combo (cartesian axes) -> length combo = length axes.
Proof.
  rewrite cartesian_In. induction 1; simpl; congruence.
Qed.

Lemma NoDup_map_cons (v : string) (l : list (list string)) :
  List.NoDup l -> List.NoDup (List.map (fun combo => v :: combo) l).
Proof.
  induction 1 as [|combo l Hc Hl IH]; simpl; constructor; [|assumption].
  rewrite in_map_iff. intros (other & Heq & Hin). congruence.
Qed.

Lemma NoDup_prefixed (tails : list (list string)) (axis : list string) :
  List.NoDup tails -> List.NoDup axis ->
  List.NoDup
    (flat_map (fun v => List.map (fun combo => v :: combo) tails) axis).
Proof.
  intros Ht. induction 1 as [|v axis Hv Haxis IH]; simpl; [constructor|].
  apply List.NoDup_app; [now apply NoDup_map_cons|assumption|].
  intros combo Hc Hc'. apply in_map_iff in Hc as (tail & <- & _).
  apply in_flat_map in Hc' as (w & Hw & Hc').
  apply in_map_iff in Hc' as (tail' & Heq & _).
  injection Heq as -> _. contradiction.
Qed.

Lemma cartesian_NoDup axes :
  Forall (fun axis => List.NoDup axis) axes -> List.NoDup (cartesian axes).
Proof.
  induction 1 as [|axis rest Haxis Hrest IH]; simpl.
  - constructor; [intros []|constructor].
  - now apply NoDup_prefixed.
Qed.

(** ** The key deriver *)

Section KeyDeriver.

Context `{Intl}.

Lemma collectValues_distinct data field :
  collectValues data field = distinct (coercedValues data field).
Proof.
  unfold collectValues, coercedValues, coerced.
  rewrite <- (fold_left_over_map JS.setAdd
                (fun item => JS.ToString (JS.nullish (get item field) (JS.Str "null")))).
  rewrite fold_setAdd. simpl.
  induction (distinct _) as [|x l IH]; simpl; congruence.
Qed.

Lemma collectValues_In data field v :
  In v (collectValues data field) <-> In v (coercedValues data field).
Proof. rewrite collectValues_distinct. apply distinct_In. Qed.

Lemma collectValues_NoDup data field : List.NoDup (collectValues data field).
Proof. rewrite collectValues_distinct. apply distinct_NoDup. Qed.

Lemma distinctCount_length data field :
  distinctCount data field = length (collectValues data field).
Proof.
  unfold distinctCount.
  rewrite <- (size_list_to_set (C := gset string) (collectValues data field)).
  - f_equal. apply set_eq. intros v.
    rewrite !elem_of_list_to_set, !list_elem_of_In. symmetry.
    apply collectValues_In.
  - apply NoDup_ListNoDup, collectValues_NoDup.
Qed.

Lemma sortedValues_In data field v :
  In v (sortedValues data field) <-> In v (coercedValues data field).
Proof. unfold sortedValues. now rewrite sort_In, distinct_In. Qed.

Lemma sortedValues_NoDup data field : List.NoDup (sortedValues data field).
Proof. apply sort_NoDup, distinct_NoDup. Qed.

Lemma coercedValues_In records field v :
  In v (coercedValues records field)
  <-> exists item,
        In item records
        /\ v = JS.ToString (JS.nullish (get item field) (JS.Str "null")).
Proof.
  unfold coercedValues. rewrite in_map_iff. unfold coerced. split.
  - intros (item & <- & Hin). exists item. now split.
  - intros (item & Hin & ->). exists item. now split.
Qed.

Lemma fieldAt_lookup fields index field :
  fields !! index = Some field -> fieldAt fields index = field.
Proof. unfold fieldAt. now intros ->. Qed.

Lemma generateCombinations_cartesian fields uniqueValues fieldIndex :
  generateCombinations fields uniqueValues fieldIndex
  = cartesian
      (List.map
         (fun field => JS.sort smartSort (default [] (uniqueValues !! field)))
         (drop fieldIndex fields)).
Proof.
  funelim (generateCombinations fields uniqueValues fieldIndex).
  - rewrite drop_ge by lia. reflexivity.
  - destruct (lookup_lt_is_Some_2 fields fieldIndex l0) as [field Hfield].
    rewrite (drop_S _ _ _ Hfield). simpl.
    rewrite (fieldAt_lookup _ _ _ Hfield), H0.
    now replace (fieldIndex + 1)%nat with (S fieldIndex) by lia.
Qed.

(** The header list is the cartesian product of the fields' sorted distinct
    values, also when there is no grouping field. *)
Lemma getNestedKeys_cartesian data fields :
  getNestedKeys data fields = cartesian (List.map (sortedValues data) fields).
Proof.
  unfold getNestedKeys. destruct fields as [|f fields]; [reflexivity|].
  change (length (f :: fields) =? 0)%nat with false. cbv iota.
  rewrite generateCombinations_cartesian, drop_0.
  f_equal. apply map_ext_in. intros field Hfield.
  rewrite (fold_insert_lookup (collectValues data)) by assumption. simpl.
  unfold sortedValues. now rewrite collectValues_distinct.
Qed.

Lemma getNestedKeys_In data fields combo :
  In combo (getNestedKeys data fields)
  <-> Forall2 (fun v field => In v (coercedValues data field)) combo fields.
Proof.
  rewrite getNestedKeys_cartesian, cartesian_In, Forall2_map_right.
  split; intros Hc; (eapply Forall2_impl; [exact Hc|]);
    intros v field; apply sortedValues_In.
Qed.

Lemma getNestedKeys_NoDup data fields : List.NoDup (getNestedKeys data fields).
Proof.
  rewrite getNestedKeys_cartesian. apply cartesian_NoDup.
  apply List.Forall_forall. intros axis Haxis.
  apply in_map_iff in Haxis as (field & <- & _). apply sortedValues_NoDup.
Qed.

Lemma getNestedKeys_length data fields combo :
  In combo (getNestedKeys data fields) -> length combo = length fields.
Proof.
  rewrite getNestedKeys_cartesian. intros Hc.
  apply cartesian_length in Hc. now rewrite length_map in Hc.
Qed.

Lemma getNestedKeys_nil fields :
  getNestedKeys [] fields = match fields with [] => [[]] | _ :: _ => [] end.
Proof.
  rewrite getNestedKeys_cartesian. destruct fields; reflexivity.
Qed.

Lemma keyTuple_header data fields item :
  In item data -> In (keyTuple item fields) (getNestedKeys data fields).
Proof.
  intros Hitem. rewrite getNestedKeys_In. unfold keyTuple.
  induction fields as [|f fields IH]; simpl; constructor; [|assumption].
  unfold coercedValues. now apply (in_map (fun item => coerced item f)).
Qed.

Lemma collectAndValidate_outcome records axis limit fields :
  forall uniqueValues now,
    collectAndValidate records (Some axis) limit fields uniqueValues now
    = match find (exceedsLimit records limit) fields with
      | Some field =>
          Rejected (tooManyValues field axis (distinctCount records field))
      | None =>
          Fulfilled
            (fold_left
               (fun uniqueValues field =>
                  <[field := collectValues records field]> uniqueValues)
               fields uniqueValues,
             now)
      end.
Proof.
  induction fields as [|field fields IH]; intros uniqueValues now; simpl.
  - reflexivity.
  - unfold exceedsLimit at 1. rewrite distinctCount_length.
    destruct (limit <? _)%Z.
    + rewrite distinctCount_length. reflexivity.
    + apply IH.
Qed.

Lemma getNestedKeysAsync_outcome records fields signal axis limit now :
  getNestedKeysAsync records fields signal (Some axis) limit now
  = match find (exceedsLimit records limit) fields with
    | Some field =>
        Rejected (tooManyValues field axis (distinctCount records field))
    | None => Fulfilled (getNestedKeys records fields, now)
    end.
Proof.
  unfold getNestedKeysAsync, getNestedKeys.
  destruct (length fields =? 0)%nat eqn:E.
  - destruct fields; [reflexivity|discriminate].
  - unfold mbind, Async_bind. rewrite collectAndValidate_outcome.
    destruct (find _ fields); reflexivity.
Qed.

Lemma find_exceedsLimit_None records limit fields :
  find (exceedsLimit records limit) fields = None
  <-> forall field, In field fields ->
        (Z.of_nat (distinctCount records field) <= limit)%Z.
Proof.
  split.
  - intros Hnone field Hfield.
    pose proof (find_none _ _ Hnone field Hfield) as Hf.
    unfold exceedsLimit in Hf. lia.
  - intros Hall. destruct (find _ fields) as [field|] eqn:E; [|reflexivity].
    apply find_some in E as [Hin He]. specialize (Hall field Hin).
    unfold exceedsLimit in He. lia.
Qed.

(** C3: the header list is the cartesian product of the fields' sorted
    distinct coerced values, the first field varying slowest; it holds every
    combination of such values, matched by a record or not; a field's values
    are sorted with the numeric-aware comparator. The asynchronous key
    deriver computes the same list when no field exceeds the limit. *)
Theorem header_list_is_cartesian_product records fields :
  getNestedKeys records fields
  = cartesian (List.map (sortedValues records) fields)
  /\ (forall field rest,
        getNestedKeys records (field :: rest)
        = flat_map
            (fun v =>
               List.map (fun combo => v :: combo) (getNestedKeys records rest))
            (sortedValues records field))
  /\ (forall combo,
        Forall2
          (fun v field =>
             exists item,
               In item records
               /\ v = JS.ToString (JS.nullish (get item field) (JS.Str "null")))
          combo fields ->
        In combo (getNestedKeys records fields))
  /\ (forall field,
        Permutation (sortedValues records field)
          (distinct (coercedValues records field))
        /\ List.NoDup (sortedValues records field)
        /\ (consistentOn smartSort (distinct (coercedValues records field)) ->
            StronglySorted (notAfter smartSort) (sortedValues records field)))
  /\ (forall a b,
        smartSort a b
        = if negb (JS.isNaN (JS.parseFloat a)) && negb (JS.isNaN (JS.parseFloat b))
          then (JS.parseFloat a - JS.parseFloat b)%float
          else localeCompare a b)
  /\ (forall signal axis limit now,
        (forall field, In field fields ->
           (Z.of_nat (distinctCount records field) <= limit)%Z) ->
        getNestedKeysAsync records fields signal (Some axis) limit now
        = Fulfilled (getNestedKeys records fields, now)).
Proof.
  repeat split.
  - apply getNestedKeys_cartesian.
  - intros field rest. now rewrite !getNestedKeys_cartesian.
  - intros combo Hcombo. apply getNestedKeys_In.
    eapply Forall2_impl; [exact Hcombo|].
    intros v field Hv. now apply coercedValues_In.
  - apply sort_Permutation.
  - apply sortedValues_NoDup.
  - apply sort_StronglySorted.
  - intros signal axis limit now Hlimit. rewrite getNestedKeysAsync_outcome.
    apply find_exceedsLimit_None in Hlimit. now rewrite Hlimit.
Qed.

End KeyDeriver.

(** The two-field header list of the fixture: the region varies slowest, and
    combinations no record matches (East with B or C, ...) are present. *)
Example header_list_of_sampleData :
  getNestedKeys (H := Reference.host) Fixture.sampleData ["region"; "product"]
  = [["East"; "A"]; ["East"; "B"]; ["East"; "C"];
     ["North"; "A"]; ["North"; "B"]; ["North"; "C"];
     ["South"; "A"]; ["South"; "B"]; ["South"; "C"];
     ["West"; "A"]; ["West"; "B"]; ["West"; "C"]].
Proof. vm_compute. reflexivity. Qed.

(** Numeric strings sort by value, the others by the locale's collation. *)
Example sort_numeric_and_text :
  JS.sort (smartSort (H := Reference.host)) ["10"; "9"; "b"; "2"; "A"]
  = ["2"; "9"; "10"; "A"; "b"].
Proof. vm_compute. reflexivity. Qed.

(** ** The filter stage and record subsets *)

Section RecordSubsets.

Context `{Intl}.

(** X4: the filter stage keeps the records that pass every filter; a filter with
    an empty allow-list passes every record; no filter is the identity. *)
Theorem filter_stage records filterList :
  (forall item,
     In item (filterData records filterList)
     <-> In item records
         /\ forall filter,
              In filter filterList ->
              filterValues filter = []
              \/ In (coerced item (filterField filter)) (filterValues filter))
  /\ filterData records [] = records
  /\ (forall filter,
        filterValues filter = [] ->
        filterData records (filter :: filterList) = filterData records filterList).
Proof.
  split; [|split].
  - intros item. unfold filterData. rewrite filter_In, forallb_forall.
    split; intros [Hin Hall]; (split; [assumption|]); intros filter Hfilter;
      specialize (Hall filter Hfilter).
    + destruct (filterValues filter) as [|v vs]; [now left|right].
      change (includes (v :: vs) (coerced item (filterField filter)) = true)
        in Hall.
      unfold includes in Hall.
      apply existsb_exists in Hall as (x & Hx & Heq).
      apply String.eqb_eq in Heq. now subst.
    + destruct Hall as [->|Hallowed]; [reflexivity|].
      destruct (filterValues filter) as [|v vs] eqn:E; [reflexivity|].
      change (includes (v :: vs) (coerced item (filterField filter)) = true).
      unfold includes. apply existsb_exists.
      exists (coerced item (filterField filter)).
      split; [assumption|apply String.eqb_refl].
  - unfold filterData. induction records as [|item rest IH]; [reflexivity|].
    simpl. f_equal. exact IH.
  - intros filter Hempty. unfold filterData. simpl. now rewrite Hempty.
Qed.

Lemma everyKey_keyTuple item all : forall keys fields index,
  drop index all = fields -> length keys = length fields ->
  everyKey item all index keys = true <-> keys = keyTuple item fields.
Proof.
  induction keys as [|key keys IH]; intros [|f fields] index Hdrop Hlen;
    simpl in *; try discriminate.
  - tauto.
  - assert (Hf : all !! index = Some f).
    { rewrite <- (Nat.add_0_r index), <- lookup_drop, Hdrop. reflexivity. }
    assert (Hdrop' : drop (S index) all = fields).
    { rewrite (drop_S _ _ _ Hf) in Hdrop. congruence. }
    rewrite (fieldAt_lookup _ _ _ Hf), andb_true_iff, String.eqb_eq.
    rewrite (IH fields (S index) Hdrop') by congruence.
    split; [intros [-> ->]; reflexivity|intros [= -> ->]; tauto].
Qed.

Lemma getSubsetData_In data rowKey colKey rowFields columnFields item :
  length rowKey = length rowFields -> length colKey = length columnFields ->
  In item (getSubsetData data rowKey colKey rowFields columnFields)
  <-> In item data /\ rowKey = keyTuple item rowFields
      /\ colKey = keyTuple item columnFields.
Proof.
  intros Hr Hc. unfold getSubsetData. rewrite filter_In, andb_true_iff.
  rewrite (everyKey_keyTuple item rowFields rowKey rowFields 0) by easy.
  rewrite (everyKey_keyTuple item columnFields colKey columnFields 0) by easy.
  reflexivity.
Qed.

End RecordSubsets.

(** ** Labels and aggregated values *)

Lemma list_ascii_of_string_app a b :
  list_ascii_of_string (a +:+ b) = list_ascii_of_string a ++ list_ascii_of_string b.
Proof. induction a as [|c a IH]; simpl; [reflexivity|now rewrite IH]. Qed.

Lemma string_app_inv_tail a b s : a +:+ s = b +:+ s -> a = b.
Proof.
  intros Heq. apply (f_equal list_ascii_of_string) in Heq.
  rewrite !list_ascii_of_string_app in Heq. apply app_inv_tail in Heq.
  apply (f_equal string_of_list_ascii) in Heq.
  now rewrite !string_of_list_ascii_of_string in Heq.
Qed.

Lemma untilParenthesis_valueKey valueConfig :
  untilParenthesis (rev (list_ascii_of_string (valueKey valueConfig)))
  = ")"%char
    :: rev (list_ascii_of_string (aggregationName (aggregation valueConfig))).
Proof.
  unfold valueKey. rewrite !list_ascii_of_string_app, !rev_app_distr.
  destruct (aggregation valueConfig); reflexivity.
Qed.

Lemma aggregationName_inj fn1 fn2 :
  aggregationName fn1 = aggregationName fn2 -> fn1 = fn2.
Proof. destruct fn1, fn2; simpl; intros Heq; try discriminate Heq; reflexivity. Qed.

Lemma valueKey_inj valueConfig1 valueConfig2 :
  valueKey valueConfig1 = valueKey valueConfig2 -> valueConfig1 = valueConfig2.
Proof.
  intros Heq.
  assert (Hfn : aggregation valueConfig1 = aggregation valueConfig2).
  { pose proof (untilParenthesis_valueKey valueConfig1) as H1.
    rewrite Heq, untilParenthesis_valueKey in H1.
    injection H1 as H1. apply (f_equal (@rev ascii)) in H1.
    rewrite !rev_involutive in H1.
    apply (f_equal string_of_list_ascii) in H1.
    rewrite !string_of_list_ascii_of_string in H1.
    symmetry. now apply aggregationName_inj. }
  destruct valueConfig1 as [field1 fn1], valueConfig2 as [field2 fn2].
  simpl in Hfn. subst fn2. f_equal.
  unfold valueKey in Heq. simpl in Heq.
  now apply string_app_inv_tail in Heq.
Qed.

Section AggregatedValues.

Context `{Intl}.

Lemma aggregatedValues_lookup config subset valueConfig :
  In valueConfig (values config) ->
  aggregatedValues config subset !! valueKey valueConfig
  = Some (aggregate subset (field valueConfig) (aggregation valueConfig)).
Proof.
  intros Hin. unfold aggregatedValues.
  destruct (values config) as [|first rest] eqn:E; [destruct Hin|].
  change (length (first :: rest) =? 0)%nat with false. cbv iota.
  apply (fold_insert_keyed valueKey
           (fun valueConfig =>
              aggregate subset (field valueConfig) (aggregation valueConfig)));
    [exact valueKey_inj|exact Hin].
Qed.

Lemma aggregatedValues_nil config : aggregatedValues config [] = emptyDefaults config.
Proof.
  unfold aggregatedValues, emptyDefaults.
  destruct (values config) as [|valueConfig rest] eqn:E; [reflexivity|].
  change (length (valueConfig :: rest) =? 0)%nat with false. cbv iota.
  apply map_eq. intros k.
  rewrite (fold_insert_const valueKey (NumberValue 0%float)).
  rewrite lookup_empty, lookup_gset_to_gmap, option_guard_bool_decide.
  erewrite (bool_decide_ext (k ∈ list_to_set _)); [reflexivity|].
  apply elem_of_list_to_set.
Qed.

End AggregatedValues.

(** ** The synchronous builder *)

Section SynchronousBuilder.

Context `{Intl}.

Lemma generatePivotTable_unfold data config :
  let filteredData := filterData data (filters config) in
  let rowKeys := getNestedKeys filteredData (rows config) in
  let columnKeys := getNestedKeys filteredData (columns config) in
  generatePivotTable data config
  = {| rowHeaders := rowKeys;
       columnHeaders := columnKeys;
       cells :=
         List.map
           (fun rowKey => List.map (cellFor config filteredData rowKey) columnKeys)
           rowKeys;
       rowTotals :=
         List.map
           (fun rowKey => aggregatedValues config (rowData config filteredData rowKey))
           rowKeys;
       columnTotals :=
         List.map
           (fun colKey =>
              aggregatedValues config (columnData config filteredData colKey))
           columnKeys;
       grandTotal := aggregatedValues config filteredData |}.
Proof.
  intros filteredData rowKeys columnKeys. unfold generatePivotTable.
  fold filteredData. fold rowKeys. fold columnKeys.
  rewrite (fold_push2
             (fun rowKey =>
                fold_left
                  (fun row colKey => row ++ [cellFor config filteredData rowKey colKey])
                  columnKeys [])
             (fun rowKey => aggregatedValues config (rowData config filteredData rowKey))).
  rewrite (fold_push
             (fun colKey =>
                aggregatedValues config (columnData config filteredData colKey))).
  simpl. f_equal. apply map_ext. intros rowKey. now rewrite fold_push.
Qed.

Lemma table_row records config r rowKey row totals :
  let table := generatePivotTable records config in
  let filteredData := filterData records (filters config) in
  rowHeaders table !! r = Some rowKey ->
  cells table !! r = Some row ->
  rowTotals table !! r = Some totals ->
  row
  = List.map (cellFor config filteredData rowKey)
      (getNestedKeys filteredData (columns config))
  /\ totals = aggregatedValues config (rowData config filteredData rowKey).
Proof.
  intros table filteredData. subst table.
  rewrite generatePivotTable_unfold. simpl. fold filteredData.
  intros Hr. rewrite !map_lookup, Hr. simpl. now intros [= <-] [= <-].
Qed.

(** X1: the shape of the table: one row of cells and one row total per row
    header, one cell per column header in every row, one column total per
    column header; each cell carries the key tuples of its row and column. *)
Theorem table_shape records config :
  let table := generatePivotTable records config in
  length (cells table) = length (rowHeaders table)
  /\ Forall (fun row => length row = length (columnHeaders table)) (cells table)
  /\ length (rowTotals table) = length (rowHeaders table)
  /\ length (columnTotals table) = length (columnHeaders table)
  /\ (forall r c row cell,
        cells table !! r = Some row -> row !! c = Some cell ->
        rowHeaders table !! r = Some (rowKeys cell)
        /\ columnHeaders table !! c = Some (columnKeys cell)).
Proof.
  intros table. subst table. rewrite generatePivotTable_unfold. simpl.
  rewrite !length_map.
  split; [reflexivity|]. split; [|split; [reflexivity|split; [reflexivity|]]].
  - apply List.Forall_forall. intros row Hrow.
    apply in_map_iff in Hrow as (rowKey & <- & _). apply length_map.
  - intros r c row cell Hrow Hcell. rewrite map_lookup in Hrow.
    destruct (getNestedKeys _ (rows config) !! r) as [rowKey|]; [|discriminate].
    injection Hrow as <-. rewrite map_lookup in Hcell.
    destruct (getNestedKeys _ (columns config) !! c); [|discriminate].
    injection Hcell as <-. split; reflexivity.
Qed.

(** X2: the grand total is the aggregation of the whole filtered record set:
    under each configured label the aggregate of that field, or the number of
    records under ["Count"] when no value field is configured. *)
Theorem grand_total_over_filtered_records records config :
  let table := generatePivotTable records config in
  let filteredData := filterData records (filters config) in
  (forall valueConfig,
     In valueConfig (values config) ->
     grandTotal table !! valueKey valueConfig
     = Some
         (aggregate filteredData (field valueConfig) (aggregation valueConfig)))
  /\ (values config = [] ->
      grandTotal table
      = {[ "Count" := NumberValue (JS.ofNat (length filteredData)) ]}).
Proof.
  intros table filteredData. subst table.
  rewrite generatePivotTable_unfold. simpl. split.
  - intros valueConfig Hin. now apply aggregatedValues_lookup.
  - intros Hnone. unfold aggregatedValues. now rewrite Hnone.
Qed.

(** X3: the records of a cell are the filtered records whose coerced row-field
    values are the row's key tuple and whose coerced column-field values are
    the column's key tuple, in their original order. *)
Theorem cell_data_matches_keys records config r c row cell :
  let table := generatePivotTable records config in
  let filteredData := filterData records (filters config) in
  cells table !! r = Some row ->
  row !! c = Some cell ->
  (forall item,
     In item (data cell)
     <-> In item filteredData
         /\ rowKeys cell = keyTuple item (rows config)
         /\ columnKeys cell = keyTuple item (columns config))
  /\ sublist (data cell) filteredData.
Proof.
  intros table filteredData. subst table.
  rewrite generatePivotTable_unfold. simpl. fold filteredData.
  rewrite map_lookup. intros Hrow Hcell.
  destruct (getNestedKeys filteredData (rows config) !! r) as [rowKey|] eqn:Hr;
    [|discriminate].
  injection Hrow as <-. rewrite map_lookup in Hcell.
  destruct (getNestedKeys filteredData (columns config) !! c) as [colKey|] eqn:Hc;
    [|discriminate].
  injection Hcell as <-. simpl. split.
  - intros item. apply getSubsetData_In.
    + eapply getNestedKeys_length, In_lookup. eauto.
    + eapply getNestedKeys_length, In_lookup. eauto.
  - unfold getSubsetData. clear.
    induction filteredData as [|item rest IH]; simpl; [constructor|].
    destruct (_ && _); now constructor.
Qed.

(** C6, amended: on an empty record list the headers of an axis are [[]]
    when the axis has grouping fields and [[[]]] when it has none; there is
    no row of cells when [rows] is non-empty, and one row when it is empty,
    holding one cell (no records, the empty-input defaults) per column
    header; the grand total holds the empty-input defaults. *)
Theorem empty_records_table config :
  let table := generatePivotTable [] config in
  rowHeaders table = match rows config with [] => [[]] | _ :: _ => [] end
  /\ columnHeaders table
     = match columns config with [] => [[]] | _ :: _ => [] end
  /\ cells table
     = match rows config, columns config with
       | [], [] =>
           [[ {| value := emptyDefaults config;
                 rowKeys := [];
                 columnKeys := [];
                 data := [] |} ]]
       | [], _ :: _ => [[]]
       | _ :: _, _ => []
       end
  /\ grandTotal table = emptyDefaults config.
Proof.
  intros table. subst table. rewrite generatePivotTable_unfold. simpl.
  rewrite !getNestedKeys_nil, aggregatedValues_nil.
  repeat split.
  destruct (rows config), (columns config); try reflexivity.
  simpl. unfold cellFor. simpl. now rewrite aggregatedValues_nil.
Qed.

Lemma flat_map_data_row config filteredData rowKey columnKeys :
  flat_map data (List.map (cellFor config filteredData rowKey) columnKeys)
  = flat_map
      (fun colKey =>
         getSubsetData filteredData rowKey colKey (rows config) (columns config))
      columnKeys.
Proof. induction columnKeys as [|k ks IH]; simpl; congruence. Qed.

(** The cells of a row split the row's records. *)
Lemma row_cells_Permutation records config rowKey :
  let filteredData := filterData records (filters config) in
  Permutation
    (flat_map data
       (List.map (cellFor config filteredData rowKey)
          (getNestedKeys filteredData (columns config))))
    (rowData config filteredData rowKey).
Proof.
  intros filteredData. rewrite flat_map_data_row.
  unfold rowData, getSubsetData. simpl.
  erewrite (filter_ext_In _ (fun item => everyKey item (rows config) 0 rowKey))
    by (intros; apply andb_true_r).
  apply (buckets_Permutation
           (fun colKey item => everyKey item (columns config) 0 colKey)
           (fun item => everyKey item (rows config) 0 rowKey)
           (fun item => keyTuple item (columns config))).
  - apply getNestedKeys_NoDup.
  - intros item Hitem _. now apply keyTuple_header.
  - intros colKey item HcolKey _. apply everyKey_keyTuple; [reflexivity|].
    now apply getNestedKeys_length in HcolKey.
Qed.

Lemma inCell_keys records config r c item :
  let filteredData := filterData records (filters config) in
  inCell (generatePivotTable records config) r c item
  <-> In item filteredData
      /\ getNestedKeys filteredData (rows config) !! r
         = Some (keyTuple item (rows config))
      /\ getNestedKeys filteredData (columns config) !! c
         = Some (keyTuple item (columns config)).
Proof.
  intros filteredData. unfold inCell.
  rewrite generatePivotTable_unfold. simpl. fold filteredData. split.
  - intros (row & cell & Hrow & Hcell & Hitem).
    rewrite map_lookup in Hrow.
    destruct (getNestedKeys filteredData (rows config) !! r) as [rowKey|] eqn:Hr;
      [|discriminate].
    injection Hrow as <-. rewrite map_lookup in Hcell.
    destruct (getNestedKeys filteredData (columns config) !! c) as [colKey|] eqn:Hc;
      [|discriminate].
    injection Hcell as <-. simpl in Hitem.
    apply getSubsetData_In in Hitem as (Hin & -> & ->); [tauto| |].
    + eapply getNestedKeys_length, In_lookup. eauto.
    + eapply getNestedKeys_length, In_lookup. eauto.
  - intros (Hin & Hr & Hc).
    eexists. eexists. rewrite map_lookup, Hr. simpl. split; [reflexivity|].
    rewrite map_lookup, Hc. simpl. split; [reflexivity|]. simpl.
    apply getSubsetData_In; [apply length_map..|tauto].
Qed.

(** C9: every record of the filtered set is an element of the [data] of
    exactly one cell, and the [data] arrays of the cells of a row split the
    record subset over which that row's total is aggregated. *)
Theorem record_in_exactly_one_cell records config :
  let table := generatePivotTable records config in
  let filteredData := filterData records (filters config) in
  (forall item, In item filteredData ->
     exists r c,
       inCell table r c item
       /\ forall r' c', inCell table r' c' item -> r' = r /\ c' = c)
  /\ (forall r rowKey row,
        rowHeaders table !! r = Some rowKey ->
        cells table !! r = Some row ->
        rowTotals table !! r
        = Some (aggregatedValues config (rowData config filteredData rowKey))
        /\ Permutation (flat_map data row) (rowData config filteredData rowKey)).
Proof.
  intros table filteredData. split.
  - intros item Hitem.
    destruct (proj1 (In_lookup _ _)
                (keyTuple_header filteredData (rows config) item Hitem))
      as [r Hr].
    destruct (proj1 (In_lookup _ _)
                (keyTuple_header filteredData (columns config) item Hitem))
      as [c Hc].
    exists r, c. split.
    + apply inCell_keys. tauto.
    + intros r' c' Hcell. apply inCell_keys in Hcell as (_ & Hr' & Hc'). split.
      * eapply NoDup_lookup_unique; eauto using getNestedKeys_NoDup.
      * eapply NoDup_lookup_unique; eauto using getNestedKeys_NoDup.
  - intros r rowKey row. subst table. rewrite generatePivotTable_unfold. simpl.
    fold filteredData. intros Hr. rewrite !map_lookup, Hr. simpl.
    intros [= <-]. split; [reflexivity|]. apply row_cells_Permutation.
Qed.

Lemma numberUnder_cells fn field key (row : list PivotCell) :
  Forall
    (fun cell =>
       value cell !! key = Some (NumberValue (total (summands fn (data cell) field))))
    row ->
  forallb (fun cell => exactTotal (summands fn (data cell) field)) row = true ->
  Qeq (rationalSum (List.map (fun cell => numberUnder (value cell) key) row))
      (rationalSum (flat_map (fun cell => summands fn (data cell) field) row)).
Proof.
  induction 1 as [|cell row Hcell Hrow IH]; simpl; intros Hexact; [reflexivity|].
  apply andb_true_iff in Hexact as [Hfirst Hrest].
  rewrite rationalSum_app, (IH Hrest).
  unfold numberUnder at 1. rewrite Hcell.
  destruct (exactTotal_rational _ Hfirst) as (q & -> & Hq).
  simpl. now rewrite Hq.
Qed.

(** C2, amended: for [count] the value of each cell is the number of its
    records and the row total is the sum of these numbers. For [sum] and
    [integerSum] the row total is the left-to-right sum of the numbers parsed
    from the row's records, which are the records of the row's cells; it
    is strictly equal ([===]) to the sum of the cell values across the row
    whenever none of the additions involved rounds. *)
Theorem row_total_of_additive_aggregation
  records config r rowKey row totals valueConfig :
  let table := generatePivotTable records config in
  let filteredData := filterData records (filters config) in
  let key := valueKey valueConfig in
  let fn := aggregation valueConfig in
  rowHeaders table !! r = Some rowKey ->
  cells table !! r = Some row ->
  rowTotals table !! r = Some totals ->
  In valueConfig (values config) ->
  (fn = Count ->
   Forall
     (fun cell =>
        value cell !! key = Some (NumberValue (JS.ofNat (length (data cell)))))
     row
   /\ totals !! key
      = Some
          (NumberValue
             (JS.ofNat (list_sum (List.map (fun cell => length (data cell)) row)))))
  /\ (fn = Sum \/ fn = IntegerSum ->
      Forall
        (fun cell =>
           value cell !! key
           = Some
               (NumberValue
                  (total (summands fn (data cell) (field valueConfig)))))
        row
      /\ totals !! key
         = Some
             (NumberValue
                (total
                   (summands fn (rowData config filteredData rowKey)
                      (field valueConfig))))
      /\ Permutation (flat_map data row) (rowData config filteredData rowKey)
      /\ (exactTotal
            (summands fn (rowData config filteredData rowKey) (field valueConfig))
          = true ->
          forallb
            (fun cell => exactTotal (summands fn (data cell) (field valueConfig)))
            row
          = true ->
          exactTotal (List.map (fun cell => numberUnder (value cell) key) row)
          = true ->
          JS.strictEquals (numberUnder totals key) (sumAcross row key) = true)).
Proof.
  intros table filteredData key fn. subst table key fn. cbv zeta.
  intros Hr Hrow Htotals Hin.
  destruct (table_row records config r rowKey row totals Hr Hrow Htotals)
    as [-> ->].
  fold filteredData.
  pose proof (row_cells_Permutation records config rowKey) as Hperm.
  cbv zeta in Hperm. fold filteredData in Hperm.
  assert (Hcells : forall g,
    (forall subset,
       aggregate subset (field valueConfig) (aggregation valueConfig)
       = NumberValue (g subset)) ->
    Forall
      (fun cell =>
         value cell !! valueKey valueConfig = Some (NumberValue (g (data cell))))
      (List.map (cellFor config filteredData rowKey)
         (getNestedKeys filteredData (columns config)))).
  { intros g Hg. apply List.Forall_forall. intros cell Hcell.
    apply in_map_iff in Hcell as (colKey & <- & _). simpl.
    now rewrite aggregatedValues_lookup, Hg. }
  rewrite aggregatedValues_lookup by assumption.
  split.
  - intros Hfn. split.
    + apply (Hcells (fun subset => JS.ofNat (length subset))).
      intros subset. rewrite Hfn. apply aggregate_Count.
    + rewrite Hfn, aggregate_Count.
      now rewrite <- (Permutation_length Hperm), length_flat_map.
  - intros Hfn.
    assert (Hvalues :=
      Hcells
        (fun subset =>
           total (summands (aggregation valueConfig) subset (field valueConfig)))
        (fun subset => aggregate_additive subset _ _ Hfn)).
    rewrite (aggregate_additive _ _ _ Hfn).
    repeat split; [assumption..|].
    intros Hexact Hexacts Hacross.
    unfold numberUnder at 1, sumAcross.
    rewrite aggregatedValues_lookup, (aggregate_additive _ _ _ Hfn) by assumption.
    destruct (exactTotal_rational _ Hexact) as (p & Hrational & Hp).
    destruct (exactTotal_rational _ Hacross) as (q & Hrational' & Hq).
    apply (rational_strictEquals _ _ p q Hrational Hrational').
    rewrite Hp, Hq.
    rewrite (numberUnder_cells _ (field valueConfig) _ _ Hvalues Hexacts).
    rewrite <- summands_flat_map.
    now apply rationalSum_Permutation, summands_Permutation.
Qed.

End SynchronousBuilder.

(** The cell of North and product A in the fixture holds the one record
    sold there. *)
Lemma cell_data_matches_keys_witness :
  let table :=
    generatePivotTable (H := Reference.host) Fixture.sampleData
      Fixture.salesByRegionAndProduct in
  let row := default [] (cells table !! 1%nat) in
  let cell :=
    default
      {| value := ∅; rowKeys := []; columnKeys := []; data := [] |}
      (row !! 0%nat) in
  cells table !! 1%nat = Some row
  /\ row !! 0%nat = Some cell
  /\ data cell = [Fixture.item "North" "A" 100 10]
  /\ sublist (data cell) (filterData Fixture.sampleData []).
Proof.
  intros table row cell.
  assert (Hrow : cells table !! 1%nat = Some row) by (vm_compute; reflexivity).
  assert (Hcell : row !! 0%nat = Some cell) by (vm_compute; reflexivity).
  split; [exact Hrow|]. split; [exact Hcell|].
  split; [vm_compute; reflexivity|].
  exact (proj2
           (cell_data_matches_keys (H := Reference.host) Fixture.sampleData
              Fixture.salesByRegionAndProduct 1 0 row cell Hrow Hcell)).
Defined.

(** C6 as stated fails: with no row field the grid has one row, not none. *)
Lemma empty_input_boundary_counterexample :
  ~ EmptyInputBoundary (H := Reference.host)
      {| rows := []; columns := []; values := []; filters := [] |}.
Proof.
  intros (_ & _ & Hcells & _). vm_compute in Hcells. discriminate Hcells.
Qed.

(** The two shapes of the defaults. *)
Example emptyDefaults_Count :
  emptyDefaults {| rows := []; columns := []; values := []; filters := [] |}
  = {[ "Count" := NumberValue 0%float ]}.
Proof. reflexivity. Qed.

Example emptyDefaults_sum :
  grandTotal
    (generatePivotTable (H := Reference.host) [] Fixture.salesByRegionAndProduct)
  = {[ "sales (sum)" := NumberValue 0%float ]}.
Proof. vm_compute. reflexivity. Qed.

(** In the fixture, North sold 100 of A and 150 of B: a row total of 250. *)
Lemma row_total_of_additive_aggregation_witness :
  let table :=
    generatePivotTable (H := Reference.host) Fixture.sampleData
      Fixture.salesByRegionAndProduct in
  let row := default [] (cells table !! 1%nat) in
  let totals := default ∅ (rowTotals table !! 1%nat) in
  cells table !! 1%nat = Some row
  /\ rowTotals table !! 1%nat = Some totals
  /\ numberUnder totals "sales (sum)" = 250%float
  /\ JS.strictEquals (numberUnder totals "sales (sum)")
       (sumAcross row "sales (sum)")
     = true.
Proof.
  intros table row totals.
  assert (Hheader : rowHeaders table !! 1%nat = Some ["North"])
    by (vm_compute; reflexivity).
  assert (Hrow : cells table !! 1%nat = Some row) by (vm_compute; reflexivity).
  assert (Htotals : rowTotals table !! 1%nat = Some totals)
    by (vm_compute; reflexivity).
  pose proof
    (row_total_of_additive_aggregation (H := Reference.host)
       Fixture.sampleData Fixture.salesByRegionAndProduct 1 ["North"] row totals
       {| field := "sales"; aggregation := Sum |}
       Hheader Hrow Htotals (or_introl eq_refl)) as [_ Hsum].
  destruct (Hsum (or_introl eq_refl)) as (_ & _ & _ & Hsame).
  split; [exact Hrow|]. split; [exact Htotals|].
  split; [vm_compute; reflexivity|].
  apply Hsame; vm_compute; reflexivity.
Defined.

(** C2 as stated fails: the three amounts 1e16, 1 and -1e16 sum to 0 in record
    order, while the cells hold 0 (account A) and 1 (account B). *)
Lemma row_total_consistency_counterexample :
  ~ RowTotalConsistency (H := Reference.host) Fixture.ledger
      Fixture.amountByAccount.
Proof.
  intros Hclaim.
  assert (Hadditive :
    Forall (fun valueConfig => additive (aggregation valueConfig) = true)
      (values Fixture.amountByAccount)) by (repeat constructor).
  specialize (Hclaim Hadditive). cbv zeta in Hclaim.
  set (table := generatePivotTable Fixture.ledger Fixture.amountByAccount) in Hclaim.
  pose (row := default [] (cells table !! 0%nat)).
  pose (totals := default ∅ (rowTotals table !! 0%nat)).
  assert (Hrow : cells table !! 0%nat = Some row) by (vm_compute; reflexivity).
  assert (Htotals : rowTotals table !! 0%nat = Some totals)
    by (vm_compute; reflexivity).
  specialize (Hclaim 0%nat row totals {| field := "amount"; aggregation := Sum |}
                Hrow Htotals (or_introl eq_refl)).
  vm_compute in Hclaim. discriminate Hclaim.
Qed.

(** The row total and the sum of the cell values of the ledger, for [sum]
    and for [integerSum]: 0 against 1. *)
Example ledger_row_total :
  let table :=
    generatePivotTable (H := Reference.host) Fixture.ledger
      Fixture.amountByAccount in
  let row := default [] (cells table !! 0%nat) in
  let totals := default ∅ (rowTotals table !! 0%nat) in
  numberUnder totals "amount (sum)" = 0%float
  /\ sumAcross row "amount (sum)" = 1%float
  /\ numberUnder totals "amount (integerSum)" = 0%float
  /\ sumAcross row "amount (integerSum)" = 1%float.
Proof. vm_compute. repeat split. Qed.

(** The scenarios of the test suite. *)
Example grand_total_of_sampleData :
  grandTotal
    (generatePivotTable (H := Reference.host) Fixture.sampleData
       Fixture.salesByRegionAndProduct)
  = {[ "sales (sum)" := NumberValue 820%float ]}.
Proof. vm_compute. reflexivity. Qed.

Example filtered_sampleData :
  let table :=
    generatePivotTable (H := Reference.host) Fixture.sampleData
      {| rows := ["region"];
         columns := ["product"];
         values := [{| field := "sales"; aggregation := Sum |}];
         filters := [{| filterField := "region";
                        filterValues := ["North"; "South"] |}] |} in
  rowHeaders table = [["North"]; ["South"]]
  /\ grandTotal table = {[ "sales (sum)" := NumberValue 570%float ]}.
Proof. vm_compute. split; reflexivity. Qed.

(** ** Asynchronous computations *)

Lemma bind_Fulfilled {A B} (c : Async A) (f : A -> Async B) now a later :
  c now = Fulfilled (a, later) -> (c ≫= f) now = f a later.
Proof. unfold mbind, Async_bind. now intros ->. Qed.

Lemma bind_Rejected {A B} (c : Async A) (f : A -> Async B) now e :
  c now = Rejected e -> (c ≫= f) now = Rejected e.
Proof. unfold mbind, Async_bind. now intros ->. Qed.

Lemma await_Fulfilled {A} (c : Async A) now a later :
  c now = Fulfilled (a, later) -> await c now = Fulfilled (a, S later).
Proof. unfold await. now intros ->. Qed.

Lemma await_Rejected {A} (c : Async A) now e :
  c now = Rejected e -> await c now = Rejected e.
Proof. unfold await. now intros ->. Qed.

Lemma throwIfAborted_pass signal now :
  aborted signal now = false -> throwIfAborted signal now = Fulfilled (tt, now).
Proof. unfold throwIfAborted. now intros ->. Qed.

Lemma throwIfAborted_fail signal now :
  aborted signal now = true -> throwIfAborted signal now = Rejected cancelled.
Proof. unfold throwIfAborted. now intros ->. Qed.

Lemma fulfils_ret {A} (a : A) : fulfils (mret a) a.
Proof. intros now. now exists now. Qed.

Lemma fulfils_bind {A B} (c : Async A) (f : A -> Async B) a b :
  fulfils c a -> fulfils (f a) b -> fulfils (c ≫= f) b.
Proof.
  intros Hc Hf now. destruct (Hc now) as [later Hlater].
  rewrite (bind_Fulfilled _ _ _ _ _ Hlater). apply Hf.
Qed.

Lemma fulfils_await {A} (c : Async A) a : fulfils c a -> fulfils (await c) a.
Proof.
  intros Hc now. destruct (Hc now) as [later Hlater].
  exists (S later). now apply await_Fulfilled.
Qed.

Lemma fulfils_throwIfAborted signal :
  neverAborted signal -> fulfils (throwIfAborted signal) tt.
Proof. intros Hs now. exists now. apply throwIfAborted_pass, Hs. Qed.

Lemma fulfils_chunk signal index :
  neverAborted signal ->
  fulfils
    (if (index mod CHUNK_SIZE =? 0)%nat
     then await yieldControl;; throwIfAborted signal
     else mret tt)
    tt.
Proof.
  intros Hs. destruct (_ =? _)%nat; [|apply fulfils_ret].
  eapply fulfils_bind; [apply fulfils_await, fulfils_ret|].
  now apply fulfils_throwIfAborted.
Qed.

Lemma fulfils_forRange {St} (body : nat -> St -> Async St) (step : nat -> St -> St) :
  (forall index st, fulfils (body index st) (step index st)) ->
  forall count index st,
    fulfils (forRange count index body st)
      (fold_left (fun st index => step index st) (seq index count) st).
Proof.
  intros Hbody. induction count as [|count IH]; intros index st; simpl.
  - apply fulfils_ret.
  - eapply fulfils_bind; [apply Hbody|apply IH].
Qed.

(** A counted loop that reads [array[index]] in its body and is not
    cancelled runs the pure loop over the array's elements. *)
Lemma fulfils_loop {A St} (body : nat -> St -> Async St) (step : A -> St -> St)
  (d : A) (l : list A) (st result : St) :
  (forall index st, fulfils (body index st) (step (default d (l !! index)) st)) ->
  fold_left (fun st x => step x st) l st = result ->
  fulfils (forRange (length l) 0 body st) result.
Proof.
  intros Hbody <-. rewrite <- (fold_seq_lookup d step l [] st).
  apply (fulfils_forRange body (fun index st => step (default d (l !! index)) st)).
  exact Hbody.
Qed.

Lemma fulfils_settle {A} (c : Async A) a : fulfils c a -> settle c = Fulfilled a.
Proof. intros Hc. unfold settle. destruct (Hc 0%nat) as [later ->]. reflexivity. Qed.

Lemma unexceptional_ret {A} (a : A) : unexceptional (mret a).
Proof. intros now. exact (fun H => H). Qed.

Lemma unexceptional_bind {A B} (c : Async A) (f : A -> Async B) :
  unexceptional c -> (forall a, unexceptional (f a)) -> unexceptional (c ≫= f).
Proof.
  intros Hc Hf now. specialize (Hc now). unfold mbind, Async_bind.
  destruct (c now) as [[a later]|e]; [apply Hf|exact Hc].
Qed.

Lemma unexceptional_await {A} (c : Async A) :
  unexceptional c -> unexceptional (await c).
Proof.
  intros Hc now. specialize (Hc now). unfold await.
  destruct (c now) as [[a later]|e]; [exact (fun H => H)|exact Hc].
Qed.

Lemma unexceptional_throwIfAborted signal : unexceptional (throwIfAborted signal).
Proof.
  intros now. unfold throwIfAborted.
  destruct (aborted signal now); exact (fun H => H).
Qed.

Lemma unexceptional_chunk signal index :
  unexceptional
    (if (index mod CHUNK_SIZE =? 0)%nat
     then await yieldControl;; throwIfAborted signal
     else mret tt).
Proof.
  destruct (_ =? _)%nat; [|apply unexceptional_ret].
  apply unexceptional_bind; [apply unexceptional_await, unexceptional_ret|].
  intros _. apply unexceptional_throwIfAborted.
Qed.

Lemma unexceptional_forRange {St} (body : nat -> St -> Async St) :
  (forall index st, unexceptional (body index st)) ->
  forall count index st, unexceptional (forRange count index body st).
Proof.
  intros Hbody. induction count as [|count IH]; intros index st; simpl.
  - apply unexceptional_ret.
  - apply unexceptional_bind; [apply Hbody|]. intros st'. apply IH.
Qed.

Lemma unexceptional_outcome {A} (c : Async A) now :
  unexceptional c ->
  ~ cardinalityExceeded
      (match c now with
       | Fulfilled (a, _) => Fulfilled a
       | Rejected e => Rejected e
       end).
Proof.
  intros Hc. specialize (Hc now). destruct (c now) as [[a later]|e]; assumption.
Qed.

(** ** The asynchronous builder *)

Section AsynchronousBuilder.

Context `{Intl}.

Lemma fulfils_getNestedKeysAsync records fields signal axis limit :
  (forall field, In field fields ->
     (Z.of_nat (distinctCount records field) <= limit)%Z) ->
  fulfils (getNestedKeysAsync records fields signal (Some axis) limit)
    (getNestedKeys records fields).
Proof.
  intros Hall now. exists now. rewrite getNestedKeysAsync_outcome.
  apply find_exceedsLimit_None in Hall. now rewrite Hall.
Qed.

Lemma await_getNestedKeysAsync records fields signal axis limit now :
  await (getNestedKeysAsync records fields signal (Some axis) limit) now
  = match find (exceedsLimit records limit) fields with
    | Some field =>
        Rejected (tooManyValues field axis (distinctCount records field))
    | None => Fulfilled (getNestedKeys records fields, S now)
    end.
Proof.
  unfold await. rewrite getNestedKeysAsync_outcome.
  destruct (find _ fields); reflexivity.
Qed.

(** C5: when the token is already cancelled at the invocation the builder
    rejects with the cancelled condition, which is not the
    cardinality-exceeded condition; no table is produced. *)
Theorem aborted_before_start records config signal pivotItemThreshold :
  aborted signal 0 = true ->
  settle (generatePivotTableAsync records config signal pivotItemThreshold)
  = Rejected cancelled
  /\ ~ cardinalityExceeded (A := PivotTable) (Rejected cancelled)
  /\ forall table,
       settle (generatePivotTableAsync records config signal pivotItemThreshold)
       <> Fulfilled table.
Proof.
  intros Hs.
  assert (Hsettle :
    settle (generatePivotTableAsync records config signal pivotItemThreshold)
    = Rejected cancelled).
  { unfold settle, generatePivotTableAsync.
    rewrite (bind_Rejected _ _ _ cancelled); [reflexivity|].
    now apply throwIfAborted_fail. }
  rewrite Hsettle. repeat split; [exact (fun H => H)|discriminate].
Qed.

(** The outcome of the builder when the token is not cancelled at the
    invocation: the first violating row field, else the first violating
    column field, else no cardinality violation at all. *)
Lemma outcome_by_first_violation records config signal pivotItemThreshold :
  let limit := default 1000%Z pivotItemThreshold in
  let filteredData := filterData records (filters config) in
  let outcome :=
    settle (generatePivotTableAsync records config signal pivotItemThreshold) in
  aborted signal 0 = false ->
  match find (exceedsLimit filteredData limit) (rows config) with
  | Some field =>
      outcome
      = Rejected
          (tooManyValues field RowField (distinctCount filteredData field))
  | None =>
      match find (exceedsLimit filteredData limit) (columns config) with
      | Some field =>
          outcome
          = Rejected
              (tooManyValues field ColumnField
                 (distinctCount filteredData field))
      | None => ~ cardinalityExceeded outcome
      end
  end.
Proof.
  intros limit filteredData outcome Hs. subst outcome.
  unfold settle, generatePivotTableAsync. fold limit. fold filteredData.
  rewrite (bind_Fulfilled _ _ 0%nat tt 0%nat) by now apply throwIfAborted_pass.
  pose proof (await_getNestedKeysAsync filteredData (rows config) signal
                RowField limit 0) as Hrows.
  destruct (find (exceedsLimit filteredData limit) (rows config)) as [field|].
  { now rewrite (bind_Rejected _ _ _ _ Hrows). }
  rewrite (bind_Fulfilled _ _ _ _ _ Hrows).
  rewrite (bind_Fulfilled _ _ 1%nat tt 2%nat) by reflexivity.
  pose proof (await_getNestedKeysAsync filteredData (columns config) signal
                ColumnField limit 2) as Hcolumns.
  destruct (find (exceedsLimit filteredData limit) (columns config)) as [field|].
  { now rewrite (bind_Rejected _ _ _ _ Hcolumns). }
  rewrite (bind_Fulfilled _ _ _ _ _ Hcolumns).
  rewrite (bind_Fulfilled _ _ 3%nat tt 4%nat) by reflexivity.
  apply unexceptional_outcome.
  apply unexceptional_bind; [apply unexceptional_throwIfAborted|intros _].
  apply unexceptional_bind.
  { apply unexceptional_forRange. intros index [cells rowTotals].
    apply unexceptional_bind; [apply unexceptional_chunk|intros _].
    apply unexceptional_ret. }
  intros [cells rowTotals].
  apply unexceptional_bind; [apply unexceptional_throwIfAborted|intros _].
  apply unexceptional_bind.
  { apply unexceptional_forRange. intros index columnTotals.
    apply unexceptional_bind; [apply unexceptional_chunk|intros _].
    apply unexceptional_ret. }
  intros columnTotals. apply unexceptional_ret.
Qed.

(** C4: for every record list, configuration and limit, called without a
    token or with a token that is not cancelled at the invocation, the
    builder fails with the cardinality-exceeded condition exactly when some
    grouping field takes strictly more distinct values than the limit; the
    condition names the first such row field, or else the first such column
    field, with its axis and its distinct count. *)
Theorem cardinality_exceeded_iff records config signal pivotItemThreshold :
  let limit := default 1000%Z pivotItemThreshold in
  let filteredData := filterData records (filters config) in
  let outcome :=
    settle (generatePivotTableAsync records config signal pivotItemThreshold) in
  aborted signal 0 = false ->
  (cardinalityExceeded outcome
   <-> exists field,
         In field (rows config ++ columns config)
         /\ (limit < Z.of_nat (distinctCount filteredData field))%Z)
  /\ match find (exceedsLimit filteredData limit) (rows config) with
     | Some field =>
         outcome
         = Rejected
             (tooManyValues field RowField (distinctCount filteredData field))
     | None =>
         match find (exceedsLimit filteredData limit) (columns config) with
         | Some field =>
             outcome
             = Rejected
                 (tooManyValues field ColumnField
                    (distinctCount filteredData field))
         | None => ~ cardinalityExceeded outcome
         end
     end.
Proof.
  intros limit filteredData outcome Hs.
  pose proof (outcome_by_first_violation records config signal
                pivotItemThreshold Hs) as Hout.
  cbv zeta in Hout. fold limit filteredData outcome in Hout.
  split; [|exact Hout].
  destruct (find (exceedsLimit filteredData limit) (rows config))
    as [field|] eqn:Hrows.
  - rewrite Hout. apply find_some in Hrows as [Hin Hex]. split; [|easy].
    intros _. exists field. split; [apply in_or_app; now left|].
    unfold exceedsLimit in Hex. lia.
  - destruct (find (exceedsLimit filteredData limit) (columns config))
      as [field|] eqn:Hcolumns.
    + rewrite Hout. apply find_some in Hcolumns as [Hin Hex]. split; [|easy].
      intros _. exists field. split; [apply in_or_app; now right|].
      unfold exceedsLimit in Hex. lia.
    + split; [contradiction|]. intros (field & Hin & Hex).
      apply in_app_or in Hin as [Hin|Hin].
      * pose proof (proj1 (find_exceedsLimit_None _ _ _) Hrows field Hin). lia.
      * pose proof (proj1 (find_exceedsLimit_None _ _ _) Hcolumns field Hin). lia.
Qed.

(** C1: when no grouping field takes more distinct values than the limit and
    cancellation is never requested, the asynchronous builder resolves to
    the table the synchronous builder returns. *)
Theorem async_agrees_with_sync records config signal pivotItemThreshold :
  let limit := default 1000%Z pivotItemThreshold in
  let filteredData := filterData records (filters config) in
  (forall field, In field (rows config ++ columns config) ->
     (Z.of_nat (distinctCount filteredData field) <= limit)%Z) ->
  neverAborted signal ->
  settle (generatePivotTableAsync records config signal pivotItemThreshold)
  = Fulfilled (generatePivotTable records config).
Proof.
  intros limit filteredData Hlimit Hsignal. apply fulfils_settle.
  rewrite generatePivotTable_unfold. unfold generatePivotTableAsync.
  fold limit. fold filteredData.
  set (rowKeys := getNestedKeys filteredData (rows config)).
  set (columnKeys := getNestedKeys filteredData (columns config)).
  eapply fulfils_bind; [now apply fulfils_throwIfAborted|].
  eapply fulfils_bind.
  { apply fulfils_await, fulfils_getNestedKeysAsync.
    intros field Hfield. apply Hlimit, in_or_app. now left. }
  fold rowKeys.
  eapply fulfils_bind; [apply fulfils_await, fulfils_ret|].
  eapply fulfils_bind.
  { apply fulfils_await, fulfils_getNestedKeysAsync.
    intros field Hfield. apply Hlimit, in_or_app. now right. }
  fold columnKeys.
  eapply fulfils_bind; [apply fulfils_await, fulfils_ret|].
  eapply fulfils_bind; [now apply fulfils_throwIfAborted|].
  eapply fulfils_bind.
  { eapply (fulfils_loop _
              (fun rowKey '(cells, rowTotals) =>
                 (cells ++ [List.map (cellFor config filteredData rowKey) columnKeys],
                  rowTotals ++
                  [aggregatedValues config (rowData config filteredData rowKey)]))
              [] rowKeys).
    - intros index [cells rowTotals].
      eapply fulfils_bind; [now apply fulfils_chunk|].
      cbv zeta. rewrite fold_push. apply fulfils_ret.
    - apply (fold_push_pair
               (fun rowKey => List.map (cellFor config filteredData rowKey) columnKeys)
               (fun rowKey =>
                  aggregatedValues config (rowData config filteredData rowKey))). }
  cbv iota beta.
  eapply fulfils_bind; [now apply fulfils_throwIfAborted|].
  eapply fulfils_bind.
  { eapply (fulfils_loop _
              (fun colKey columnTotals =>
                 columnTotals ++
                 [aggregatedValues config (columnData config filteredData colKey)])
              [] columnKeys).
    - intros index columnTotals.
      eapply fulfils_bind; [now apply fulfils_chunk|]. apply fulfils_ret.
    - apply (fold_push
               (fun colKey =>
                  aggregatedValues config (columnData config filteredData colKey))). }
  apply fulfils_ret.
Qed.

End AsynchronousBuilder.

Lemma aborted_before_start_witness :
  aborted Fixture.cancelledSignal 0 = true
  /\ settle
       (generatePivotTableAsync (H := Reference.host) Fixture.sampleData
          Fixture.salesByRegionAndProduct Fixture.cancelledSignal None)
     = Rejected cancelled.
Proof.
  split; [reflexivity|].
  apply (aborted_before_start (H := Reference.host) Fixture.sampleData
           Fixture.salesByRegionAndProduct Fixture.cancelledSignal None).
  reflexivity.
Defined.

(** With a limit of 3 the four regions are one too many. *)
Lemma cardinality_exceeded_iff_witness :
  aborted None 0 = false
  /\ settle
       (generatePivotTableAsync (H := Reference.host) Fixture.sampleData
          Fixture.salesByRegionAndProduct None (Some 3%Z))
     = Rejected (tooManyValues (H := Reference.host) "region" RowField 4).
Proof.
  split; [reflexivity|].
  generalize
    (proj2
       (cardinality_exceeded_iff (H := Reference.host) Fixture.sampleData
          Fixture.salesByRegionAndProduct None (Some 3%Z) eq_refl)).
  vm_compute. exact (fun outcome => outcome).
Defined.

Lemma async_agrees_with_sync_witness :
  settle
    (generatePivotTableAsync (H := Reference.host) Fixture.sampleData
       Fixture.salesByRegionAndProduct None None)
  = Fulfilled
      (generatePivotTable (H := Reference.host) Fixture.sampleData
         Fixture.salesByRegionAndProduct).
Proof.
  apply (async_agrees_with_sync (H := Reference.host) Fixture.sampleData
           Fixture.salesByRegionAndProduct None None).
  - intros field [<-|[<-|[]]]; apply Z.leb_le; vm_compute; reflexivity.
  - intros now. reflexivity.
Defined.

(** * Further properties *)

(** ** The synchronous builder *)

Lemma forallb_Permutation {A} (f : A -> bool) (l l' : list A) :
  Permutation l l' -> forallb f l = forallb f l'.
Proof.
  induction 1 as [|x l l' _ IH|x y l|l l' l'' _ IH1 _ IH2]; simpl.
  - reflexivity.
  - now rewrite IH.
  - now rewrite !andb_assoc, (andb_comm (f y)).
  - congruence.
Qed.

Lemma Permutation_flat_map_pointwise {A B} (f g : A -> list B) (l : list A) :
  (forall x, In x l -> Permutation (f x) (g x)) ->
  Permutation (flat_map f l) (flat_map g l).
Proof.
  induction l as [|x l IH]; intros Hfg; simpl; [constructor|].
  apply Permutation_app; [apply Hfg; now left|].
  apply IH. intros y Hy. apply Hfg. now right.
Qed.

Lemma filter_true {A} (l : list A) : List.filter (fun _ => true) l = l.
Proof. induction l as [|x l IH]; simpl; congruence. Qed.

Section Builder2.

Context `{Intl}.

Lemma filterData_nil records : filterData records [] = records.
Proof. apply filter_true. Qed.

Lemma filterData_app records filters1 filters2 :
  filterData records (filters1 ++ filters2)
  = filterData (filterData records filters1) filters2.
Proof.
  unfold filterData. rewrite filter_filter. apply filter_ext_In.
  intros item _. apply forallb_app.
Qed.

(** X5: filters compose: filtering by two filter lists in turn is filtering by
    their concatenation, the order of the filters does not matter, and
    filtering a second time changes nothing; the table of a configuration
    is the table of the filtered records under the configuration without
    its filters. *)
Theorem filters_compose records config :
  (forall filters1 filters2,
     filterData records (filters1 ++ filters2)
     = filterData (filterData records filters1) filters2)
  /\ (forall filters1 filters2,
        Permutation filters1 filters2 ->
        filterData records filters1 = filterData records filters2)
  /\ (forall filterList,
        filterData (filterData records filterList) filterList
        = filterData records filterList)
  /\ generatePivotTable records config
     = generatePivotTable (filterData records (filters config))
         (unfiltered config).
Proof.
  split; [|split; [|split]].
  - intros filters1 filters2. apply filterData_app.
  - intros filters1 filters2 Hperm. unfold filterData. apply filter_ext_In.
    intros item _. now apply forallb_Permutation.
  - intros filterList. unfold filterData. rewrite filter_filter.
    apply filter_ext_In. intros item _. apply andb_diag.
  - rewrite !generatePivotTable_unfold. cbv zeta.
    change (filters (unfiltered config)) with (@nil FilterConfig).
    rewrite filterData_nil. reflexivity.
Qed.

Lemma getSubsetData_swap records rowKey colKey rowFields columnFields :
  getSubsetData records rowKey colKey rowFields columnFields
  = getSubsetData records colKey rowKey columnFields rowFields.
Proof.
  unfold getSubsetData. apply filter_ext_In. intros item _. apply andb_comm.
Qed.

Lemma cellFor_transposed config filteredData rowKey colKey :
  cellFor (transposed config) filteredData colKey rowKey
  = transposedCell (cellFor config filteredData rowKey colKey).
Proof.
  unfold cellFor, transposedCell. simpl.
  rewrite (getSubsetData_swap filteredData colKey rowKey). reflexivity.
Qed.

(** X6: exchanging the row fields and the column fields transposes the table. *)
Theorem transposed_table records config :
  let table := generatePivotTable records config in
  let table' := generatePivotTable records (transposed config) in
  rowHeaders table' = columnHeaders table
  /\ columnHeaders table' = rowHeaders table
  /\ rowTotals table' = columnTotals table
  /\ columnTotals table' = rowTotals table
  /\ grandTotal table' = grandTotal table
  /\ forall r c, cellAt table' c r = transposedCell <$> cellAt table r c.
Proof.
  cbv zeta. rewrite !generatePivotTable_unfold. cbv zeta. simpl.
  set (filteredData := filterData records (filters config)).
  set (rowKeys := getNestedKeys filteredData (rows config)).
  set (columnKeys := getNestedKeys filteredData (columns config)).
  split; [reflexivity|]. split; [reflexivity|].
  split.
  { apply map_ext. intros colKey. unfold rowData, columnData. simpl.
    now rewrite getSubsetData_swap. }
  split.
  { apply map_ext. intros rowKey. unfold rowData, columnData. simpl.
    now rewrite getSubsetData_swap. }
  split; [reflexivity|].
  intros r c. unfold cellAt. simpl.
  rewrite !map_lookup.
  destruct (columnKeys !! c) as [colKey|] eqn:Hc;
    destruct (rowKeys !! r) as [rowKey|] eqn:Hr; simpl;
    rewrite ?map_lookup, ?Hc, ?Hr; simpl; try reflexivity.
  now rewrite cellFor_transposed.
Qed.


Lemma flat_map_map {A B C} (f : B -> list C) (g : A -> B) (l : list A) :
  flat_map f (List.map g l) = flat_map (fun x => f (g x)) l.
Proof. induction l as [|x l IH]; simpl; congruence. Qed.

(** The rows split the filtered records. *)
Lemma rows_Permutation records config :
  let filteredData := filterData records (filters config) in
  Permutation
    (flat_map (rowData config filteredData)
       (getNestedKeys filteredData (rows config)))
    filteredData.
Proof.
  intros filteredData.
  rewrite <- (filter_true filteredData) at 3.
  unfold rowData, getSubsetData. simpl.
  apply (buckets_Permutation
           (fun rowKey item => everyKey item (rows config) 0 rowKey && true)
           (fun _ => true)
           (fun item => keyTuple item (rows config))).
  - apply getNestedKeys_NoDup.
  - intros item Hitem _. now apply keyTuple_header.
  - intros rowKey item HrowKey _. rewrite andb_true_r.
    apply everyKey_keyTuple; [reflexivity|].
    now apply getNestedKeys_length in HrowKey.
Qed.

(** X7: the cells split the filtered records: no record is lost and none is
    counted twice. *)
Theorem cells_split_filtered_records records config :
  let table := generatePivotTable records config in
  let filteredData := filterData records (filters config) in
  Permutation (tableRecords table) filteredData
  /\ list_sum
       (List.map
          (fun row => list_sum (List.map (fun cell => length (data cell)) row))
          (cells table))
     = length filteredData.
Proof.
  intros table filteredData.
  assert (Hperm : Permutation (tableRecords table) filteredData).
  { subst table. unfold tableRecords. rewrite generatePivotTable_unfold. simpl.
    fold filteredData. rewrite flat_map_map.
    etransitivity; [|apply rows_Permutation].
    apply Permutation_flat_map_pointwise. intros rowKey _.
    apply row_cells_Permutation. }
  split; [exact Hperm|].
  rewrite <- (Permutation_length Hperm). unfold tableRecords.
  rewrite length_flat_map. f_equal. apply map_ext. intros row.
  symmetry. apply length_flat_map.
Qed.

(** The cells of a column split the column's records. *)
Lemma column_cells_Permutation records config colKey :
  let filteredData := filterData records (filters config) in
  In colKey (getNestedKeys filteredData (columns config)) ->
  Permutation
    (flat_map
       (fun rowKey =>
          getSubsetData filteredData rowKey colKey (rows config) (columns config))
       (getNestedKeys filteredData (rows config)))
    (columnData config filteredData colKey).
Proof.
  intros filteredData HcolKey. unfold columnData, getSubsetData. simpl.
  erewrite (flat_map_ext_in _
              (fun rowKey =>
                 List.filter
                   (fun item =>
                      everyKey item (columns config) 0 colKey
                      && everyKey item (rows config) 0 rowKey)
                   filteredData))
    by (intros; apply filter_ext_In; intros; apply andb_comm).
  apply (buckets_Permutation
           (fun rowKey item => everyKey item (rows config) 0 rowKey)
           (fun item => everyKey item (columns config) 0 colKey)
           (fun item => keyTuple item (rows config))).
  - apply getNestedKeys_NoDup.
  - intros item Hitem _. now apply keyTuple_header.
  - intros rowKey item HrowKey _. apply everyKey_keyTuple; [reflexivity|].
    now apply getNestedKeys_length in HrowKey.
Qed.

(** X8: a column total aggregates the filtered records whose column key tuple
    is the column's header, which are the records of the column's cells. *)
Theorem column_total_over_column_records records config c colKey :
  let table := generatePivotTable records config in
  let filteredData := filterData records (filters config) in
  columnHeaders table !! c = Some colKey ->
  columnTotals table !! c
  = Some (aggregatedValues config (columnData config filteredData colKey))
  /\ (forall item,
        In item (columnData config filteredData colKey)
        <-> In item filteredData /\ keyTuple item (columns config) = colKey)
  /\ Permutation (columnRecords table c) (columnData config filteredData colKey).
Proof.
  intros table filteredData. subst table. unfold columnRecords.
  rewrite generatePivotTable_unfold. simpl. fold filteredData. intros Hc.
  assert (HcolKey : In colKey (getNestedKeys filteredData (columns config))).
  { apply In_lookup. eauto. }
  split; [|split].
  - now rewrite map_lookup, Hc.
  - intros item. unfold columnData.
    rewrite getSubsetData_In;
      [|reflexivity|now apply getNestedKeys_length in HcolKey].
    simpl. split; [intros (? & _ & ->)|intros [? <-]]; tauto.
  - rewrite flat_map_map.
    erewrite (flat_map_ext_in _
                (fun rowKey =>
                   getSubsetData filteredData rowKey colKey (rows config)
                     (columns config)))
      by (intros; now rewrite map_lookup, Hc).
    now apply column_cells_Permutation.
Qed.

Lemma cartesian_count axes :
  length (cartesian axes) = fold_right Nat.mul 1%nat (List.map (@length string) axes).
Proof.
  induction axes as [|axis rest IH]; simpl; [reflexivity|].
  rewrite <- IH. clear IH.
  induction axis as [|v axis IH]; simpl; [reflexivity|].
  now rewrite length_app, length_map, IH.
Qed.

Lemma sortedValues_length records field :
  length (sortedValues records field) = distinctCount records field.
Proof.
  unfold sortedValues.
  rewrite (Permutation_length (sort_Permutation _ _)).
  now rewrite distinctCount_length, collectValues_distinct.
Qed.

Lemma getNestedKeys_count records fields :
  length (getNestedKeys records fields)
  = fold_right Nat.mul 1%nat (List.map (distinctCount records) fields).
Proof.
  rewrite getNestedKeys_cartesian, cartesian_count, List.map_map.
  f_equal. apply map_ext. intros field. apply sortedValues_length.
Qed.

(** X9: the headers of an axis: one key per grouping field in every header, no
    header twice, as many headers as the product of the fields' distinct
    counts, and the key tuple of every record among them. *)
Theorem headers_shape records fields :
  let headers := getNestedKeys records fields in
  Forall (fun header => length header = length fields) headers
  /\ List.NoDup headers
  /\ length headers
     = fold_right Nat.mul 1%nat (List.map (distinctCount records) fields)
  /\ (forall item, In item records -> In (keyTuple item fields) headers).
Proof.
  intros headers. subst headers. split; [|split; [|split]].
  - apply List.Forall_forall. intros header. apply getNestedKeys_length.
  - apply getNestedKeys_NoDup.
  - apply getNestedKeys_count.
  - intros item. apply keyTuple_header.
Qed.

Lemma cellAt_cellFor records config r c cell :
  let filteredData := filterData records (filters config) in
  cellAt (generatePivotTable records config) r c = Some cell ->
  exists rowKey colKey,
    getNestedKeys filteredData (rows config) !! r = Some rowKey
    /\ getNestedKeys filteredData (columns config) !! c = Some colKey
    /\ cell = cellFor config filteredData rowKey colKey.
Proof.
  intros filteredData. unfold cellAt.
  rewrite generatePivotTable_unfold. simpl. fold filteredData.
  rewrite map_lookup.
  destruct (getNestedKeys filteredData (rows config) !! r) as [rowKey|];
    [|discriminate].
  simpl. rewrite map_lookup.
  destruct (getNestedKeys filteredData (columns config) !! c) as [colKey|];
    [|discriminate].
  simpl. intros [= <-]. now exists rowKey, colKey.
Qed.

Lemma emptyDefaults_lookup config valueConfig :
  In valueConfig (values config) ->
  emptyDefaults config !! valueKey valueConfig = Some (NumberValue 0%float).
Proof.
  intros Hin. rewrite <- aggregatedValues_nil.
  now rewrite (aggregatedValues_lookup _ _ _ Hin).
Qed.

(** X10: the value of a cell is the aggregation of the cell's own records; a cell
    without records holds the number 0 under every label, whatever the
    aggregation. *)
Theorem cell_value_of_its_records records config r c cell :
  let table := generatePivotTable records config in
  cellAt table r c = Some cell ->
  value cell = aggregatedValues config (data cell)
  /\ (forall valueConfig,
        In valueConfig (values config) ->
        value cell !! valueKey valueConfig
        = Some
            (aggregate (data cell) (field valueConfig) (aggregation valueConfig)))
  /\ (data cell = [] ->
      value cell = emptyDefaults config
      /\ forall valueConfig,
           In valueConfig (values config) ->
           value cell !! valueKey valueConfig = Some (NumberValue 0%float)).
Proof.
  intros table Hcell. subst table.
  apply cellAt_cellFor in Hcell as (rowKey & colKey & _ & _ & ->).
  unfold cellFor. simpl. split; [reflexivity|]. split.
  - intros valueConfig Hin. now apply aggregatedValues_lookup.
  - intros ->. rewrite aggregatedValues_nil. split; [reflexivity|].
    intros valueConfig. apply emptyDefaults_lookup.
Qed.

(** X11: with a single row field every row of the table holds a record. *)
Theorem single_field_rows_are_inhabited records config rowField r rowKey :
  let table := generatePivotTable records config in
  let filteredData := filterData records (filters config) in
  rows config = [rowField] ->
  rowHeaders table !! r = Some rowKey ->
  exists item c,
    In item filteredData
    /\ rowKey = [coerced item rowField]
    /\ inCell table r c item.
Proof.
  intros table filteredData Hrows Hheader.
  assert (Hr : getNestedKeys filteredData (rows config) !! r = Some rowKey).
  { subst table. now rewrite generatePivotTable_unfold in Hheader. }
  clear Hheader.
  assert (Hin : In rowKey (getNestedKeys filteredData (rows config))).
  { apply In_lookup. eauto. }
  apply getNestedKeys_In in Hin. rewrite Hrows in Hin.
  inversion Hin as [|v f keys fs Hv Hrest]; subst.
  inversion Hrest; subst.
  apply coercedValues_In in Hv as (item & Hitem & ->).
  destruct (proj1 (In_lookup _ _)
              (keyTuple_header filteredData (columns config) item Hitem))
    as [c Hc].
  exists item, c. split; [assumption|]. split; [reflexivity|].
  apply inCell_keys. fold filteredData. rewrite Hrows in *. simpl.
  split; [assumption|]. split; [exact Hr|exact Hc].
Qed.


(** The columns split the filtered records. *)
Lemma columns_Permutation records config :
  let filteredData := filterData records (filters config) in
  Permutation
    (flat_map (columnData config filteredData)
       (getNestedKeys filteredData (columns config)))
    filteredData.
Proof.
  intros filteredData.
  rewrite <- (filter_true filteredData) at 3.
  unfold columnData, getSubsetData. simpl.
  apply (buckets_Permutation
           (fun colKey item => everyKey item (columns config) 0 colKey)
           (fun _ => true)
           (fun item => keyTuple item (columns config))).
  - apply getNestedKeys_NoDup.
  - intros item Hitem _. now apply keyTuple_header.
  - intros colKey item HcolKey _.
    apply everyKey_keyTuple; [reflexivity|].
    now apply getNestedKeys_length in HcolKey.
Qed.

Lemma aggregatedValues_Count config subset :
  values config = [] ->
  aggregatedValues config subset
  = {[ "Count" := NumberValue (JS.ofNat (length subset)) ]}.
Proof. intros Hnone. unfold aggregatedValues. now rewrite Hnone. Qed.

(** X12: without a value field every total is a count of records, and the
    counts add up: the row totals count as many records as the grand total,
    and so do the column totals. *)
Theorem count_totals_add_up records config :
  let table := generatePivotTable records config in
  let filteredData := filterData records (filters config) in
  let count (subset : list DataItem) : AggregatedValues :=
    {[ "Count" := NumberValue (JS.ofNat (length subset)) ]} in
  values config = [] ->
  rowTotals table
  = List.map (fun rowKey => count (rowData config filteredData rowKey))
      (rowHeaders table)
  /\ columnTotals table
     = List.map (fun colKey => count (columnData config filteredData colKey))
         (columnHeaders table)
  /\ grandTotal table = count filteredData
  /\ list_sum
       (List.map (fun rowKey => length (rowData config filteredData rowKey))
          (rowHeaders table))
     = length filteredData
  /\ list_sum
       (List.map (fun colKey => length (columnData config filteredData colKey))
          (columnHeaders table))
     = length filteredData.
Proof.
  intros table filteredData count Hnone. subst table count.
  rewrite generatePivotTable_unfold. cbv zeta. simpl. fold filteredData.
  split; [|split; [|split; [|split]]].
  - apply map_ext. intros rowKey. now apply aggregatedValues_Count.
  - apply map_ext. intros colKey. now apply aggregatedValues_Count.
  - now apply aggregatedValues_Count.
  - rewrite <- length_flat_map.
    apply Permutation_length, rows_Permutation.
  - rewrite <- length_flat_map.
    apply Permutation_length, columns_Permutation.
Qed.

End Builder2.

(** The column of product A of the sample table. *)
Lemma column_total_over_column_records_witness :
  let table :=
    generatePivotTable (H := Reference.host) Fixture.sampleData
      Fixture.salesByRegionAndProduct in
  columnHeaders table !! 0%nat = Some ["A"]
  /\ numberUnder (default ∅ (columnTotals table !! 0%nat)) "sales (sum)"
     = 390%float
  /\ Permutation (columnRecords table 0)
       (columnData Fixture.salesByRegionAndProduct
          (filterData Fixture.sampleData []) ["A"]).
Proof.
  split; [vm_compute; reflexivity|]. split; [vm_compute; reflexivity|].
  apply (column_total_over_column_records (H := Reference.host)
           Fixture.sampleData Fixture.salesByRegionAndProduct 0 ["A"]).
  vm_compute. reflexivity.
Defined.

(** The cell of North and product A of the sample table. *)
Lemma cell_value_of_its_records_witness :
  let table :=
    generatePivotTable (H := Reference.host) Fixture.sampleData
      Fixture.salesByRegionAndProduct in
  let cell :=
    default {| value := ∅; rowKeys := []; columnKeys := []; data := [] |}
      (cellAt table 1 0) in
  cellAt table 1 0 = Some cell
  /\ value cell = aggregatedValues Fixture.salesByRegionAndProduct (data cell).
Proof.
  split; [vm_compute; reflexivity|].
  apply (cell_value_of_its_records (H := Reference.host) Fixture.sampleData
           Fixture.salesByRegionAndProduct 1 0).
  vm_compute. reflexivity.
Defined.

(** The first row of the sample table, East, holds a record. *)
Lemma single_field_rows_are_inhabited_witness :
  let table :=
    generatePivotTable (H := Reference.host) Fixture.sampleData
      Fixture.salesByRegionAndProduct in
  rowHeaders table !! 0%nat = Some ["East"]
  /\ exists item c,
       In item (filterData Fixture.sampleData [])
       /\ ["East"] = [coerced item "region"]
       /\ inCell table 0 c item.
Proof.
  split; [vm_compute; reflexivity|].
  apply (single_field_rows_are_inhabited (H := Reference.host)
           Fixture.sampleData Fixture.salesByRegionAndProduct "region" 0 ["East"]).
  - reflexivity.
  - vm_compute. reflexivity.
Defined.

(** The six sample records, counted by region and by product. *)
Lemma count_totals_add_up_witness :
  let table :=
    generatePivotTable (H := Reference.host) Fixture.sampleData
      Fixture.countByRegionAndProduct in
  grandTotal table = {[ "Count" := NumberValue 6 ]}
  /\ list_sum
       (List.map
          (fun rowKey =>
             length
               (rowData Fixture.countByRegionAndProduct
                  (filterData Fixture.sampleData []) rowKey))
          (rowHeaders table))
     = 6%nat.
Proof.
  split; [vm_compute; reflexivity|].
  apply (count_totals_add_up (H := Reference.host) Fixture.sampleData
           Fixture.countByRegionAndProduct).
  reflexivity.
Defined.

(** ** The asynchronous builder, for any token *)

Lemma chunkStarts_S index count :
  chunkStarts index (S count)
  = ((if (index mod CHUNK_SIZE =? 0)%nat then 1 else 0)
     + chunkStarts (S index) count)%nat.
Proof.
  unfold chunkStarts.
  change (seq index (S count)) with (index :: seq (S index) count).
  cbn [List.filter]. destruct (index mod CHUNK_SIZE =? 0)%nat; reflexivity.
Qed.

Lemma chunkCount_S count :
  chunkCount (S count)
  = (chunkCount count + if (count mod CHUNK_SIZE =? 0)%nat then 1 else 0)%nat.
Proof.
  unfold chunkCount, CHUNK_SIZE.
  change (100 - 1)%nat with 99%nat.
  pose proof (Nat.div_mod_eq count 100) as Hq.
  pose proof (Nat.mod_upper_bound count 100 ltac:(lia)) as Hlt.
  set (q := (count / 100)%nat) in *. set (m := (count mod 100)%nat) in *.
  destruct (Nat.eqb_spec m 0) as [Hz|Hnz].
  - rewrite <- (Nat.div_unique (count + 99) 100 q 99) by lia.
    rewrite <- (Nat.div_unique (S count + 99) 100 (S q) 0) by lia.
    lia.
  - rewrite <- (Nat.div_unique (count + 99) 100 (S q) (m - 1)) by lia.
    rewrite <- (Nat.div_unique (S count + 99) 100 (S q) m) by lia.
    lia.
Qed.

Lemma chunkStarts_from_zero count : chunkStarts 0 count = chunkCount count.
Proof.
  induction count as [|count IH]; [reflexivity|].
  rewrite chunkCount_S, <- IH. unfold chunkStarts.
  rewrite seq_S, List.filter_app, length_app. f_equal.
  cbn [List.filter Nat.add].
  destruct (count mod CHUNK_SIZE =? 0)%nat; reflexivity.
Qed.

Section Async2.

Context `{Intl}.

(** A loop that yields and looks at the token at the start of every chunk. *)
Lemma forRange_chunked {St} signal (body : nat -> St -> Async St)
  (step : nat -> St -> St) :
  (forall index st now,
     body index st now
     = ((if (index mod CHUNK_SIZE =? 0)%nat
         then await yieldControl;; throwIfAborted signal
         else mret tt);;
        mret (step index st)) now) ->
  forall count index st now,
    forRange count index body st now
    = if existsb (aborted signal) (seq (S now) (chunkStarts index count))
      then Rejected cancelled
      else Fulfilled
             (fold_left (fun st index => step index st) (seq index count) st,
              (now + chunkStarts index count)%nat).
Proof.
  intros Hbody. induction count as [|count IH]; intros index st now.
  - simpl. unfold mret, Async_ret. now rewrite Nat.add_0_r.
  - rewrite chunkStarts_S. simpl forRange.
    unfold mbind at 1. unfold Async_bind at 1. rewrite Hbody.
    destruct (index mod CHUNK_SIZE =? 0)%nat.
    + unfold mbind, Async_bind, await, yieldControl, mret, Async_ret,
        throwIfAborted.
      simpl. destruct (aborted signal (S now)); [reflexivity|].
      simpl. rewrite IH. now rewrite Nat.add_succ_r.
    + unfold mbind, Async_bind, mret, Async_ret. simpl. now rewrite IH.
Qed.


Lemma loop_chunked {A St} signal (body : nat -> St -> Async St)
  (step : A -> St -> St) (d : A) (l : list A) (st result : St) now :
  (forall index st now,
     body index st now
     = ((if (index mod CHUNK_SIZE =? 0)%nat
         then await yieldControl;; throwIfAborted signal
         else mret tt);;
        mret (step (default d (l !! index)) st)) now) ->
  fold_left (fun st x => step x st) l st = result ->
  forRange (length l) 0 body st now
  = if existsb (aborted signal) (seq (S now) (chunkCount (length l)))
    then Rejected cancelled
    else Fulfilled (result, (now + chunkCount (length l))%nat).
Proof.
  intros Hbody <-.
  rewrite (forRange_chunked signal body
             (fun index st => step (default d (l !! index)) st) Hbody).
  rewrite chunkStarts_from_zero.
  now rewrite <- (fold_seq_lookup d step l [] st).
Qed.

Lemma existsb_seq_false (f : nat -> bool) start count t :
  existsb f (seq start count) = false ->
  (start <= t < start + count)%nat -> f t = false.
Proof.
  intros Hnone Ht. destruct (f t) eqn:Hf; [|reflexivity].
  assert (existsb f (seq start count) = true); [|congruence].
  apply existsb_exists. exists t. split; [apply in_seq; lia|assumption].
Qed.

(** The run of the asynchronous builder from the invocation, for any token:
    its outcome and, when it fulfils, the number of suspensions. *)
Lemma async_run records config signal pivotItemThreshold :
  let limit := default 1000%Z pivotItemThreshold in
  let filteredData := filterData records (filters config) in
  let chunks :=
    (chunkCount (length (getNestedKeys filteredData (rows config)))
     + chunkCount (length (getNestedKeys filteredData (columns config))))%nat in
  generatePivotTableAsync records config signal pivotItemThreshold 0%nat
  = if aborted signal 0 then Rejected cancelled
    else
      match find (exceedsLimit filteredData limit) (rows config) with
      | Some field =>
          Rejected
            (tooManyValues field RowField (distinctCount filteredData field))
      | None =>
          match find (exceedsLimit filteredData limit) (columns config) with
          | Some field =>
              Rejected
                (tooManyValues field ColumnField
                   (distinctCount filteredData field))
          | None =>
              if existsb (aborted signal) (seq 4 (S chunks))
              then Rejected cancelled
              else Fulfilled (generatePivotTable records config, (4 + chunks)%nat)
          end
      end.
Proof.
  intros limit filteredData chunks.
  rewrite generatePivotTable_unfold. cbv zeta.
  unfold generatePivotTableAsync. fold limit. fold filteredData.
  set (rowKeys := getNestedKeys filteredData (rows config)) in *.
  set (columnKeys := getNestedKeys filteredData (columns config)) in *.
  destruct (aborted signal 0) eqn:H0.
  { rewrite (bind_Rejected _ _ _ cancelled); [reflexivity|].
    now apply throwIfAborted_fail. }
  rewrite (bind_Fulfilled _ _ 0%nat tt 0%nat) by now apply throwIfAborted_pass.
  pose proof (await_getNestedKeysAsync filteredData (rows config) signal
                RowField limit 0) as Hrows.
  destruct (find (exceedsLimit filteredData limit) (rows config)) as [field|].
  { now rewrite (bind_Rejected _ _ _ _ Hrows). }
  rewrite (bind_Fulfilled _ _ _ _ _ Hrows). fold rowKeys.
  rewrite (bind_Fulfilled _ _ 1%nat tt 2%nat) by reflexivity.
  pose proof (await_getNestedKeysAsync filteredData (columns config) signal
                ColumnField limit 2) as Hcolumns.
  destruct (find (exceedsLimit filteredData limit) (columns config)) as [field|].
  { now rewrite (bind_Rejected _ _ _ _ Hcolumns). }
  rewrite (bind_Fulfilled _ _ _ _ _ Hcolumns). fold columnKeys.
  rewrite (bind_Fulfilled _ _ 3%nat tt 4%nat) by reflexivity.
  change (seq 4 (S chunks)) with (4%nat :: seq 5 chunks). cbn [existsb].
  destruct (aborted signal 4) eqn:H4.
  { rewrite (bind_Rejected _ _ _ cancelled); [reflexivity|].
    now apply throwIfAborted_fail. }
  rewrite (bind_Fulfilled _ _ 4%nat tt 4%nat) by now apply throwIfAborted_pass.
  subst chunks. rewrite seq_app, existsb_app. cbn [orb].
  set (rowChunks := chunkCount (length rowKeys)).
  set (columnChunks := chunkCount (length columnKeys)).
  match goal with
  | |- (forRange _ _ ?body _ ≫= _) _ = _ => set (rowBody := body)
  end.
  assert (Hloop :
    forRange (length rowKeys) 0 rowBody ([], []) 4%nat
    = if existsb (aborted signal) (seq 5 rowChunks)
      then Rejected cancelled
      else Fulfilled
             ((List.map
                 (fun rowKey =>
                    List.map (cellFor config filteredData rowKey) columnKeys)
                 rowKeys,
               List.map
                 (fun rowKey =>
                    aggregatedValues config (rowData config filteredData rowKey))
                 rowKeys),
              (4 + rowChunks)%nat)).
  { apply (loop_chunked signal rowBody
             (fun rowKey '(cells, rowTotals) =>
                (cells ++ [List.map (cellFor config filteredData rowKey) columnKeys],
                 rowTotals ++
                 [aggregatedValues config (rowData config filteredData rowKey)]))
             [] rowKeys).
    - intros index [cells0 totals0] now. subst rowBody. cbv beta iota zeta.
      now rewrite fold_push.
    - apply (fold_push_pair
               (fun rowKey => List.map (cellFor config filteredData rowKey) columnKeys)
               (fun rowKey =>
                  aggregatedValues config (rowData config filteredData rowKey))). }
  destruct (existsb (aborted signal) (seq 5 rowChunks)) eqn:Hrow.
  { now rewrite (bind_Rejected _ _ _ _ Hloop). }
  rewrite (bind_Fulfilled _ _ _ _ _ Hloop). cbv iota beta. clear Hloop rowBody.
  assert (Hafter : aborted signal (4 + rowChunks) = false).
  { destruct rowChunks as [|n] eqn:E; [now rewrite Nat.add_0_r|].
    apply (existsb_seq_false _ _ _ _ Hrow). lia. }
  rewrite (bind_Fulfilled _ _ _ tt (4 + rowChunks)%nat)
    by now apply throwIfAborted_pass.
  match goal with
  | |- (forRange _ _ ?body _ ≫= _) _ = _ => set (columnBody := body)
  end.
  assert (Hloop :
    forRange (length columnKeys) 0 columnBody [] (4 + rowChunks)%nat
    = if existsb (aborted signal) (seq (5 + rowChunks) columnChunks)
      then Rejected cancelled
      else Fulfilled
             (List.map
                (fun colKey =>
                   aggregatedValues config (columnData config filteredData colKey))
                columnKeys,
              (4 + rowChunks + columnChunks)%nat)).
  { apply (loop_chunked signal columnBody
             (fun colKey columnTotals =>
                columnTotals ++
                [aggregatedValues config (columnData config filteredData colKey)])
             [] columnKeys).
    - intros index columnTotals now. reflexivity.
    - apply (fold_push
               (fun colKey =>
                  aggregatedValues config (columnData config filteredData colKey))). }
  destruct (existsb (aborted signal) (seq (5 + rowChunks) columnChunks)) eqn:Hcol.
  { now rewrite (bind_Rejected _ _ _ _ Hloop). }
  rewrite (bind_Fulfilled _ _ _ _ _ Hloop). reflexivity.
Qed.




(** X14: a run that fulfils was suspended four times around the key derivation
    and once at the start of every chunk of [CHUNK_SIZE] rows and of
    [CHUNK_SIZE] columns. *)
Theorem suspensions_of_a_fulfilled_run
  records config signal pivotItemThreshold table :
  settle (generatePivotTableAsync records config signal pivotItemThreshold)
  = Fulfilled table ->
  suspensions (generatePivotTableAsync records config signal pivotItemThreshold)
  = Some
      (4 + chunkCount (length (rowHeaders table))
       + chunkCount (length (columnHeaders table)))%nat.
Proof.
  unfold settle, suspensions. rewrite async_run. cbv zeta.
  destruct (aborted signal 0); [discriminate|].
  destruct (find _ (rows config)); [discriminate|].
  destruct (find _ (columns config)); [discriminate|].
  destruct (existsb (aborted signal) _); [discriminate|].
  intros [= <-]. rewrite generatePivotTable_unfold. reflexivity.
Qed.


Lemma product_le_pow (bound : nat) (counts : list nat) :
  Forall (fun count => (count <= bound)%nat) counts ->
  (fold_right Nat.mul 1%nat counts <= bound ^ length counts)%nat.
Proof.
  induction 1 as [|count counts Hcount _ IH]; simpl; [lia|].
  now apply Nat.mul_le_mono.
Qed.

Lemma getNestedKeys_bounded records fields limit :
  find (exceedsLimit records limit) fields = None ->
  (length (getNestedKeys records fields) <= Z.to_nat limit ^ length fields)%nat.
Proof.
  intros Hnone. rewrite getNestedKeys_count.
  rewrite <- (length_map (distinctCount records) fields).
  apply product_le_pow, List.Forall_forall. intros count Hcount.
  apply in_map_iff in Hcount as (field & <- & Hfield).
  pose proof (proj1 (find_exceedsLimit_None _ _ _) Hnone field Hfield). lia.
Qed.

(** X16: the limit bounds the table a fulfilled run delivers: an axis of [k]
    grouping fields has at most [limit ^ k] headers. *)
Theorem fulfilled_table_is_bounded records config signal limit table :
  settle (generatePivotTableAsync records config signal (Some limit))
  = Fulfilled table ->
  (length (rowHeaders table) <= Z.to_nat limit ^ length (rows config))%nat
  /\ (length (columnHeaders table)
      <= Z.to_nat limit ^ length (columns config))%nat
  /\ (length (cells table) <= Z.to_nat limit ^ length (rows config))%nat
  /\ Forall
       (fun row =>
          (length row <= Z.to_nat limit ^ length (columns config))%nat)
       (cells table).
Proof.
  unfold settle. rewrite async_run. cbv zeta. simpl default.
  destruct (aborted signal 0); [discriminate|].
  destruct (find _ (rows config)) eqn:Hrows; [discriminate|].
  destruct (find _ (columns config)) eqn:Hcolumns; [discriminate|].
  destruct (existsb (aborted signal) _); [discriminate|].
  intros [= <-]. rewrite generatePivotTable_unfold. cbv zeta. simpl.
  apply getNestedKeys_bounded in Hrows, Hcolumns.
  rewrite length_map. repeat split; try assumption.
  apply List.Forall_forall. intros row Hrow.
  apply in_map_iff in Hrow as (rowKey & <- & _). now rewrite length_map.
Qed.

End Async2.

(** Four rows and three columns: one chunk each, six suspensions. *)
Lemma suspensions_of_a_fulfilled_run_witness :
  suspensions
    (generatePivotTableAsync (H := Reference.host) Fixture.sampleData
       Fixture.salesByRegionAndProduct None None)
  = Some 6%nat.
Proof.
  apply (suspensions_of_a_fulfilled_run (H := Reference.host)
           Fixture.sampleData Fixture.salesByRegionAndProduct None None
           (generatePivotTable (H := Reference.host) Fixture.sampleData
              Fixture.salesByRegionAndProduct)).
  vm_compute. reflexivity.
Defined.


(** With a limit of 4 the sample table has at most four rows. *)
Lemma fulfilled_table_is_bounded_witness :
  let table :=
    generatePivotTable (H := Reference.host) Fixture.sampleData
      Fixture.salesByRegionAndProduct in
  settle
    (generatePivotTableAsync (H := Reference.host) Fixture.sampleData
       Fixture.salesByRegionAndProduct None (Some 4%Z))
  = Fulfilled table
  /\ (length (rowHeaders table) <= 4)%nat.
Proof.
  split; [vm_compute; reflexivity|].
  apply (fulfilled_table_is_bounded (H := Reference.host) Fixture.sampleData
           Fixture.salesByRegionAndProduct None 4%Z).
  vm_compute. reflexivity.
Defined.

(** ** The aggregator *)

(** X17: the standard deviation is the square root of the variance, on every input. *)
Theorem deviation_is_root_of_variance (records : list DataItem) field :
  exists variance,
    aggregate records field SampleVariance = NumberValue variance
    /\ aggregate records field SampleStandardDeviation
       = NumberValue (PrimFloat.sqrt variance).
Proof.
  destruct records as [|item rest].
  - exists 0%float. split; reflexivity.
  - cbn [aggregate].
    destruct (length _ <=? 1)%nat.
    + exists 0%float. split; reflexivity.
    + eexists. split; reflexivity.
Qed.

(** X18: a field without a single number: every statistical aggregation is 0. *)
Theorem statistics_of_a_field_without_numbers (records : list DataItem) field fn :
  numbersOf records field = [] ->
  statistical fn = true ->
  aggregate records field fn = NumberValue 0%float.
Proof.
  unfold numbersOf, presentValues. intros Hnone Hfn.
  destruct records as [|item rest]; [reflexivity|].
  destruct fn; try discriminate Hfn; cbn [aggregate]; rewrite Hnone;
    reflexivity.
Qed.

Lemma sameValueZero_refl v : JS.sameValueZero v v = true.
Proof.
  destruct v as [| |b|x|s]; simpl; try reflexivity.
  - now destruct b.
  - unfold JS.isNaN, PrimFloat.is_nan. now destruct (PrimFloat.eqb x x).
  - apply String.eqb_refl.
Qed.

Lemma valueSet_keeps values : forall members m,
  In m members -> In m (fold_left JS.valueSetAdd values members).
Proof.
  induction values as [|y values IH]; intros members m Hm; simpl;
    [assumption|].
  apply IH. unfold JS.valueSetAdd.
  destruct (existsb _ members); [assumption|]. apply in_or_app. now left.
Qed.

(** The members of a [Set] filled from a list. *)
Lemma valueSet_fold values : forall members,
  (length (fold_left JS.valueSetAdd values members)
   <= length members + length values)%nat
  /\ (forall v, In v (fold_left JS.valueSetAdd values members) ->
        In v members \/ In v values)
  /\ (forall v, In v members \/ In v values ->
        existsb (JS.sameValueZero v) (fold_left JS.valueSetAdd values members)
        = true)
  /\ ((forall i j v w, (i < j)%nat ->
         members !! i = Some v -> members !! j = Some w ->
         JS.sameValueZero w v = false) ->
      forall i j v w, (i < j)%nat ->
        fold_left JS.valueSetAdd values members !! i = Some v ->
        fold_left JS.valueSetAdd values members !! j = Some w ->
        JS.sameValueZero w v = false).
Proof.
  induction values as [|x values IH]; intros members; simpl.
  - split; [lia|]. split; [tauto|]. split; [|tauto].
    intros v [Hv|[]]. apply existsb_exists. exists v.
    split; [assumption|apply sameValueZero_refl].
  - destruct (IH (JS.valueSetAdd members x)) as (Hlen & Hin & Hcover & Hfresh).
    unfold JS.valueSetAdd in *.
    destruct (existsb (JS.sameValueZero x) members) eqn:Hhas.
    + split; [lia|]. split; [|split].
      * intros v Hv. destruct (Hin v Hv); tauto.
      * intros v [Hv|[<-|Hv]]; [apply Hcover; tauto| |apply Hcover; tauto].
        apply existsb_exists in Hhas as (m & Hm & Hsame).
        apply existsb_exists. exists m. split; [|assumption].
        now apply valueSet_keeps.
      * exact Hfresh.
    + rewrite length_app in Hlen. simpl in Hlen. split; [lia|].
      split; [|split].
      * intros v Hv. destruct (Hin v Hv) as [Hm|Hm]; [|tauto].
        apply in_app_or in Hm as [Hm|[<-|[]]]; tauto.
      * intros v [Hv|[<-|Hv]]; apply Hcover; [left|left|right];
          try assumption; apply in_or_app; [now left|right; now left].
      * intros Hold. apply Hfresh. intros i j v w Hij Hi Hj.
        destruct (lookup_app_Some members [x] j w) as [Hsplit _].
        destruct (Hsplit Hj) as [Hj'|[Hge Hj']].
        -- apply (Hold i j v w Hij); [|assumption].
           rewrite lookup_app_l in Hi; [assumption|].
           apply lookup_lt_Some in Hj'. lia.
        -- destruct (j - length members)%nat eqn:E; [|discriminate].
           injection Hj' as <-.
           rewrite lookup_app_l in Hi by lia.
           destruct (JS.sameValueZero x v) eqn:Hsame; [|reflexivity].
           assert (existsb (JS.sameValueZero x) members = true); [|congruence].
           apply existsb_exists. exists v. split; [|assumption].
           apply In_lookup. eauto.
Qed.

Lemma presentValues_length records field :
  (length (presentValues records field) <= length records)%nat.
Proof.
  unfold presentValues.
  etransitivity; [apply List.filter_length_le|]. now rewrite length_map.
Qed.

Lemma presentValues_In records field v :
  In v (presentValues records field)
  <-> (exists item, In item records /\ get item field = v)
      /\ v <> JS.Undefined /\ v <> JS.Null.
Proof.
  unfold presentValues. rewrite filter_In, in_map_iff, andb_true_iff.
  split.
  - intros [(item & Hget & Hin) Hv]. split; [now exists item|].
    destruct v; simpl in Hv; destruct Hv; split; congruence.
  - intros [(item & Hin & Hget) Hv]. split; [now exists item|].
    destruct v; simpl; destruct Hv; split; congruence.
Qed.

Lemma SFeqb_finite s m e :
  SFeqb (S754_finite s m e) (S754_finite s m e) = true.
Proof.
  unfold SFeqb. simpl.
  change (Pos.compare_cont Eq m m) with (Pos.compare m m).
  rewrite Z.compare_refl, Pos.compare_refl. now destruct s.
Qed.

Lemma SFsame_trans x y z :
  SFeqb x y || (negb (SFeqb x x) && negb (SFeqb y y)) = true ->
  SFeqb y z || (negb (SFeqb y y) && negb (SFeqb z z)) = true ->
  SFeqb x z || (negb (SFeqb x x) && negb (SFeqb z z)) = true.
Proof.
  destruct x as [sx|sx| |sx mx ex], y as [sy|sy| |sy my ey],
    z as [sz|sz| |sz mz ez];
    rewrite ?SFeqb_finite, ?orb_false_r; cbn [negb andb orb];
    try (unfold SFeqb; simpl;
         repeat match goal with s : bool |- _ => destruct s end;
         simpl; first [discriminate | reflexivity]).
  unfold SFeqb. simpl.
  change (Pos.compare_cont Eq) with Pos.compare.
  destruct sx, sy, sz; simpl; try discriminate;
    destruct (Z.compare_spec ex ey), (Z.compare_spec ey ez),
      (Z.compare_spec ex ez);
    simpl; try discriminate; try reflexivity; try lia; subst;
    destruct (Pos.compare_spec mx my), (Pos.compare_spec my mz),
      (Pos.compare_spec mx mz);
    simpl; try discriminate; try reflexivity; try lia.
Qed.

Lemma sameValueZero_trans u v w :
  JS.sameValueZero u v = true -> JS.sameValueZero v w = true ->
  JS.sameValueZero u w = true.
Proof.
  destruct u as [| |a|x|s], v as [| |b|y|t], w as [| |c|z|r]; simpl;
    try discriminate; try reflexivity.
  - destruct a, b, c; simpl; congruence.
  - unfold JS.isNaN, PrimFloat.is_nan. rewrite !FloatAxioms.eqb_spec.
    apply SFsame_trans.
  - intros Hst Htr. apply String.eqb_eq in Hst, Htr. subst.
    apply String.eqb_refl.
Qed.

Lemma firstOccurrencesAfter_cons earlier v values :
  firstOccurrencesAfter earlier (v :: values)
  = (if existsb (JS.sameValueZero v) earlier then [] else [v])
    ++ firstOccurrencesAfter (earlier ++ [v]) values.
Proof.
  unfold firstOccurrencesAfter. rewrite imap_cons. cbn [concat take].
  rewrite app_nil_r. f_equal. f_equal. apply imap_ext.
  intros position w _. cbn [compose take]. now rewrite <- app_assoc.
Qed.

(** A [Set] filled from a list holds the first occurrences of the list. *)
Lemma valueSet_firstOccurrences values : forall members earlier,
  (forall m, In m members -> In m earlier) ->
  (forall u, In u earlier -> existsb (JS.sameValueZero u) members = true) ->
  fold_left JS.valueSetAdd values members
  = members ++ firstOccurrencesAfter earlier values.
Proof.
  induction values as [|v values IH]; intros members earlier Hin Hcover.
  - simpl. unfold firstOccurrencesAfter. simpl. now rewrite app_nil_r.
  - rewrite firstOccurrencesAfter_cons. cbn [fold_left].
    assert (Hsame :
      existsb (JS.sameValueZero v) members
      = existsb (JS.sameValueZero v) earlier).
    { apply eq_true_iff_eq. rewrite !existsb_exists. split.
      - intros (m & Hm & Hvm). exists m. split; [now apply Hin|assumption].
      - intros (u & Hu & Hvu).
        specialize (Hcover u Hu). apply existsb_exists in Hcover.
        destruct Hcover as (m & Hm & Hum). exists m.
        split; [assumption|]. now apply (sameValueZero_trans v u m). }
    unfold JS.valueSetAdd at 2. rewrite Hsame.
    destruct (existsb (JS.sameValueZero v) earlier) eqn:Hearlier.
    + rewrite (IH members (earlier ++ [v])); [reflexivity| |].
      * intros m Hm. apply in_or_app. left. now apply Hin.
      * intros u Hu. apply in_app_or in Hu as [Hu|[<-|[]]];
          [now apply Hcover|congruence].
    + rewrite (IH (members ++ [v]) (earlier ++ [v])).
      * now rewrite <- app_assoc.
      * intros m Hm. apply in_or_app.
        apply in_app_or in Hm as [Hm|Hm]; [left; now apply Hin|now right].
      * intros u Hu. rewrite existsb_app.
        apply in_app_or in Hu as [Hu|[<-|[]]].
        -- now rewrite (Hcover u Hu).
        -- cbn [existsb]. rewrite sameValueZero_refl.
           now rewrite orb_true_r.
Qed.

(** X19: [listUnique] lists and [countUnique] counts the same members: the first
    occurrences of the present values of the field, in the order of the
    records, values being the same when they are the same under
    SameValueZero. Every present value is the same as a member, and no two
    members are the same. *)
Theorem unique_list_and_unique_count (records : list DataItem) field :
  let members := firstOccurrences (presentValues records field) in
  records <> [] ->
  aggregate records field ListUnique
  = ListValue (List.map JS.ToString members)
  /\ aggregate records field CountUnique
     = NumberValue (JS.ofNat (length members))
  /\ (length members <= length records)%nat
  /\ (forall v, In v members -> In v (presentValues records field))
  /\ (forall v, In v (presentValues records field) ->
        exists member,
          In member members /\ JS.sameValueZero v member = true)
  /\ (forall i j v w, (i < j)%nat ->
        members !! i = Some v -> members !! j = Some w ->
        JS.sameValueZero w v = false).
Proof.
  intros members Hsome. destruct records as [|item rest]; [contradiction|].
  assert (Hmembers :
    JS.valueSet (presentValues (item :: rest) field) = members).
  { unfold JS.valueSet, members, firstOccurrences.
    now rewrite (valueSet_firstOccurrences _ [] []). }
  split; [cbn [aggregate]; now rewrite <- Hmembers|].
  split; [cbn [aggregate]; now rewrite <- Hmembers|].
  rewrite <- Hmembers.
  destruct (valueSet_fold (presentValues (item :: rest) field) [])
    as (Hlen & Hin & Hcover & Hfresh).
  split; [|split; [|split]].
  - unfold JS.valueSet. etransitivity; [exact Hlen|].
    apply presentValues_length.
  - intros v Hv. destruct (Hin v Hv) as [[]|Hp]. exact Hp.
  - intros v Hv. specialize (Hcover v (or_intror Hv)).
    apply existsb_exists in Hcover as (member & Hmember & Hsame).
    now exists member.
  - apply Hfresh. intros i j v w _ Hi. discriminate Hi.
Qed.

(** *** The order of floats *)

Lemma SFltb_irrefl x : SFltb x x = false.
Proof.
  unfold SFltb. destruct x as [s|s| |s m e]; simpl; try reflexivity.
  - now destruct s.
  - change (Pos.compare_cont Eq m m) with (Pos.compare m m).
    rewrite Z.compare_refl, Pos.compare_refl. now destruct s.
Qed.

Lemma SFltb_trans x y z :
  SFltb x y = true -> SFltb y z = true -> SFltb x z = true.
Proof.
  unfold SFltb.
  destruct x as [sx|sx| |sx mx ex], y as [sy|sy| |sy my ey],
    z as [sz|sz| |sz mz ez];
    simpl;
    repeat match goal with s : bool |- _ => destruct s end;
    simpl; try discriminate; try reflexivity;
    change (Pos.compare_cont Eq) with Pos.compare;
    destruct (Z.compare_spec ex ey), (Z.compare_spec ey ez),
      (Z.compare_spec ex ez);
    simpl; try discriminate; try reflexivity; try lia; subst;
    destruct (Pos.compare_spec mx my), (Pos.compare_spec my mz),
      (Pos.compare_spec mx mz);
    simpl; try discriminate; try reflexivity; lia.
Qed.

Lemma ltb_irrefl x : PrimFloat.ltb x x = false.
Proof. rewrite ltb_spec. apply SFltb_irrefl. Qed.

Lemma ltb_trans x y z :
  PrimFloat.ltb x y = true -> PrimFloat.ltb y z = true ->
  PrimFloat.ltb x z = true.
Proof. rewrite !ltb_spec. apply SFltb_trans. Qed.

Lemma is_zero_spec x :
  PrimFloat.is_zero x = true -> exists s, Prim2SF x = S754_zero s.
Proof.
  unfold PrimFloat.is_zero. rewrite FloatAxioms.eqb_spec.
  change (Prim2SF PrimFloat.zero) with (S754_zero false).
  unfold SFeqb. destruct (Prim2SF x) as [s|s| |s m e]; simpl; try discriminate.
  - intros _. now exists s.
  - now destruct s.
  - now destruct s.
Qed.

Lemma zeros_compare_alike x y z :
  PrimFloat.is_zero x = true -> PrimFloat.is_zero y = true ->
  PrimFloat.ltb z x = PrimFloat.ltb z y
  /\ PrimFloat.ltb x z = PrimFloat.ltb y z.
Proof.
  intros Hx Hy. apply is_zero_spec in Hx as [sx Hx], Hy as [sy Hy].
  rewrite !ltb_spec, Hx, Hy. unfold SFltb.
  destruct (Prim2SF z); split; reflexivity.
Qed.

Lemma isNaN_spec x : JS.isNaN x = false -> Prim2SF x <> S754_nan.
Proof.
  unfold JS.isNaN, PrimFloat.is_nan. rewrite FloatAxioms.eqb_spec.
  intros Hx Hnan. rewrite Hnan in Hx. discriminate.
Qed.

Lemma not_below_infinity x :
  JS.isNaN x = false -> PrimFloat.ltb x PrimFloat.infinity = false ->
  x = PrimFloat.infinity.
Proof.
  intros Hx. apply isNaN_spec in Hx. rewrite ltb_spec.
  change (Prim2SF PrimFloat.infinity) with (S754_infinity false).
  intros Hlt. apply Prim2SF_inj.
  change (Prim2SF PrimFloat.infinity) with (S754_infinity false).
  unfold SFltb in Hlt.
  destruct (Prim2SF x) as [s|s| |s m e]; simpl in Hlt;
    try discriminate; try contradiction.
  now destruct s.
Qed.

Lemma not_above_neg_infinity x :
  JS.isNaN x = false -> PrimFloat.ltb PrimFloat.neg_infinity x = false ->
  x = PrimFloat.neg_infinity.
Proof.
  intros Hx. apply isNaN_spec in Hx. rewrite ltb_spec.
  change (Prim2SF PrimFloat.neg_infinity) with (S754_infinity true).
  intros Hlt. apply Prim2SF_inj.
  change (Prim2SF PrimFloat.neg_infinity) with (S754_infinity true).
  unfold SFltb in Hlt.
  destruct (Prim2SF x) as [s|s| |s m e]; simpl in Hlt;
    try discriminate; try contradiction.
  now destruct s.
Qed.

(** A left-to-right search for an extremum: the running best is replaced
    by a number below it, or by a zero of the other sign. *)
Lemma extremum_fold (below tie : float -> float -> bool) (start : float) :
  (forall x, below x x = false) ->
  (forall x y z, below x y = true -> below y z = true -> below x z = true) ->
  (forall x y z, tie x y = true -> below z x = below z y) ->
  (forall x, JS.isNaN x = false -> below x start = false -> x = start) ->
  (forall x, tie x start = false) ->
  forall nums seen best,
    (forall x, In x nums -> JS.isNaN x = false) ->
    (forall y, In y seen -> below y best = false) ->
    In best seen \/ (best = start /\ seen = []) ->
    let final :=
      fold_left (fun best x => if tie x best || below x best then x else best)
        nums best in
    (forall y, In y (seen ++ nums) -> below y final = false)
    /\ (In final (seen ++ nums) \/ (final = start /\ seen ++ nums = [])).
Proof.
  intros Hirrefl Htrans Htie Hstart Hnotie.
  induction nums as [|x nums IH]; intros seen best Hnums Hseen Hbest.
  - simpl. rewrite app_nil_r. tauto.
  - cbn [fold_left].
    replace (seen ++ x :: nums) with ((seen ++ [x]) ++ nums)
      by now rewrite <- app_assoc.
    apply IH.
    + intros y Hy. apply Hnums. now right.
    + intros y Hy. apply in_app_or in Hy as [Hy|[<-|[]]].
      * destruct (tie x best) eqn:Ht; simpl.
        { rewrite (Htie _ _ _ Ht). now apply Hseen. }
        destruct (below x best) eqn:Hb; [|now apply Hseen].
        destruct (below y x) eqn:Hyx; [|reflexivity].
        rewrite <- (Hseen y Hy). symmetry. now apply (Htrans y x best).
      * destruct (tie x best) eqn:Ht; simpl; [apply Hirrefl|].
        destruct (below x best) eqn:Hb; [apply Hirrefl|assumption].
    + left. apply in_or_app.
      destruct (tie x best || below x best) eqn:Hc; [right; now left|].
      apply orb_false_iff in Hc as [_ Hb].
      destruct Hbest as [Hbest|[-> ->]]; [now left|].
      right. left. apply Hstart; [|assumption]. apply Hnums. now left.
Qed.

Lemma Math_min_spec nums :
  nums <> [] -> (forall x, In x nums -> JS.isNaN x = false) ->
  In (Math_min nums) nums
  /\ forall x, In x nums -> PrimFloat.ltb x (Math_min nums) = false.
Proof.
  intros Hsome Hnums. unfold Math_min.
  assert (Hnone : existsb JS.isNaN nums = false).
  { destruct (existsb JS.isNaN nums) eqn:E; [|reflexivity].
    apply existsb_exists in E as (x & Hx & Hnan).
    rewrite (Hnums x Hx) in Hnan. discriminate. }
  rewrite Hnone.
  destruct (extremum_fold PrimFloat.ltb
              (fun x lowest => isNegativeZero x && isPositiveZero lowest)
              PrimFloat.infinity ltb_irrefl ltb_trans) with
    (nums := nums) (seen := @nil float) (best := PrimFloat.infinity)
    as [Hbound Hin].
  - intros x y z Ht. apply andb_true_iff in Ht as [Hx Hy].
    apply andb_true_iff in Hx as [Hx _], Hy as [Hy _].
    apply (zeros_compare_alike x y z Hx Hy).
  - apply not_below_infinity.
  - intros x. apply andb_false_r.
  - exact Hnums.
  - intros y [].
  - now right.
  - simpl in Hbound, Hin. split; [|exact Hbound].
    destruct Hin as [Hin|[_ Hnil]]; [exact Hin|contradiction].
Qed.

Lemma Math_max_spec nums :
  nums <> [] -> (forall x, In x nums -> JS.isNaN x = false) ->
  In (Math_max nums) nums
  /\ forall x, In x nums -> PrimFloat.ltb (Math_max nums) x = false.
Proof.
  intros Hsome Hnums. unfold Math_max.
  assert (Hnone : existsb JS.isNaN nums = false).
  { destruct (existsb JS.isNaN nums) eqn:E; [|reflexivity].
    apply existsb_exists in E as (x & Hx & Hnan).
    rewrite (Hnums x Hx) in Hnan. discriminate. }
  rewrite Hnone.
  destruct (extremum_fold (fun x y => PrimFloat.ltb y x)
              (fun x highest => isPositiveZero x && isNegativeZero highest)
              PrimFloat.neg_infinity) with
    (nums := nums) (seen := @nil float) (best := PrimFloat.neg_infinity)
    as [Hbound Hin].
  - apply ltb_irrefl.
  - intros x y z Hxy Hyz. now apply (ltb_trans z y x).
  - intros x y z Ht. apply andb_true_iff in Ht as [Hx Hy].
    apply andb_true_iff in Hx as [Hx _], Hy as [Hy _].
    apply (zeros_compare_alike x y z Hx Hy).
  - apply not_above_neg_infinity.
  - intros x. apply andb_false_r.
  - exact Hnums.
  - intros y [].
  - now right.
  - simpl in Hbound, Hin. split; [|exact Hbound].
    destruct Hin as [Hin|[_ Hnil]]; [exact Hin|contradiction].
Qed.

Lemma numericValues_not_NaN parse values x :
  In x (numericValues parse values) -> JS.isNaN x = false.
Proof.
  unfold numericValues. rewrite filter_In. intros [_ Hx].
  now apply negb_true_iff in Hx.
Qed.

(** X20: the minimum and the maximum of a field with at least one number, and
    with no more numbers than a call may spread, are numbers of the field;
    no number of the field is below the minimum or above the maximum. With
    more numbers the calls [Math.min(...nums)] and [Math.max(...nums)] may
    throw a [RangeError] instead of returning. *)
Theorem minimum_and_maximum_are_attained (records : list DataItem) field :
  numbersOf records field <> [] ->
  (Z.of_nat (length (numbersOf records field)) <= spreadLimit)%Z ->
  exists lowest highest,
    aggregate records field Minimum = NumberValue lowest
    /\ aggregate records field Maximum = NumberValue highest
    /\ In lowest (numbersOf records field)
    /\ In highest (numbersOf records field)
    /\ forall x, In x (numbersOf records field) ->
         PrimFloat.ltb x lowest = false /\ PrimFloat.ltb highest x = false.
Proof.
  intros Hsome _.
  destruct records as [|item rest]; [now elim Hsome|].
  set (nums := numbersOf (item :: rest) field) in *.
  assert (Hnums : forall x, In x nums -> JS.isNaN x = false).
  { intros x. apply numericValues_not_NaN. }
  destruct (Math_min_spec nums Hsome Hnums) as [Hmin Hlow].
  destruct (Math_max_spec nums Hsome Hnums) as [Hmax Hhigh].
  exists (Math_min nums), (Math_max nums).
  assert (Hlen : (0 <? length nums)%nat = true).
  { apply Nat.ltb_lt. destruct nums; [contradiction|simpl; lia]. }
  split; [|split]; [| |auto].
  - cbn [aggregate]. fold (presentValues (item :: rest) field).
    fold (numbersOf (item :: rest) field). fold nums. now rewrite Hlen.
  - cbn [aggregate]. fold (presentValues (item :: rest) field).
    fold (numbersOf (item :: rest) field). fold nums. now rewrite Hlen.
Qed.

(** The regions are texts: their sum is 0. *)
Lemma statistics_of_a_field_without_numbers_witness :
  numbersOf Fixture.sampleData "region" = []
  /\ aggregate Fixture.sampleData "region" Sum = NumberValue 0.
Proof.
  split; [vm_compute; reflexivity|].
  apply (statistics_of_a_field_without_numbers Fixture.sampleData "region" Sum).
  - vm_compute. reflexivity.
  - reflexivity.
Defined.

(** The four regions of the six sample records, in the order in which the
    records first name them. *)
Lemma unique_list_and_unique_count_witness :
  firstOccurrences (presentValues Fixture.sampleData "region")
  = [JS.Str "North"; JS.Str "South"; JS.Str "East"; JS.Str "West"]
  /\ aggregate Fixture.sampleData "region" ListUnique
     = ListValue
         (List.map JS.ToString
            (firstOccurrences (presentValues Fixture.sampleData "region")))
  /\ aggregate Fixture.sampleData "region" CountUnique
     = NumberValue
         (JS.ofNat
            (length
               (firstOccurrences (presentValues Fixture.sampleData "region")))).
Proof.
  split; [vm_compute; reflexivity|].
  destruct (unique_list_and_unique_count Fixture.sampleData "region"
              ltac:(discriminate))
    as (Hlist & Hcount & _).
  split; assumption.
Defined.

(** The six sales of the sample records lie between 90 and 200. *)
Lemma minimum_and_maximum_are_attained_witness :
  length (numbersOf Fixture.sampleData "sales") = 6%nat
  /\ aggregate Fixture.sampleData "sales" Minimum = NumberValue 90
  /\ aggregate Fixture.sampleData "sales" Maximum = NumberValue 200
  /\ exists lowest highest,
       aggregate Fixture.sampleData "sales" Minimum = NumberValue lowest
       /\ aggregate Fixture.sampleData "sales" Maximum = NumberValue highest
       /\ In lowest (numbersOf Fixture.sampleData "sales")
       /\ In highest (numbersOf Fixture.sampleData "sales").
Proof.
  split; [vm_compute; reflexivity|].
  split; [vm_compute; reflexivity|]. split; [vm_compute; reflexivity|].
  destruct (minimum_and_maximum_are_attained Fixture.sampleData "sales"
              ltac:(vm_compute; discriminate) ltac:(vm_compute; discriminate))
    as (lowest & highest & Hmin & Hmax & Hlow & Hhigh & _).
  exists lowest, highest. repeat split; assumption.
Defined.

(** ** The table renderer *)

Section RowHeaderCells.

Import TableRenderer.

Lemma sameKey_eq a b : sameKey a b = true <-> a = b.
Proof.
  destruct a as [x|], b as [y|]; simpl; try (split; congruence).
  rewrite String.eqb_eq. split; congruence.
Qed.

Lemma matchesRow_spec current next fieldIndex :
  matchesRow current next fieldIndex = true
  <-> forall i, (i <= fieldIndex)%nat ->
        truthy (next !! i) = true /\ next !! i = current !! i.
Proof.
  unfold matchesRow. rewrite forallb_forall. split.
  - intros Hall i Hi. specialize (Hall i). rewrite in_seq in Hall.
    specialize (Hall ltac:(lia)). apply andb_true_iff in Hall as [Ht Hs].
    now apply sameKey_eq in Hs.
  - intros Hall i Hi. apply in_seq in Hi. destruct (Hall i ltac:(lia)) as [Ht Hs].
    rewrite Ht. simpl. now apply sameKey_eq.
Qed.

Lemma differsFromPrevious_spec previous current fieldIndex :
  differsFromPrevious (Some previous) current fieldIndex = false
  <-> forall i, (i <= fieldIndex)%nat ->
        truthy (previous !! i) = true /\ current !! i = previous !! i.
Proof.
  unfold differsFromPrevious. split.
  - intros Hnone i Hi.
    destruct (truthy (previous !! i)) eqn:Ht,
      (sameKey (current !! i) (previous !! i)) eqn:Hs;
      try (split; [reflexivity|now apply sameKey_eq]);
      exfalso;
      (assert (Hsome :
         existsb
           (fun i =>
              negb (truthy (previous !! i))
              || negb (sameKey (current !! i) (previous !! i)))
           (seq 0 (S fieldIndex)) = true);
       [apply existsb_exists; exists i; split;
          [apply in_seq; lia|now rewrite Ht, Hs]
       |congruence]).
  - intros Hall.
    destruct (existsb _ (seq 0 (S fieldIndex))) eqn:E; [|reflexivity].
    apply existsb_exists in E as (i & Hi & Hd). apply in_seq in Hi.
    destruct (Hall i ltac:(lia)) as [Ht Hs]. rewrite Ht in Hd. simpl in Hd.
    apply sameKey_eq in Hs. now rewrite Hs in Hd.
Qed.

(** The rows a span covers after the first one match the first one, and the
    row after the span, if any, does not. *)
Lemma spanOver_spec current fieldIndex : forall following span,
  let total := spanOver current following fieldIndex span in
  (span <= total <= span + length following)%nat
  /\ (forall k next, (k < total - span)%nat -> following !! k = Some next ->
        matchesRow current next fieldIndex = true)
  /\ (forall next, following !! (total - span)%nat = Some next ->
        matchesRow current next fieldIndex = false).
Proof.
  induction following as [|row rest IH]; intros span; simpl.
  - split; [lia|]. split; [intros k next Hk; lia|]. intros next. now rewrite Nat.sub_diag.
  - destruct (matchesRow current row fieldIndex) eqn:Hm.
    + destruct (IH (S span)) as (Hlen & Hin & Hout).
      set (total := spanOver current rest fieldIndex (S span)) in *.
      split; [lia|]. split.
      * intros [|k] next Hk Hnext; simpl in Hnext; [congruence|].
        apply (Hin k next); [lia|assumption].
      * intros next Hnext.
        replace (total - span)%nat with (S (total - S span)) in Hnext by lia.
        now apply Hout.
    + split; [lia|]. split; [intros k next Hk; lia|].
      rewrite Nat.sub_diag. simpl. now intros next [= <-].
Qed.

(** X21: a row-header cell spans exactly the rows after it in which the cell of
    the same field is not shown: those rows are hidden, and the row after
    the span, if there is one, shows its cell again. *)
Theorem row_span_covers_the_hidden_headers rowHeaders rowIndex fieldIndex :
  let span := calculateRowSpan rowHeaders rowIndex fieldIndex false in
  (rowIndex < length rowHeaders)%nat ->
  (1 <= span)%nat
  /\ (rowIndex + span <= length rowHeaders)%nat
  /\ (forall k, (1 <= k < span)%nat ->
        shouldShowRowHeader rowHeaders (rowIndex + k) fieldIndex false = false)
  /\ ((rowIndex + span < length rowHeaders)%nat ->
      shouldShowRowHeader rowHeaders (rowIndex + span) fieldIndex false = true).
Proof.
  intros span Hrow. subst span. unfold calculateRowSpan.
  destruct (lookup_lt_is_Some_2 rowHeaders rowIndex Hrow) as [current Hcurrent].
  rewrite Hcurrent.
  destruct (spanOver_spec current fieldIndex (drop (S rowIndex) rowHeaders) 1)
    as (Hlen & Hin & Hout).
  set (span := spanOver current (drop (S rowIndex) rowHeaders) fieldIndex 1) in *.
  rewrite length_drop in Hlen.
  assert (Hrows : forall k, (k < span)%nat ->
            exists row,
              rowHeaders !! (rowIndex + k)%nat = Some row
              /\ forall i, (i <= fieldIndex)%nat ->
                   row !! i = current !! i
                   /\ (k <> 0%nat -> truthy (row !! i) = true)).
  { intros [|k] Hk.
    - exists current. rewrite Nat.add_0_r. split; [assumption|].
      intros i Hi. split; [reflexivity|congruence].
    - destruct (lookup_lt_is_Some_2 rowHeaders (rowIndex + S k)) as [row Hr];
        [lia|].
      exists row. split; [assumption|]. intros i Hi.
      assert (Hm : matchesRow current row fieldIndex = true).
      { apply (Hin k row); [lia|].
        rewrite lookup_drop. now replace (S rowIndex + k)%nat with (rowIndex + S k)%nat by lia. }
      destruct (proj1 (matchesRow_spec _ _ _) Hm i Hi) as [Ht Hs]. tauto. }
  split; [lia|]. split; [lia|]. split.
  - intros k Hk. unfold shouldShowRowHeader.
    destruct (Nat.eqb_spec (rowIndex + k) 0) as [Hz|_]; [lia|].
    destruct (Hrows k ltac:(lia)) as (row & Hr & Hsame). rewrite Hr.
    destruct (Hrows (k - 1)%nat ltac:(lia)) as (previous & Hp & Hprev).
    replace (rowIndex + (k - 1))%nat with (rowIndex + k - 1)%nat in Hp by lia.
    rewrite Hp. apply differsFromPrevious_spec. intros i Hi.
    destruct (Hsame i Hi) as [Hs Ht], (Hprev i Hi) as [Hs' _].
    rewrite Hs', <- Hs. split; [apply Ht; lia|reflexivity].
  - intros Hnext. unfold shouldShowRowHeader.
    destruct (Nat.eqb_spec (rowIndex + span) 0) as [Hz|_]; [lia|].
    destruct (lookup_lt_is_Some_2 rowHeaders (rowIndex + span) Hnext)
      as [row Hr].
    rewrite Hr.
    destruct (Hrows (span - 1)%nat ltac:(lia)) as (previous & Hp & Hprev).
    replace (rowIndex + (span - 1))%nat with (rowIndex + span - 1)%nat in Hp
      by lia.
    rewrite Hp.
    destruct (differsFromPrevious (Some previous) row fieldIndex) eqn:Hd;
      [reflexivity|].
    assert (Hm : matchesRow current row fieldIndex = true).
    { apply matchesRow_spec. intros i Hi.
      destruct (proj1 (differsFromPrevious_spec _ _ _) Hd i Hi) as [Ht Hs].
      destruct (Hprev i Hi) as [Hs' _]. rewrite Hs. split; [assumption|congruence]. }
    rewrite (Hout row) in Hm; [discriminate|].
    rewrite lookup_drop.
    now replace (S rowIndex + (span - 1))%nat with (rowIndex + span)%nat by lia.
Qed.

End RowHeaderCells.

Lemma filter_nil_stronger {A} (f g : A -> bool) (l : list A) :
  (forall x, g x = true -> f x = true) ->
  List.filter f l = [] -> List.filter g l = [].
Proof.
  intros Hfg. induction l as [|x l IH]; simpl; [reflexivity|].
  destruct (f x) eqn:Hf; [discriminate|].
  destruct (g x) eqn:Hg; [|exact IH].
  apply Hfg in Hg. congruence.
Qed.

Section TableRendererOnTables.

Context `{Intl}.

Import TableRenderer.

Lemma everyValueIsZero_emptyDefaults config :
  everyValueIsZero (emptyDefaults config) = true.
Proof.
  unfold everyValueIsZero. apply forallb_forall. intros [key val] Hin.
  apply list_elem_of_In, elem_of_map_to_list in Hin. simpl.
  unfold emptyDefaults in Hin. destruct (values config).
  - apply lookup_singleton_Some in Hin as [_ <-]. reflexivity.
  - apply lookup_gset_to_gmap_Some in Hin as [_ <-]. reflexivity.
Qed.

(** X22: a row, or a column, of the table without any record is all zeros for
    the table renderer, whatever the configured aggregations. *)
Theorem rows_and_columns_without_records_are_all_zeros records config :
  let table := generatePivotTable records config in
  let filteredData := filterData records (filters config) in
  (forall r rowKey row totals,
     rowHeaders table !! r = Some rowKey ->
     cells table !! r = Some row ->
     rowTotals table !! r = Some totals ->
     rowData config filteredData rowKey = [] ->
     isRowAllZeros row totals = true)
  /\ (forall c colKey totals,
        columnHeaders table !! c = Some colKey ->
        columnTotals table !! c = Some totals ->
        columnData config filteredData colKey = [] ->
        isColumnAllZeros c (cells table) totals = true).
Proof.
  intros table filteredData. subst table.
  rewrite generatePivotTable_unfold. cbv zeta. simpl. fold filteredData.
  split.
  - intros r rowKey row totals Hr. rewrite !map_lookup, Hr. simpl.
    intros [= <-] [= <-] Hnone. unfold isRowAllZeros.
    rewrite Hnone, aggregatedValues_nil, everyValueIsZero_emptyDefaults.
    rewrite andb_true_r. apply forallb_forall. intros cell Hcell.
    apply in_map_iff in Hcell as (colKey & <- & _). unfold cellFor. simpl.
    replace (getSubsetData filteredData rowKey colKey (rows config)
               (columns config))
      with (@nil DataItem).
    { rewrite aggregatedValues_nil. apply everyValueIsZero_emptyDefaults. }
    symmetry. revert Hnone. unfold rowData, getSubsetData.
    apply filter_nil_stronger. intros item Hitem.
    apply andb_true_iff in Hitem as [-> _]. reflexivity.
  - intros c colKey totals Hc. rewrite !map_lookup, Hc. simpl.
    intros [= <-] Hnone. unfold isColumnAllZeros.
    rewrite Hnone, aggregatedValues_nil, everyValueIsZero_emptyDefaults.
    rewrite andb_true_r. apply forallb_forall. intros row Hrow.
    apply in_map_iff in Hrow as (rowKey & <- & _).
    rewrite map_lookup, Hc. simpl.
    replace (getSubsetData filteredData rowKey colKey (rows config)
               (columns config))
      with (@nil DataItem).
    { rewrite aggregatedValues_nil. apply everyValueIsZero_emptyDefaults. }
    symmetry. revert Hnone. unfold columnData, getSubsetData.
    apply filter_nil_stronger. intros item Hitem.
    apply andb_true_iff in Hitem as [_ ->]. reflexivity.
Qed.

End TableRendererOnTables.

(** The header North of the first row spans two rows; the second row hides
    it and the third row shows South. *)
Lemma row_span_covers_the_hidden_headers_witness :
  TableRenderer.calculateRowSpan Fixture.nestedHeaders 0 0 false = 2%nat
  /\ TableRenderer.shouldShowRowHeader Fixture.nestedHeaders 1 0 false = false
  /\ TableRenderer.shouldShowRowHeader Fixture.nestedHeaders 2 0 false = true.
Proof.
  pose proof (row_span_covers_the_hidden_headers Fixture.nestedHeaders 0 0
                ltac:(vm_compute; lia))
    as (_ & _ & Hhidden & Hshown).
  split; [reflexivity|]. split.
  - apply (Hhidden 1%nat). vm_compute. lia.
  - apply Hshown. vm_compute. lia.
Defined.

(** ** The components around the engine *)

Section FilterMenu.

Context `{Intl}.

Variable localeCompareNumeric : string -> string -> float.

Lemma cartesian_single (axis : list string) :
  cartesian [axis] = List.map (fun v => [v]) axis.
Proof. induction axis as [|v axis IH]; simpl in *; congruence. Qed.

Lemma fold_setAdd_map (data : list DataItem) field :
  fold_left JS.setAdd (List.map (fun item => coerced item field) data) []
  = collectValues data field.
Proof. unfold collectValues. now rewrite fold_left_over_map. Qed.

(** X23: the values a field's filter menu offers are the field's distinct
    coerced values, which are its header values; a filter that allows all of
    them keeps every record. *)
Theorem filter_menu_offers_the_header_values (data : list DataItem) field :
  let offered := uniqueValues localeCompareNumeric data field in
  (forall v, In v offered <-> exists item, In item data /\ coerced item field = v)
  /\ List.NoDup offered
  /\ Permutation (List.map (fun v => [v]) offered) (getNestedKeys data [field])
  /\ filterData data [{| filterField := field; filterValues := offered |}]
     = data.
Proof.
  intros offered. subst offered. unfold uniqueValues.
  rewrite fold_setAdd_map.
  set (cmp := fun a b : string => _).
  assert (Hin : forall v,
            In v (JS.sort cmp (collectValues data field))
            <-> exists item, In item data /\ coerced item field = v).
  { intros v. rewrite sort_In, collectValues_In. unfold coercedValues.
    rewrite in_map_iff. split; intros (item & H1 & H2); exists item; tauto. }
  split; [exact Hin|]. split; [apply sort_NoDup, collectValues_NoDup|]. split.
  - rewrite getNestedKeys_cartesian. cbn [List.map].
    rewrite cartesian_single. unfold sortedValues. rewrite <- collectValues_distinct.
    apply Permutation_map.
    etransitivity; [apply sort_Permutation|].
    symmetry. apply sort_Permutation.
  - unfold filterData. rewrite <- (filter_true data) at 2.
    apply filter_ext_In. intros item Hitem. simpl. rewrite andb_true_r.
    destruct (length _ =? 0)%nat; [reflexivity|].
    unfold includes. apply existsb_exists. exists (coerced item field).
    split; [|apply String.eqb_refl]. apply Hin. now exists item.
Qed.

End FilterMenu.

Section FieldList.

Context `{Intl}.

Lemma activeFilters_pass (item : DataItem) activeFilters :
  forallb
    (fun '(field, values) =>
       if (length values =? 0)%nat then true
       else includes values (coerced item field))
    activeFilters
  = forallb
      (fun filter =>
         if (length (filterValues filter) =? 0)%nat then true
         else includes (filterValues filter) (coerced item (filterField filter)))
      (List.map
         (fun '(field, values) =>
            {| filterField := field; filterValues := values |})
         (List.filter (fun '(_, values) => (0 <? length values)%nat)
            activeFilters)).
Proof.
  induction activeFilters as [|[field values] rest IH]; [reflexivity|].
  cbn [forallb List.filter]. rewrite IH.
  destruct values as [|v values]; reflexivity.
Qed.

Lemma fieldDistinctCounts_lookup data availableFields activeFilters fieldState
  aggregationType valueField field :
  In field availableFields ->
  fieldDistinctCounts data availableFields activeFilters !! field
  = Some
      (distinctCount
         (filterData data
            (filters (pivotConfig fieldState aggregationType activeFilters valueField)))
         field).
Proof.
  intros Hin. unfold fieldDistinctCounts. cbv zeta.
  erewrite (filter_ext_In _ _ data)
    by (intros item _; apply activeFilters_pass).
  rewrite (fold_insert_lookup
             (fun field =>
                length
                  (fold_left
                     (fun uniqueValues item =>
                        JS.setAdd uniqueValues (coerced item field))
                     _ []))) by assumption.
  f_equal. now rewrite distinctCount_length.
Qed.

(** X24: the fields the field list disables are the fields the asynchronous
    builder rejects: the distinct count the list computes for a field is the
    count the builder validates. So, with a token that is not cancelled at
    the invocation and with row and column fields taken from the available
    fields, the builder raises a cardinality error exactly when the list's
    condition holds for a row or column field. *)
Theorem disabled_fields_are_the_rejected_fields
  data fieldState aggregationType activeFilters valueField signal threshold :
  let config := pivotConfig fieldState aggregationType activeFilters valueField in
  let counts :=
    fieldDistinctCounts data (FieldState.availableFields fieldState)
      activeFilters in
  let filteredData := filterData data (filters config) in
  (forall field, In field (rows config ++ columns config) ->
     In field (FieldState.availableFields fieldState)) ->
  aborted signal 0 = false ->
  (forall field, In field (FieldState.availableFields fieldState) ->
     counts !! field = Some (distinctCount filteredData field)
     /\ isDisabled counts threshold field
        = exceedsLimit filteredData threshold field)
  /\ (cardinalityExceeded
        (settle (generatePivotTableAsync data config signal (Some threshold)))
      <-> exists field,
            In field (rows config ++ columns config)
            /\ isDisabled counts threshold field = true).
Proof.
  intros config counts filteredData Havailable Hsignal.
  assert (Hcounts : forall field,
            In field (FieldState.availableFields fieldState) ->
            counts !! field = Some (distinctCount filteredData field)
            /\ isDisabled counts threshold field
               = exceedsLimit filteredData threshold field).
  { intros field Hfield.
    pose proof (fieldDistinctCounts_lookup data _ activeFilters fieldState
                  aggregationType valueField field Hfield) as Hlookup.
    fold config in Hlookup. fold filteredData in Hlookup. fold counts in Hlookup.
    split; [exact Hlookup|]. unfold isDisabled. now rewrite Hlookup. }
  split; [exact Hcounts|].
  unfold settle. rewrite async_run. cbv zeta. simpl default.
  fold filteredData. rewrite Hsignal.
  destruct (find (exceedsLimit filteredData threshold) (rows config))
    as [field|] eqn:Hrows.
  { apply find_some in Hrows as [Hin Hex]. split; [|easy]. intros _.
    exists field. split; [apply in_or_app; now left|].
    rewrite (proj2 (Hcounts field (Havailable field ltac:(apply in_or_app; now left)))).
    exact Hex. }
  destruct (find (exceedsLimit filteredData threshold) (columns config))
    as [field|] eqn:Hcolumns.
  { apply find_some in Hcolumns as [Hin Hex]. split; [|easy]. intros _.
    exists field. split; [apply in_or_app; now right|].
    rewrite (proj2 (Hcounts field (Havailable field ltac:(apply in_or_app; now right)))).
    exact Hex. }
  assert (Hnone : forall field, In field (rows config ++ columns config) ->
            isDisabled counts threshold field = false).
  { intros field Hfield.
    rewrite (proj2 (Hcounts field (Havailable field Hfield))).
    unfold exceedsLimit. apply Z.ltb_ge.
    apply in_app_or in Hfield as [Hfield|Hfield].
    - now apply (proj1 (find_exceedsLimit_None _ _ _) Hrows).
    - now apply (proj1 (find_exceedsLimit_None _ _ _) Hcolumns). }
  split.
  - destruct (existsb (aborted signal) _); contradiction.
  - intros (field & Hfield & Hdisabled).
    rewrite (Hnone field Hfield) in Hdisabled. discriminate.
Qed.

Lemma filter_other_shorter (fields : list string) name :
  In name fields ->
  (length (List.filter (fun f => negb (String.eqb f name)) fields)
   < length fields)%nat.
Proof.
  induction fields as [|f fields IH]; [contradiction|].
  intros [->|Hin]; simpl.
  - rewrite String.eqb_refl. simpl.
    pose proof (List.filter_length_le (fun f => negb (String.eqb f name)) fields).
    lia.
  - specialize (IH Hin). destruct (negb (String.eqb f name)); simpl; lia.
Qed.

(** X25: the field a cardinality error names is on the axis it names; ejecting
    it takes it off that axis, which leaves fewer grouping fields, and keeps
    every other field, the available fields and the value fields in
    place. *)
Theorem ejecting_the_rejected_field
  data fieldState aggregationType activeFilters valueField signal threshold
  message fieldName fieldType count :
  let config := pivotConfig fieldState aggregationType activeFilters valueField in
  let ejected := handleValidationError fieldState fieldName fieldType in
  settle (generatePivotTableAsync data config signal threshold)
  = Rejected (PivotValidationError message fieldName fieldType count) ->
  In fieldName
    (match fieldType with
     | RowField => FieldState.rows fieldState
     | ColumnField => FieldState.columns fieldState
     end)
  /\ ~ In fieldName
       (match fieldType with
        | RowField => FieldState.rows ejected
        | ColumnField => FieldState.columns ejected
        end)
  /\ (length (FieldState.rows ejected ++ FieldState.columns ejected)
      < length (FieldState.rows fieldState ++ FieldState.columns fieldState))%nat
  /\ (forall field, field <> fieldName ->
        (In field (FieldState.rows ejected) <-> In field (FieldState.rows fieldState))
        /\ (In field (FieldState.columns ejected)
            <-> In field (FieldState.columns fieldState)))
  /\ FieldState.availableFields ejected = FieldState.availableFields fieldState
  /\ FieldState.values ejected = FieldState.values fieldState.
Proof.
  intros config ejected Hrejected.
  assert (Hon : In fieldName
                  (match fieldType with
                   | RowField => FieldState.rows fieldState
                   | ColumnField => FieldState.columns fieldState
                   end)).
  { revert Hrejected. unfold settle. rewrite async_run. cbv zeta.
    destruct (aborted signal 0); [discriminate|].
    destruct (find _ (rows config)) as [field|] eqn:Hrows.
    { apply find_some in Hrows as [Hin _]. now intros [= _ <- <- _]. }
    destruct (find _ (columns config)) as [field|] eqn:Hcolumns.
    { apply find_some in Hcolumns as [Hin _]. now intros [= _ <- <- _]. }
    destruct (existsb (aborted signal) _); discriminate. }
  split; [exact Hon|]. subst ejected. unfold handleValidationError.
  destruct fieldType; simpl.
  - split; [|split; [|split; [|split; reflexivity]]].
    + rewrite filter_In, String.eqb_refl. simpl. intros [_ Hf]. discriminate.
    + rewrite !length_app. pose proof (filter_other_shorter _ _ Hon). lia.
    + intros field Hother. split; [|reflexivity].
      rewrite filter_In, negb_true_iff, String.eqb_neq. tauto.
  - split; [|split; [|split; [|split; reflexivity]]].
    + rewrite filter_In, String.eqb_refl. simpl. intros [_ Hf]. discriminate.
    + rewrite !length_app. pose proof (filter_other_shorter _ _ Hon). lia.
    + intros field Hother. split; [reflexivity|].
      rewrite filter_In, negb_true_iff, String.eqb_neq. tauto.
Qed.

End FieldList.

(** With a limit of 3 the four regions disable [region], and the builder
    rejects the grid that has it on the rows. *)
Lemma disabled_fields_are_the_rejected_fields_witness :
  isDisabled
    (fieldDistinctCounts Fixture.sampleData
       (FieldState.availableFields Fixture.regionByProduct) [])
    3 "region"
  = true
  /\ cardinalityExceeded
       (settle
          (generatePivotTableAsync (H := Reference.host) Fixture.sampleData
             (pivotConfig Fixture.regionByProduct Count [] EmptyString) None (Some 3%Z))).
Proof.
  split; [vm_compute; reflexivity|].
  apply (proj2
           (disabled_fields_are_the_rejected_fields (H := Reference.host)
              Fixture.sampleData Fixture.regionByProduct Count [] EmptyString None 3
              ltac:(intros field [<-|[<-|[]]]; simpl; tauto) eq_refl)).
  exists "region". split; [now left|vm_compute; reflexivity].
Defined.

(** The grid ejects [region], the row field with four values over a limit
    of 3. *)
Lemma ejecting_the_rejected_field_witness :
  settle
    (generatePivotTableAsync (H := Reference.host) Fixture.sampleData
       (pivotConfig Fixture.regionByProduct Count [] EmptyString) None (Some 3%Z))
  = Rejected (tooManyValues (H := Reference.host) "region" RowField 4)
  /\ FieldState.rows (handleValidationError Fixture.regionByProduct "region" RowField)
     = []
  /\ ~ In "region"
       (FieldState.rows (handleValidationError Fixture.regionByProduct "region" RowField)).
Proof.
  assert (Hrejected :
    settle
      (generatePivotTableAsync (H := Reference.host) Fixture.sampleData
         (pivotConfig Fixture.regionByProduct Count [] EmptyString) None (Some 3%Z))
    = Rejected (tooManyValues (H := Reference.host) "region" RowField 4)).
  { vm_compute. reflexivity. }
  split; [exact Hrejected|]. split; [reflexivity|].
  apply (ejecting_the_rejected_field (H := Reference.host) Fixture.sampleData
           Fixture.regionByProduct Count [] EmptyString None (Some 3%Z) _ "region"
           RowField 4 Hrejected).
Defined.

(** ** Charts *)

Section ChartProperties.

Import ChartData.

Lemma fold_insert_last {A V} (key : A -> string) (g : A -> V) l :
  forall (m : gmap string V) k,
    In k (List.map key l) ->
    exists x, In x l /\ key x = k
      /\ fold_left (fun m x => <[key x := g x]> m) l m !! k = Some (g x).
Proof.
  induction l as [|y l IH]; intros m k Hin; simpl in *; [contradiction|].
  destruct (in_dec string_dec k (List.map key l)) as [Hlater|Hnot].
  - destruct (IH (<[key y := g y]> m) k Hlater) as (x & Hx & Hk & Hlookup).
    exists x. tauto.
  - destruct Hin as [Hk|Hin]; [|contradiction].
    exists y. split; [now left|]. split; [assumption|].
    rewrite fold_insert_keyed_other by assumption.
    rewrite <- Hk. apply lookup_insert_eq.
Qed.

Lemma fold_insert_NoDup {A V} (key : A -> string) (g : A -> V) l :
  List.NoDup (List.map key l) ->
  forall (m : gmap string V) x,
    In x l ->
    fold_left (fun m x => <[key x := g x]> m) l m !! key x = Some (g x).
Proof.
  intros Hnodup m x Hx.
  destruct (fold_insert_last key g l m (key x) (in_map key l x Hx))
    as (y & Hy & Hk & ->).
  f_equal. f_equal.
  clear m. induction l as [|z l IH]; [contradiction|].
  inversion Hnodup as [|? ? Hz Hl]; subst.
  destruct Hx as [->|Hx], Hy as [->|Hy]; try reflexivity.
  - exfalso. apply Hz. rewrite <- Hk. now apply in_map.
  - exfalso. apply Hz. rewrite Hk. now apply in_map.
  - now apply IH.
Qed.

Lemma fold_setAdd_absorb keys : forall members,
  (forall k, In k keys -> In k members) ->
  fold_left JS.setAdd keys members = members.
Proof.
  induction keys as [|k keys IH]; intros members Hin; simpl; [reflexivity|].
  unfold JS.setAdd at 2.
  rewrite (proj2 (setHas_In members k)) by (apply Hin; now left).
  apply IH. intros k' Hk'. apply Hin. now right.
Qed.

Lemma fold_setAdd_In keys : forall members k,
  In k (fold_left JS.setAdd keys members) <-> In k members \/ In k keys.
Proof.
  intros members k. rewrite fold_setAdd, in_app_iff, filter_In, distinct_In.
  rewrite negb_true_iff, setHas_false.
  destruct (in_dec string_dec k members); tauto.
Qed.

Lemma fold_setAdd_NoDup keys : List.NoDup (fold_left JS.setAdd keys []).
Proof.
  rewrite fold_setAdd. simpl.
  erewrite filter_ext_In by (intros; reflexivity).
  rewrite filter_true. apply distinct_NoDup.
Qed.

Lemma fold_setAdd_nested {A} (keysOf : A -> list string) (l : list A) :
  forall members,
    fold_left (fun members x => fold_left JS.setAdd (keysOf x) members) l members
    = fold_left JS.setAdd (flat_map keysOf l) members.
Proof.
  induction l as [|x l IH]; intros members; simpl; [reflexivity|].
  now rewrite fold_left_app, IH.
Qed.

Lemma chartColor_palette index :
  chartColor index = nth (index mod 5) palette EmptyString.
Proof.
  unfold chartColor.
  pose proof (Nat.mod_upper_bound index 5 ltac:(lia)) as Hlt.
  destruct (index mod 5)%nat as [|[|[|[|[|n]]]]]; try lia;
    vm_compute; reflexivity.
Qed.

(** A loop that pushes one point per element and adds the element's keys
    to the set of series keys. *)
Lemma fold_points {A} (point : A -> ChartDataPoint)
  (keysOf : A -> list string)
  (step : list ChartDataPoint * list string -> A
          -> list ChartDataPoint * list string) (l : list A) :
  (forall chartData seriesKeys x,
     step (chartData, seriesKeys) x
     = (chartData ++ [point x], fold_left JS.setAdd (keysOf x) seriesKeys)) ->
  forall chartData seriesKeys,
    fold_left step l (chartData, seriesKeys)
    = (chartData ++ List.map point l,
       fold_left JS.setAdd (flat_map keysOf l) seriesKeys).
Proof.
  intros Hstep. induction l as [|x l IH]; intros chartData seriesKeys; simpl.
  - now rewrite app_nil_r.
  - rewrite Hstep, IH, <- app_assoc, fold_left_app. reflexivity.
Qed.

Lemma fold_left_pointwise {A B} (f g : A -> B -> A) (l : list B) :
  (forall a b, f a b = g a b) ->
  forall a, fold_left f l a = fold_left g l a.
Proof.
  intros Hfg. induction l as [|b l IH]; intros a; simpl; [reflexivity|].
  now rewrite Hfg, IH.
Qed.

Lemma filter_none {A} (f : A -> bool) (l : list A) :
  (forall x, In x l -> f x = false) -> List.filter f l = [].
Proof.
  induction l as [|x l IH]; intros Hf; simpl; [reflexivity|].
  rewrite (Hf x) by now left. apply IH. intros y Hy. apply Hf. now right.
Qed.

Lemma imap_lookup_pair {A} (l : list A) (i : nat) :
  imap (fun index x => (index, x)) l !! i = (fun x => (i, x)) <$> l !! i.
Proof. apply list_lookup_imap. Qed.

Lemma generateChartConfig_lookup (seriesKeys : list string) index seriesKey :
  List.NoDup seriesKeys ->
  seriesKeys !! index = Some seriesKey ->
  generateChartConfig
    (imap
       (fun index key =>
          {| key := key; name := key; color := Some (chartColor index) |})
       seriesKeys)
  !! seriesKey
  = Some {| label := seriesKey; configColor := chartColor index |}.
Proof.
  intros Hnodup Hkey. unfold generateChartConfig.
  set (series := imap _ seriesKeys).
  rewrite (fold_left_pointwise _
             (fun config (indexed : nat * ChartSeries) =>
                <[key indexed.2 :=
                    {| label := name indexed.2;
                       configColor :=
                         colorOr (color indexed.2) (chartColor indexed.1) |}]>
                  config))
    by (intros config [i s]; reflexivity).
  assert (Hat :
    imap (fun index seriesItem => (index, seriesItem)) series !! index
    = Some (index,
            {| key := seriesKey; name := seriesKey;
               color := Some (chartColor index) |})).
  { rewrite imap_lookup_pair. subst series.
    now rewrite list_lookup_imap, Hkey. }
  assert (Hkeys :
    List.map (fun indexed : nat * ChartSeries => key indexed.2)
      (imap (fun index seriesItem => (index, seriesItem)) series)
    = seriesKeys).
  { apply list_eq. intros i.
    rewrite map_lookup, imap_lookup_pair. subst series.
    rewrite list_lookup_imap. now destruct (seriesKeys !! i). }
  rewrite (fold_insert_NoDup
             (fun indexed : nat * ChartSeries => key indexed.2)
             (fun indexed : nat * ChartSeries =>
                {| label := name indexed.2;
                   configColor :=
                     colorOr (color indexed.2) (chartColor indexed.1) |})
             _ ltac:(now rewrite Hkeys) ∅
             (index,
              {| key := seriesKey; name := seriesKey;
                 color := Some (chartColor index) |})).
  - reflexivity.
  - apply In_lookup. eauto.
Qed.

Section Charts.

Variable pivotData : PivotTable.
Variables rowFields columnFields valueFields : list string.

#[local] Abbreviation stackedPoint :=
  (ChartData.stackedPoint pivotData rowFields columnFields valueFields).
#[local] Abbreviation barPoint := (ChartData.barPoint pivotData rowFields).
#[local] Abbreviation indexedRows := (ChartData.indexedRows pivotData).
#[local] Abbreviation columnKeys := (ChartData.columnKeys pivotData columnFields).

Lemma stacked_inner rowIndex : forall indexedColumns dataPoint seriesKeys,
  @fold_left (ChartDataPoint * list string) (nat * list string)
    (fun '(dataPoint, seriesKeys) '(columnIndex, columnHeader) =>
       let seriesKey := createSeriesKey columnHeader columnFields in
       let seriesKeys := JS.setAdd seriesKeys seriesKey in
       let cell :=
         row ← cells pivotData !! rowIndex; row !! columnIndex in
       match cell with
       | Some cell =>
           let cellValue := getCellDisplayValue (value cell) valueFields in
           (assign dataPoint seriesKey (Num cellValue), seriesKeys)
       | None => (assign dataPoint seriesKey (Num 0%float), seriesKeys)
       end)
    indexedColumns (dataPoint, seriesKeys)
  = (fold_left
       (fun dataPoint (column : nat * list string) =>
          assign dataPoint (createSeriesKey column.2 columnFields)
            (Num (displayAt pivotData valueFields rowIndex column.1)))
       indexedColumns dataPoint,
     fold_left JS.setAdd
       (List.map (fun column : nat * list string =>
                    createSeriesKey column.2 columnFields) indexedColumns)
       seriesKeys).
Proof.
  induction indexedColumns as [|[columnIndex columnHeader] indexedColumns IH];
    intros dataPoint seriesKeys; [reflexivity|].
  cbn [fold_left List.map]. cbv zeta. simpl fst. simpl snd.
  assert (Hdisplay :
    displayAt pivotData valueFields rowIndex columnIndex
    = match cells pivotData !! rowIndex ≫= (fun row => row !! columnIndex) with
      | Some cell => getCellDisplayValue (value cell) valueFields
      | None => 0%float
      end) by reflexivity.
  rewrite Hdisplay.
  destruct (cells pivotData !! rowIndex ≫= _); apply IH.
Qed.

Lemma bar_inner : forall properties (dataPoint : ChartDataPoint) seriesKeys,
  @fold_left (ChartDataPoint * list string) (string * AggregatedValue)
    (fun '(dataPoint, seriesKeys) '(valueKey, value) =>
       let seriesKey := valueKey in
       (<[seriesKey :=
            Num match value with
                | NumberValue x => x
                | _ => 0%float
                end]> dataPoint,
        JS.setAdd seriesKeys seriesKey))
    properties (dataPoint, seriesKeys)
  = (fold_left
       (fun dataPoint (property : string * AggregatedValue) =>
          <[property.1 := Num (numberOrZero property.2)]> dataPoint)
       properties dataPoint,
     fold_left JS.setAdd (List.map fst properties) seriesKeys).
Proof.
  induction properties as [|[valueKey val] properties IH];
    intros dataPoint seriesKeys; [reflexivity|].
  cbn [fold_left List.map]. cbv zeta. apply IH.
Qed.

Lemma imap_map_snd {A} (l : list A) :
  List.map snd (imap (fun index x => (index, x)) l) = l.
Proof.
  apply list_eq. intros i. rewrite map_lookup, list_lookup_imap.
  now destruct (l !! i).
Qed.

(** The result of [transformPivotToChartData], branch by branch. *)
Lemma transformPivotToChartData_unfold :
  transformPivotToChartData pivotData rowFields columnFields valueFields
  = if noCells pivotData
    then {| data := []; series := []; categoryKey := "category" |}
    else if noColumns pivotData
    then
      {| data := List.map barPoint indexedRows;
         series :=
           seriesOf
             (fold_left JS.setAdd
                (flat_map
                   (fun indexed : nat * list string =>
                      List.map fst
                        (from_option value [] (cellAt pivotData indexed.1 0)))
                   indexedRows)
                []);
         categoryKey := "category" |}
    else
      {| data := List.map stackedPoint indexedRows;
         series :=
           seriesOf
             (fold_left JS.setAdd
                (flat_map (fun _ : nat * list string => columnKeys) indexedRows)
                []);
         categoryKey := "category" |}.
Proof.
  unfold transformPivotToChartData. cbv zeta.
  fold (noCells pivotData). fold (noColumns pivotData).
  destruct (noCells pivotData); [reflexivity|].
  destruct (noColumns pivotData).
  - erewrite (fold_points barPoint
                (fun indexed : nat * list string =>
                   List.map fst
                     (from_option value [] (cellAt pivotData indexed.1 0)))).
    + reflexivity.
    + intros chartData seriesKeys [rowIndex rowHeader]. cbv zeta.
      unfold barPoint, cellAt. simpl fst. simpl snd.
      destruct (cells pivotData !! rowIndex ≫= _) as [cell|]; simpl.
      * now rewrite bar_inner.
      * reflexivity.
  - erewrite (fold_points stackedPoint (fun _ => columnKeys)).
    + reflexivity.
    + intros chartData seriesKeys [rowIndex rowHeader]. cbv zeta.
      rewrite stacked_inner. unfold stackedPoint, columnKeys.
      simpl fst. simpl snd. f_equal. f_equal.
      rewrite <- (imap_map_snd (columnHeaders pivotData)) at 2.
      now rewrite List.map_map.
Qed.


Lemma series_keys (seriesKeys : list string) :
  List.map key (seriesOf seriesKeys) = seriesKeys.
Proof.
  apply list_eq. intros i. unfold seriesOf.
  rewrite map_lookup, list_lookup_imap. now destruct (seriesKeys !! i).
Qed.

Lemma indexedRows_lookup rowIndex rowHeader :
  rowHeaders pivotData !! rowIndex = Some rowHeader ->
  indexedRows !! rowIndex = Some (rowIndex, rowHeader).
Proof. intros Hrow. unfold indexedRows. now rewrite imap_lookup_pair, Hrow. Qed.

(** X26: the series of a chart: no key twice; every series is named by its key
    and coloured by its position, through the five colours of the theme in
    turn; the chart configuration gives every series its key as label and
    its colour. The chart has one point per row header, or nothing at all
    when the table has no cell. *)
Theorem chart_series_and_config :
  let chart :=
    transformPivotToChartData pivotData rowFields columnFields valueFields in
  categoryKey chart = "category"
  /\ (noCells pivotData = true -> data chart = [] /\ series chart = [])
  /\ (noCells pivotData = false ->
      length (data chart) = length (rowHeaders pivotData))
  /\ List.NoDup (List.map key (series chart))
  /\ (forall index s,
        series chart !! index = Some s ->
        name s = key s
        /\ color s = Some (nth (index mod 5) palette EmptyString)
        /\ generateChartConfig (series chart) !! key s
           = Some {| label := key s;
                     configColor := nth (index mod 5) palette EmptyString |})
  /\ transformForHorizontalChart chart = chart.
Proof.
  intros chart. subst chart. rewrite transformPivotToChartData_unfold.
  destruct (noCells pivotData).
  { simpl. repeat split; try discriminate; constructor. }
  assert (Hseries : forall seriesKeys,
            List.NoDup seriesKeys ->
            List.NoDup (List.map key (seriesOf seriesKeys))
            /\ forall index s,
                 seriesOf seriesKeys !! index = Some s ->
                 name s = key s
                 /\ color s = Some (nth (index mod 5) palette EmptyString)
                 /\ generateChartConfig (seriesOf seriesKeys) !! key s
                    = Some {| label := key s;
                              configColor :=
                                nth (index mod 5) palette EmptyString |}).
  { intros seriesKeys Hnodup. rewrite series_keys. split; [assumption|].
    intros index s Hs. unfold seriesOf in Hs.
    rewrite list_lookup_imap in Hs.
    destruct (seriesKeys !! index) as [seriesKey|] eqn:Hkey; [|discriminate].
    injection Hs as <-. cbn [name key color]. rewrite <- chartColor_palette.
    split; [reflexivity|]. split; [reflexivity|].
    now apply generateChartConfig_lookup. }
  destruct (noColumns pivotData); simpl;
    (split; [reflexivity|]); (split; [discriminate|]);
    (split; [intros _; unfold indexedRows; now rewrite length_map, length_imap|]);
    (split; [apply Hseries, fold_setAdd_NoDup|]);
    (split; [apply Hseries, fold_setAdd_NoDup|reflexivity]).
Qed.

Lemma indexedColumns_keys :
  List.map
    (fun column : nat * list string => createSeriesKey column.2 columnFields)
    (imap (fun columnIndex columnHeader => (columnIndex, columnHeader))
       (columnHeaders pivotData))
  = columnKeys.
Proof.
  unfold columnKeys.
  rewrite <- (imap_map_snd (columnHeaders pivotData)) at 2.
  now rewrite List.map_map.
Qed.

(** The assignments that create a property. *)
Lemma fold_assign {A} (keyOf : A -> string) (g : A -> ChartValue) l :
  forall dataPoint : ChartDataPoint,
    fold_left (fun dataPoint x => assign dataPoint (keyOf x) (g x)) l dataPoint
    = fold_left (fun dataPoint x => <[keyOf x := g x]> dataPoint)
        (List.filter (fun x => negb (String.eqb (keyOf x) "__proto__")) l)
        dataPoint.
Proof.
  induction l as [|x l IH]; intros dataPoint; [reflexivity|].
  cbn [fold_left List.filter]. unfold assign at 2.
  destruct (String.eqb (keyOf x) "__proto__"); apply IH.
Qed.

Lemma NoDup_map_filter {A B} (f : A -> B) (p : A -> bool) l :
  List.NoDup (List.map f l) -> List.NoDup (List.map f (List.filter p l)).
Proof.
  induction l as [|x l IH]; intros Hnodup; [assumption|].
  inversion Hnodup as [|? ? Hx Hl]; subst. simpl.
  destruct (p x); [|now apply IH].
  simpl. constructor; [|now apply IH].
  intros Hin. apply Hx. apply in_map_iff in Hin as (y & Hy & Hin).
  apply filter_In in Hin as [Hin _]. apply in_map_iff. now exists y.
Qed.

Lemma stackedPoint_unfold indexed :
  stackedPoint indexed
  = fold_left
      (fun dataPoint (column : nat * list string) =>
         <[createSeriesKey column.2 columnFields :=
             Num (displayAt pivotData valueFields indexed.1 column.1)]>
           dataPoint)
      (List.filter
         (fun column : nat * list string =>
            negb (String.eqb (createSeriesKey column.2 columnFields) "__proto__"))
         (imap (fun columnIndex columnHeader => (columnIndex, columnHeader))
            (columnHeaders pivotData)))
      {[ "category" := Text (createCategoryName indexed.2 rowFields) ]}.
Proof.
  unfold stackedPoint.
  apply (fold_assign
           (fun column : nat * list string =>
              createSeriesKey column.2 columnFields)
           (fun column : nat * list string =>
              Num (displayAt pivotData valueFields indexed.1 column.1))).
Qed.

(** The keys of the columns that create a property. *)
Lemma assignedKeys_In k :
  In k
    (List.map
       (fun column : nat * list string => createSeriesKey column.2 columnFields)
       (List.filter
          (fun column : nat * list string =>
             negb
               (String.eqb (createSeriesKey column.2 columnFields) "__proto__"))
          (imap (fun columnIndex columnHeader => (columnIndex, columnHeader))
             (columnHeaders pivotData))))
  <-> In k columnKeys /\ k <> "__proto__".
Proof.
  rewrite <- indexedColumns_keys, !in_map_iff. split.
  - intros (column & <- & Hin). apply filter_In in Hin as [Hin Hkeep].
    split; [now exists column|].
    apply negb_true_iff, String.eqb_neq in Hkeep. exact Hkeep.
  - intros [(column & <- & Hin) Hk]. exists column. split; [reflexivity|].
    apply filter_In. split; [assumption|].
    now apply negb_true_iff, String.eqb_neq.
Qed.

Lemma stackedPoint_lookup_other indexed k :
  k <> "category" -> ~ In k columnKeys -> stackedPoint indexed !! k = None.
Proof.
  intros Hk Hnot. rewrite stackedPoint_unfold.
  rewrite (fold_insert_keyed_other
             (fun column : nat * list string =>
                createSeriesKey column.2 columnFields)
             (fun column : nat * list string =>
                Num (displayAt pivotData valueFields indexed.1 column.1))).
  - now apply lookup_singleton_ne.
  - rewrite assignedKeys_In. tauto.
Qed.

Lemma stackedPoint_lookup_proto indexed :
  stackedPoint indexed !! "__proto__" = None.
Proof.
  rewrite stackedPoint_unfold.
  rewrite (fold_insert_keyed_other
             (fun column : nat * list string =>
                createSeriesKey column.2 columnFields)
             (fun column : nat * list string =>
                Num (displayAt pivotData valueFields indexed.1 column.1))).
  - now apply lookup_singleton_ne.
  - rewrite assignedKeys_In. tauto.
Qed.

Lemma chart_with_columns :
  let chart :=
    transformPivotToChartData pivotData rowFields columnFields valueFields in
  noCells pivotData = false ->
  noColumns pivotData = false ->
  (rowHeaders pivotData <> [] ->
   List.map key (series chart) = distinct columnKeys)
  /\ forall rowIndex rowHeader,
       rowHeaders pivotData !! rowIndex = Some rowHeader ->
       exists point,
         data chart !! rowIndex = Some point
         /\ (forall s, In s (series chart) ->
               key s <> "__proto__" ->
               exists x, point !! key s = Some (Num x))
         /\ (List.NoDup columnKeys ->
             forall columnIndex columnHeader,
               columnHeaders pivotData !! columnIndex = Some columnHeader ->
               createSeriesKey columnHeader columnFields <> "__proto__" ->
               point !! createSeriesKey columnHeader columnFields
               = Some (Num (displayAt pivotData valueFields rowIndex columnIndex)))
         /\ point !! "__proto__" = None
         /\ (~ In "category" columnKeys ->
             point !! "category"
             = Some (Text (createCategoryName rowHeader rowFields)))
         /\ (forall k, k <> "category" -> ~ In k columnKeys -> point !! k = None).
Proof.
  intros chart Hcells Hcolumns. subst chart.
  rewrite transformPivotToChartData_unfold, Hcells, Hcolumns. simpl.
  rewrite series_keys.
  assert (Hkeys : forall k,
            In k (fold_left JS.setAdd
                    (flat_map (fun _ : nat * list string => columnKeys)
                       indexedRows) [])
            -> In k columnKeys).
  { intros k Hk. apply fold_setAdd_In in Hk as [[]|Hk].
    apply in_flat_map in Hk as (_ & _ & Hk). exact Hk. }
  split.
  - intros Hrows. unfold indexedRows.
    destruct (rowHeaders pivotData) as [|rowHeader rest]; [contradiction|].
    simpl. rewrite fold_left_app.
    rewrite (fold_setAdd columnKeys []). simpl.
    rewrite filter_true.
    apply fold_setAdd_absorb. intros k Hk.
    apply in_flat_map in Hk as (_ & _ & Hk). now apply distinct_In.
  - intros rowIndex rowHeader Hrow.
    exists (stackedPoint (rowIndex, rowHeader)).
    split; [now rewrite map_lookup, (indexedRows_lookup _ _ Hrow)|].
    split; [|split; [|split; [|split]]].
    + intros s Hs Hproto. apply (in_map key) in Hs. rewrite series_keys in Hs.
      apply Hkeys in Hs.
      assert (Hassigned := proj2 (assignedKeys_In (key s)) (conj Hs Hproto)).
      rewrite stackedPoint_unfold.
      destruct (fold_insert_last
                  (fun column : nat * list string =>
                     createSeriesKey column.2 columnFields)
                  (fun column : nat * list string =>
                     Num (displayAt pivotData valueFields rowIndex column.1))
                  _ {[ "category" := Text (createCategoryName rowHeader rowFields) ]}
                  (key s) Hassigned)
        as (column & _ & _ & Hlookup).
      eexists. exact Hlookup.
    + intros Hnodup columnIndex columnHeader Hcolumn Hproto.
      rewrite stackedPoint_unfold.
      apply (fold_insert_NoDup
               (fun column : nat * list string =>
                  createSeriesKey column.2 columnFields)
               (fun column : nat * list string =>
                  Num (displayAt pivotData valueFields rowIndex column.1))
               _ ltac:(apply NoDup_map_filter; now rewrite indexedColumns_keys)
               _ (columnIndex, columnHeader)).
      apply filter_In. split.
      * apply In_lookup. exists columnIndex.
        now rewrite imap_lookup_pair, Hcolumn.
      * now apply negb_true_iff, String.eqb_neq.
    + apply stackedPoint_lookup_proto.
    + intros Hnot. rewrite stackedPoint_unfold.
      rewrite (fold_insert_keyed_other
                 (fun column : nat * list string =>
                    createSeriesKey column.2 columnFields)
                 (fun column : nat * list string =>
                    Num (displayAt pivotData valueFields rowIndex column.1)))
        by (rewrite assignedKeys_In; tauto).
      apply lookup_singleton_eq.
    + intros k. apply stackedPoint_lookup_other.
Qed.

(** X27: a chart of columns: the series are the distinct series keys of the
    column headers. Every point holds a number under every series key but
    [__proto__], under which an assignment creates no property; for column
    headers with distinct keys the number is the display value of the
    row's cell in that column. *)
Theorem points_of_a_chart_with_columns :
  let chart :=
    transformPivotToChartData pivotData rowFields columnFields valueFields in
  noCells pivotData = false ->
  noColumns pivotData = false ->
  (rowHeaders pivotData <> [] ->
   List.map key (series chart) = distinct columnKeys)
  /\ forall rowIndex rowHeader,
       rowHeaders pivotData !! rowIndex = Some rowHeader ->
       exists point,
         data chart !! rowIndex = Some point
         /\ (forall s, In s (series chart) ->
               key s <> "__proto__" ->
               exists x, point !! key s = Some (Num x))
         /\ (List.NoDup columnKeys ->
             forall columnIndex columnHeader,
               columnHeaders pivotData !! columnIndex = Some columnHeader ->
               createSeriesKey columnHeader columnFields <> "__proto__" ->
               point !! createSeriesKey columnHeader columnFields
               = Some (Num (displayAt pivotData valueFields rowIndex columnIndex)))
         /\ point !! "__proto__" = None
         /\ (~ In "category" columnKeys ->
             point !! "category"
             = Some (Text (createCategoryName rowHeader rowFields)))
         /\ (forall k, k <> "category" -> ~ In k columnKeys -> point !! k = None).
Proof. exact chart_with_columns. Qed.

(** X28: a simple bar chart: the point of a row gives, under every label of the
    row's first cell, the number found there, or 0 for a text or a list; the
    labels of every row are series of the chart. *)
Theorem points_of_a_bar_chart :
  let chart :=
    transformPivotToChartData pivotData rowFields columnFields valueFields in
  noCells pivotData = false ->
  noColumns pivotData = true ->
  forall rowIndex rowHeader,
    rowHeaders pivotData !! rowIndex = Some rowHeader ->
    let properties := from_option value [] (cellAt pivotData rowIndex 0) in
    exists point,
      data chart !! rowIndex = Some point
      /\ (List.NoDup (List.map fst properties) ->
          forall label val,
            In (label, val) properties ->
            point !! label = Some (Num (numberOrZero val)))
      /\ (~ In "category" (List.map fst properties) ->
          point !! "category"
          = Some (Text (createCategoryName rowHeader rowFields)))
      /\ (forall k, k <> "category" -> ~ In k (List.map fst properties) ->
            point !! k = None)
      /\ (forall label, In label (List.map fst properties) ->
            In label (List.map key (series chart))).
Proof.
  intros chart Hcells Hcolumns rowIndex rowHeader Hrow properties. subst chart.
  rewrite transformPivotToChartData_unfold, Hcells, Hcolumns. simpl.
  rewrite series_keys.
  exists (barPoint (rowIndex, rowHeader)).
  split; [now rewrite map_lookup, (indexedRows_lookup _ _ Hrow)|].
  unfold barPoint. simpl fst. simpl snd. fold properties.
  split; [|split; [|split]].
  - intros Hnodup label val Hin.
    apply (fold_insert_NoDup fst
             (fun property : string * AggregatedValue =>
                Num (numberOrZero property.2))
             properties Hnodup _ (label, val) Hin).
  - intros Hnot.
    rewrite (fold_insert_keyed_other fst
               (fun property : string * AggregatedValue =>
                  Num (numberOrZero property.2))) by assumption.
    apply lookup_singleton_eq.
  - intros k Hk Hnot.
    rewrite (fold_insert_keyed_other fst
               (fun property : string * AggregatedValue =>
                  Num (numberOrZero property.2))) by assumption.
    now apply lookup_singleton_ne.
  - intros label Hlabel. apply fold_setAdd_In. right.
    apply in_flat_map. exists (rowIndex, rowHeader).
    split; [|exact Hlabel].
    apply In_lookup. exists rowIndex. now apply indexedRows_lookup.
Qed.

End Charts.

End ChartProperties.

(** North sold 100 of product A and 150 of product B. *)
Lemma points_of_a_chart_with_columns_witness :
  let chart :=
    ChartData.transformPivotToChartData Fixture.chartTable ["region"] ["product"]
      ["sales"] in
  List.map ChartData.key (ChartData.series chart) = ["A"; "B"]
  /\ exists point,
       ChartData.data chart !! 0%nat = Some point
       /\ point !! "A" = Some (ChartData.Num 100)
       /\ point !! "B" = Some (ChartData.Num 150)
       /\ point !! "category" = Some (ChartData.Text "North").
Proof.
  destruct (points_of_a_chart_with_columns Fixture.chartTable ["region"] ["product"]
              ["sales"] eq_refl eq_refl)
    as [Hseries Hpoints].
  split; [apply Hseries; discriminate|].
  destruct (Hpoints 0%nat ["North"] eq_refl)
    as (point & Hpoint & _ & Hvalue & _ & Hcategory & _).
  exists point. split; [exact Hpoint|].
  assert (Hnodup : List.NoDup (ChartData.columnKeys Fixture.chartTable ["product"])).
  { repeat constructor; simpl; intuition discriminate. }
  split; [exact (Hvalue Hnodup 0%nat ["A"] eq_refl ltac:(discriminate))|].
  split; [exact (Hvalue Hnodup 1%nat ["B"] eq_refl ltac:(discriminate))|].
  apply Hcategory. simpl. intuition discriminate.
Defined.

(** The bar of North: its sales, and 0 for the text under the second
    label. *)
Lemma points_of_a_bar_chart_witness :
  let chart :=
    ChartData.transformPivotToChartData Fixture.barTable ["region"] [] ["sales"] in
  exists point,
    ChartData.data chart !! 0%nat = Some point
    /\ point !! "sales (sum)" = Some (ChartData.Num 250)
    /\ point !! "product (first)" = Some (ChartData.Num 0)
    /\ point !! "category" = Some (ChartData.Text "North").
Proof.
  destruct (points_of_a_bar_chart Fixture.barTable ["region"] [] ["sales"] eq_refl
              eq_refl 0%nat ["North"] eq_refl)
    as (point & Hpoint & Hvalue & Hcategory & _).
  exists point. split; [exact Hpoint|].
  assert (Hnodup :
    List.NoDup
      (List.map fst
         (from_option ChartData.value [] (ChartData.cellAt Fixture.barTable 0 0)))).
  { repeat constructor; simpl; intuition discriminate. }
  split; [apply (Hvalue Hnodup "sales (sum)" (NumberValue 250)); now left|].
  split; [apply (Hvalue Hnodup "product (first)" (StringValue "A"));
          right; now left|].
  apply Hcategory. simpl. intuition discriminate.
Defined.

(** ** Drag identifiers *)

Section DragIdentifiers.

Import DndHelpers.

Lemma split_nonempty separator s : split separator s <> [].
Proof.
  destruct s as [|c s]; simpl; [discriminate|].
  destruct (Ascii.eqb c separator); [discriminate|].
  destruct (split separator s); discriminate.
Qed.

Lemma split_without separator s :
  without separator s = true -> split separator s = [s].
Proof.
  induction s as [|c s IH]; simpl; [reflexivity|].
  intros Hs. apply andb_true_iff in Hs as [Hc Hs].
  apply negb_true_iff in Hc. rewrite Hc, (IH Hs). reflexivity.
Qed.

Lemma split_app separator a b :
  split separator (a +:+ String separator b)
  = split separator a ++ split separator b.
Proof.
  induction a as [|c a IH]; simpl.
  - now rewrite Ascii.eqb_refl.
  - destruct (Ascii.eqb c separator); [now rewrite IH|].
    rewrite IH. pose proof (split_nonempty separator a).
    destruct (split separator a); [contradiction|reflexivity].
Qed.

Lemma concat_cons_char separator c part parts :
  String.concat separator (String c part :: parts)
  = String c (String.concat separator (part :: parts)).
Proof. destruct parts; reflexivity. Qed.

Lemma join_split separator s :
  join (String separator EmptyString) (split separator s) = s.
Proof.
  unfold join. induction s as [|c s IH]; [reflexivity|].
  cbn [split]. pose proof (split_nonempty separator s) as Hparts.
  destruct (split separator s) as [|part parts]; [contradiction|].
  destruct (Ascii.eqb_spec c separator) as [->|Hne].
  - change (String.concat (String separator EmptyString)
              (EmptyString :: part :: parts))
      with (String separator
              (String.concat (String separator EmptyString) (part :: parts))).
    now rewrite IH.
  - now rewrite concat_cons_char, IH.
Qed.

(** X29: the identifier [zone-field-index] of a field placed on a zone is read
    back as its three parts, whatever hyphens the field name holds. *)
Theorem drag_identifier_round_trip zoneName fieldName indexText :
  without "-" zoneName = true ->
  without "-" indexText = true ->
  JS.isNaN (parseInt indexText) = false ->
  getZoneAndField (zoneName +:+ "-" +:+ fieldName +:+ "-" +:+ indexText)
  = {| zone := zoneName; field := fieldName; index := parseInt indexText |}.
Proof.
  intros Hzone Hindex Hnumber. unfold getZoneAndField.
  change (zoneName +:+ "-" +:+ fieldName +:+ "-" +:+ indexText)
    with (zoneName +:+ String "-" (fieldName +:+ String "-" indexText)).
  rewrite !split_app, (split_without _ _ Hzone), (split_without _ _ Hindex).
  set (fieldParts := split "-" fieldName).
  assert (Hlen : length ([zoneName] ++ fieldParts ++ [indexText])
                 = S (S (length fieldParts))).
  { rewrite !length_app. simpl. lia. }
  cbv zeta. rewrite Hlen.
  assert (Hsome : (1 <= length fieldParts)%nat).
  { pose proof (split_nonempty "-" fieldName). fold fieldParts in H.
    destruct fieldParts; [contradiction|simpl; lia]. }
  replace (S (S (length fieldParts)) =? 1)%nat with false
    by (symmetry; apply Nat.eqb_neq; lia).
  cbn [andb]. cbn [Nat.leb].
  replace (S (S (length fieldParts)) - 1)%nat
    with (length ([zoneName] ++ fieldParts))
    by (rewrite length_app; simpl; lia).
  rewrite app_assoc, list_lookup_middle by reflexivity.
  change (default EmptyString (Some indexText)) with indexText.
  rewrite Hnumber. cbn [negb].
  f_equal. unfold sliceButLast.
  rewrite <- app_assoc. cbn [app drop].
  replace (length (zoneName :: fieldParts ++ [indexText]) - 1 - 1)%nat
    with (length fieldParts)
    by (cbn [length]; rewrite length_app; simpl; lia).
  rewrite drop_0, take_app_length. apply join_split.
Qed.

End DragIdentifiers.

(** The identifier of the field [first-name], third on the rows. *)
Lemma drag_identifier_round_trip_witness :
  DndHelpers.getZoneAndField "rows-first-name-2"
  = {| DndHelpers.zone := "rows";
       DndHelpers.field := "first-name";
       DndHelpers.index := 2%float |}.
Proof.
  apply (drag_identifier_round_trip "rows" "first-name" "2");
    vm_compute; reflexivity.
Defined.

(** ** Charts of the tables of the builders *)

Section ChartsOfTables.

Context `{Intl}.

Lemma propertiesOf_single config subset :
  (length (values config) <= 1)%nat ->
  exists label,
    propertiesOf config (aggregatedValues config subset)
    = [(label, shownValue config subset)].
Proof.
  unfold propertiesOf, labels, shownValue, aggregatedValues.
  destruct (values config) as [|valueConfig [|other rest]]; simpl; [| |lia];
    intros _.
  - exists "Count". now rewrite lookup_insert_eq.
  - exists (valueKey valueConfig). now rewrite lookup_insert_eq.
Qed.

Lemma getCellDisplayValue_single label val valueFields :
  ChartData.getCellDisplayValue [(label, val)] valueFields
  = ChartData.numberOrZero val.
Proof. now destruct val. Qed.

(** X30: the chart of a table built with one column field and at most one value
    field: in the point of every row, the series of a column holds the
    number of the cell of that row and column, the number of the cell's
    records when no value field is configured. The column of the header
    [__proto__] has a series but no property in the points. *)
Theorem chart_of_a_built_table records config columnField valueFields r c cell :
  let table := generatePivotTable records config in
  let chart :=
    ChartData.transformPivotToChartData (chartInput config table)
      (rows config) (columns config) valueFields in
  columns config = [columnField] ->
  (length (values config) <= 1)%nat ->
  cellAt table r c = Some cell ->
  exists point header,
    ChartData.data chart !! r = Some point
    /\ columnHeaders table !! c = Some [header]
    /\ In header (List.map ChartData.key (ChartData.series chart))
    /\ point !! header
       = if String.eqb header "__proto__" then None
         else
           Some
             (ChartData.Num
                (ChartData.numberOrZero (shownValue config (data cell)))).
Proof.
  intros table chart Hcolumns Hvalues Hcell. subst chart.
  set (filteredData := filterData records (filters config)).
  destruct (cellAt_cellFor records config r c cell Hcell)
    as (rowKey & colKey & Hr & Hc & ->).
  fold filteredData in Hr, Hc.
  assert (Hheader : exists header, colKey = [header]).
  { assert (Hlen : length colKey = length (columns config)).
    { eapply getNestedKeys_length, In_lookup. eauto. }
    rewrite Hcolumns in Hlen.
    destruct colKey as [|header [|]]; try discriminate. now exists header. }
  destruct Hheader as [header ->].
  assert (Htable :
    table
    = {| rowHeaders := getNestedKeys filteredData (rows config);
         columnHeaders := getNestedKeys filteredData (columns config);
         cells :=
           List.map
             (fun rowKey =>
                List.map (cellFor config filteredData rowKey)
                  (getNestedKeys filteredData (columns config)))
             (getNestedKeys filteredData (rows config));
         rowTotals := rowTotals table;
         columnTotals := columnTotals table;
         grandTotal := grandTotal table |}).
  { subst table. now rewrite generatePivotTable_unfold. }
  set (input := chartInput config table).
  assert (HcolumnHeaders :
    ChartData.columnHeaders input = getNestedKeys filteredData (columns config)).
  { subst input. now rewrite Htable. }
  assert (HrowHeaders :
    ChartData.rowHeaders input = getNestedKeys filteredData (rows config)).
  { subst input. now rewrite Htable. }
  assert (Hcells :
    ChartData.cells input
    = List.map
        (fun rowKey =>
           List.map
             (fun colKey =>
                {| ChartData.value :=
                     propertiesOf config
                       (value (cellFor config filteredData rowKey colKey)) |})
             (getNestedKeys filteredData (columns config)))
        (getNestedKeys filteredData (rows config))).
  { subst input. rewrite Htable. unfold chartInput. simpl.
    rewrite List.map_map. apply map_ext. intros key.
    now rewrite List.map_map. }
  assert (HcellAt : forall r' c' rowKey' colKey',
            getNestedKeys filteredData (rows config) !! r' = Some rowKey' ->
            getNestedKeys filteredData (columns config) !! c' = Some colKey' ->
            ChartData.cellAt input r' c'
            = Some
                {| ChartData.value :=
                     propertiesOf config
                       (value (cellFor config filteredData rowKey' colKey')) |}).
  { intros r' c' rowKey' colKey' Hr' Hc'. unfold ChartData.cellAt.
    rewrite Hcells, map_lookup, Hr'. simpl. now rewrite map_lookup, Hc'. }
  assert (HnoCells : ChartData.noCells input = false).
  { unfold ChartData.noCells. rewrite Hcells, !length_map, map_lookup.
    destruct (getNestedKeys filteredData (rows config)) as [|first rest];
      [discriminate Hr|].
    simpl. rewrite length_map.
    destruct (getNestedKeys filteredData (columns config)); [discriminate Hc|].
    reflexivity. }
  assert (HnoColumns : ChartData.noColumns input = false).
  { unfold ChartData.noColumns. rewrite HcolumnHeaders.
    destruct (getNestedKeys filteredData (columns config)) as [|first rest] eqn:E;
      [discriminate Hc|].
    simpl.
    assert (Hlen : length first = length (columns config)).
    { apply (getNestedKeys_length filteredData). rewrite E. now left. }
    rewrite Hcolumns in Hlen. destruct first; [discriminate|reflexivity]. }
  assert (Hkeys :
    ChartData.columnKeys input (columns config)
    = sortedValues filteredData columnField).
  { unfold ChartData.columnKeys.
    rewrite HcolumnHeaders, getNestedKeys_cartesian, Hcolumns.
    cbn [List.map]. clear.
    induction (sortedValues filteredData columnField) as [|v l IH];
      [reflexivity|].
    simpl in *. now rewrite IH. }
  destruct (chart_with_columns input (rows config) (columns config)
              valueFields HnoCells HnoColumns)
    as [Hseries Hpoints].
  rewrite HrowHeaders in Hseries, Hpoints.
  destruct (Hpoints r rowKey Hr) as (point & Hpoint & _ & Hvalue & Hproto & _).
  exists point, header. split; [exact Hpoint|].
  split; [subst table; now rewrite generatePivotTable_unfold|].
  rewrite Hkeys in Hvalue, Hseries.
  assert (Hsorted : In header (sortedValues filteredData columnField)).
  { rewrite <- Hkeys. apply in_map_iff. exists [header]. split; [reflexivity|].
    rewrite HcolumnHeaders. apply In_lookup. eauto. }
  split.
  - rewrite Hseries.
    + now apply distinct_In.
    + intros Hnil. rewrite Hnil in Hr. discriminate Hr.
  - destruct (String.eqb_spec header "__proto__") as [->|Hheader];
      [exact Hproto|].
    rewrite HcolumnHeaders in Hvalue.
    specialize (Hvalue (sortedValues_NoDup _ _) c [header] Hc Hheader).
    simpl in Hvalue. rewrite Hvalue.
    unfold ChartData.displayAt. rewrite (HcellAt r c rowKey [header] Hr Hc).
    simpl.
    destruct (propertiesOf_single config
                (getSubsetData filteredData rowKey [header] (rows config)
                   (columns config)) Hvalues) as [label ->].
    now rewrite getCellDisplayValue_single.
Qed.

End ChartsOfTables.

(** The chart of the counts by region and product: North has one record
    of product A. *)
Lemma chart_of_a_built_table_witness :
  let table :=
    generatePivotTable (H := Reference.host) Fixture.sampleData
      Fixture.countByRegionAndProduct in
  let chart :=
    ChartData.transformPivotToChartData (chartInput Fixture.countByRegionAndProduct table)
      ["region"] ["product"] [] in
  exists point,
    ChartData.data chart !! 1%nat = Some point
    /\ point !! "A" = Some (ChartData.Num 1).
Proof.
  pose (table :=
    generatePivotTable (H := Reference.host) Fixture.sampleData
      Fixture.countByRegionAndProduct).
  pose (cell :=
    default {| value := ∅; rowKeys := []; columnKeys := []; data := [] |}
      (cellAt table 1 0)).
  assert (Hcell : cellAt table 1 0 = Some cell) by (vm_compute; reflexivity).
  destruct (chart_of_a_built_table (H := Reference.host) Fixture.sampleData
              Fixture.countByRegionAndProduct "product" [] 1 0 cell eq_refl
              ltac:(simpl; lia) Hcell)
    as (point & header & Hpoint & Hheader & _ & Hvalue).
  exists point. split; [exact Hpoint|].
  assert (Hname : header = "A").
  { assert (Hat : columnHeaders table !! 0%nat = Some ["A"])
      by (vm_compute; reflexivity).
    fold table in Hheader. congruence. }
  rewrite Hname in Hvalue. rewrite Hvalue. vm_compute. reflexivity.
Defined.
